(** * CraftConnect API: authentication engine, portfolio cap and rate limiter

    A shallow embedding of the parts of the CraftConnect backend that the
    specification makes claims about:

    - [errors/AppError.ts]            the typed error classes,
    - [types/index.ts]                the persisted records,
    - [services/database.service.ts]  the JSON record store ([db]),
    - [utils/otp.ts]                  OTP expiry helpers,
    - [services/auth.service.ts]      [AuthService],
    - [services/portfolio.service.ts] [PortfolioService.create],
    - [middleware/rateLimiter.middleware.ts] the in-memory rate limiters.

    Conventions of the embedding.

    - Timestamps.  The code stores ISO-8601 strings produced by
      [Date.prototype.toISOString] and compares them after [new Date(...)];
      here a timestamp is the number of milliseconds since the epoch, a [Z].
    - [string | null] fields are [option string]; JavaScript truthiness of
      such a value ([if (x)], [!x], [!!x]) is [truthy]: [null], [undefined]
      and the empty string are falsy.
    - Every [async] method runs to completion before the next one starts
      (store operations are awaited one after the other), so a method is a
      function from the store to a result and a new store.  A thrown error
      keeps the writes made before the [throw].
    - Values that the code obtains from its environment during one call
      (the clock, [generateId()], [generateOtp()], the salted
      [hashPassword]) are the fields of an [Env.t] record passed to the call.
      The cryptographic library functions ([bcrypt.compare], [jwt.sign],
      [jwt.verify]) are the members of the [Crypto] class. *)

From Stdlib Require Import ZArith List String Ascii Bool Lia.
From stdpp Require Import gmap strings list pretty.
Import ListNotations.

Local Open Scope string_scope.
Local Open Scope Z_scope.

(** ** JavaScript helpers *)

(** [x === s] for [x : string | null] and [s : string]. *)
Definition opt_eqb (x : option string) (s : string) : bool :=
  match x with
  | Some v => String.eqb v s
  | None => false
  end.

(** [x === y] for [x : string | null] and [y : string | undefined]
    ([null === undefined] is false). *)
Definition strict_eqb (x y : option string) : bool :=
  match x, y with
  | Some v, Some w => String.eqb v w
  | _, _ => false
  end.

(** Truthiness of a [string | null | undefined] value. *)
Definition truthy (x : option string) : bool :=
  match x with
  | Some v => negb (String.eqb v "")
  | None => false
  end.

(** [x || d] for [x : string | undefined]. *)
Definition or_default (x : option string) (d : string) : string :=
  match x with
  | Some v => if String.eqb v "" then d else v
  | None => d
  end.

(** [x || null] for [x : string | undefined]. *)
Definition or_null (x : option string) : option string :=
  if truthy x then x else None.

(** [!!x] for an object-or-null value. *)
Definition isSome {A : Type} (x : option A) : bool :=
  match x with
  | Some _ => true
  | None => false
  end.

(** [Math.ceil(x / d)] for integers [x] and [d > 0]. *)
Definition ceil_div (x d : Z) : Z := - ((- x) / d).

(** ** errors/AppError.ts *)

Module AppError.
Record t : Type := mk
  { message : string;
    statusCode : Z;
    code : string;
    isOperational : bool }.
End AppError.

Definition BadRequestError (message : string) : AppError.t :=
  AppError.mk message 400 "BAD_REQUEST" true.

Definition UnauthorizedError (message : string) : AppError.t :=
  AppError.mk message 401 "UNAUTHORIZED" true.

Definition ForbiddenError (message : string) : AppError.t :=
  AppError.mk message 403 "FORBIDDEN" true.

Definition NotFoundError (resource : string) : AppError.t :=
  AppError.mk (resource +:+ " not found") 404 "NOT_FOUND" true.

Definition ConflictError (message : string) : AppError.t :=
  AppError.mk message 409 "CONFLICT" true.

Definition RateLimitError (message : string) : AppError.t :=
  AppError.mk message 429 "RATE_LIMIT_EXCEEDED" true.

(** ** types/index.ts *)

Inductive Role : Type := PROVIDER | CUSTOMER | ADMIN.

Inductive ServiceType : Type :=
  CARPENTER | INTERIOR_DESIGNER | HOME_DECOR | FURNITURE_MAKER.

Inductive OtpType : Type := LOGIN | REGISTER | RESET_PASSWORD.

Module User.
Record t : Type := mk
  { id : string;
    email : option string;
    phoneNumber : option string;
    passwordHash : option string;
    role : Role;
    isVerified : bool;
    createdAt : Z;
    updatedAt : Z;
    lastLoginAt : option Z }.
End User.

Module Provider.
Record t : Type := mk
  { id : string;
    userId : string;
    businessName : string;
    slug : string;
    serviceType : ServiceType;
    city : string;
    whatsappNumber : string;
    experienceYears : Z;
    description : option string;
    isVerified : bool;
    isActive : bool;
    profileViews : Z;
    createdAt : Z;
    updatedAt : Z }.
End Provider.

Module PortfolioItem.
Record t : Type := mk
  { id : string;
    providerId : string;
    imageUrl : string;
    description : option string;
    displayOrder : Z;
    createdAt : Z;
    updatedAt : Z;
    title : string;
    category : option string }.
End PortfolioItem.

Module CreatePortfolioItemInput.
Record t : Type := mk
  { title : string;
    category : option string;
    imgUrl : string;
    description : option string }.
End CreatePortfolioItemInput.

Module Otp.
Record t : Type := mk
  { id : string;
    userId : string;
    code : string;
    type : OtpType;
    expiresAt : Z;
    createdAt : Z;
    verified : bool;
    attempts : Z }.
End Otp.

Module Session.
Record t : Type := mk
  { id : string;
    userId : string;
    refreshToken : string;
    userAgent : option string;
    ipAddress : option string;
    createdAt : Z;
    expiresAt : Z }.
End Session.

(** types/auth.types.ts *)

Module JwtPayload.
Record t : Type := mk { userId : string; role : Role }.
End JwtPayload.

Module TokenPair.
Record t : Type := mk { accessToken : string; refreshToken : string }.
End TokenPair.

Module AuthUser.
Record t : Type := mk
  { id : string;
    email : option string;
    phoneNumber : option string;
    role : Role;
    isVerified : bool }.
End AuthUser.

Module AuthResponse.
Record t : Type := mk
  { tokens : TokenPair.t;
    user : AuthUser.t;
    hasProvider : bool }.
End AuthResponse.

(** ** services/database.service.ts

    A collection is the cached array of its records, in insertion order.
    [T extends { id: string }] is the class [HasId]. *)

Class HasId (T : Type) : Type := rid : T -> string.

#[global] Instance User_HasId : HasId User.t := User.id.
#[global] Instance Provider_HasId : HasId Provider.t := Provider.id.
#[global] Instance PortfolioItem_HasId : HasId PortfolioItem.t := PortfolioItem.id.
#[global] Instance Otp_HasId : HasId Otp.t := Otp.id.
#[global] Instance Session_HasId : HasId Session.t := Session.id.

Module db.
Section Collection.
Context {T : Type}.

(** [records.findIndex(predicate)]; [None] is [-1]. *)
Fixpoint findIndex (predicate : T -> bool) (records : list T) : option nat :=
  match records with
  | [] => None
  | r :: rest =>
      if predicate r then Some O
      else option_map S (findIndex predicate rest)
  end.

Definition findWhere (records : list T) (predicate : T -> bool) : list T :=
  List.filter predicate records.

Definition findOne (records : list T) (predicate : T -> bool) : option T :=
  List.find predicate records.

Definition count (records : list T) (predicate : T -> bool) : nat :=
  length (List.filter predicate records).

(** [records.push(record)] *)
Definition create (records : list T) (record : T) : list T :=
  records ++ [record].

Definition deleteWhere (records : list T) (predicate : T -> bool) : list T :=
  List.filter (fun record => negb (predicate record)) records.

Context `{HasId T}.

Definition findById (records : list T) (i : string) : option T :=
  List.find (fun record => String.eqb (rid record) i) records.

(** [records[index] = { ...records[index], ...updates }] at the first
    index whose record has the id; the partial object [updates] is the
    function that overwrites its fields.  No record with the id: the
    collection is left as it is (the method returns [null]). *)
Definition update (records : list T) (i : string) (updates : T -> T) : list T :=
  match findIndex (fun record => String.eqb (rid record) i) records with
  | None => records
  | Some index =>
      match records !! index with
      | Some record => <[index := updates record]> records
      | None => records
      end
  end.

(** [records.splice(index, 1)] at the first index whose record has the
    id. *)
Definition delete (records : list T) (i : string) : list T :=
  match findIndex (fun record => String.eqb (rid record) i) records with
  | None => records
  | Some index => base.delete index records
  end.
End Collection.
End db.

(** The collections the modelled services touch. *)
Record Store : Type := mkStore
  { users : list User.t;
    providers : list Provider.t;
    portfolios : list PortfolioItem.t;
    otps : list Otp.t;
    sessions : list Session.t }.

Definition set_users (f : list User.t -> list User.t) (s : Store) : Store :=
  mkStore (f (users s)) (providers s) (portfolios s) (otps s) (sessions s).

Definition set_portfolios (f : list PortfolioItem.t -> list PortfolioItem.t)
    (s : Store) : Store :=
  mkStore (users s) (providers s) (f (portfolios s)) (otps s) (sessions s).

Definition set_otps (f : list Otp.t -> list Otp.t) (s : Store) : Store :=
  mkStore (users s) (providers s) (portfolios s) (f (otps s)) (sessions s).

Definition set_sessions (f : list Session.t -> list Session.t) (s : Store) : Store :=
  mkStore (users s) (providers s) (portfolios s) (otps s) (f (sessions s)).

(** ** Methods: a state monad over the store with thrown errors *)

Inductive Result (A : Type) : Type :=
| Ok (a : A)
| Err (e : AppError.t).
Arguments Ok {A} a.
Arguments Err {A} e.

Definition M (A : Type) : Type := Store -> Result A * Store.

Definition ret {A : Type} (a : A) : M A := fun s => (Ok a, s).

Definition throw {A : Type} (e : AppError.t) : M A := fun s => (Err e, s).

Definition bind {A B : Type} (m : M A) (k : A -> M B) : M B :=
  fun s =>
    match m s with
    | (Ok a, s') => k a s'
    | (Err e, s') => (Err e, s')
    end.

Definition gets {A : Type} (f : Store -> A) : M A := fun s => (Ok (f s), s).

Definition modify (f : Store -> Store) : M unit := fun s => (Ok tt, f s).

Notation "'do' x <- m ; k" := (bind m (fun x => k))
  (at level 10, x name, m at level 100, k at level 200).
Notation "'run' m ; k" := (bind m (fun _ => k))
  (at level 10, m at level 100, k at level 200).

(** ** Array.prototype.sort

    [sort cmp l] is [l.sort(cmp)]: a stable sort that puts [a] before [b]
    when [cmp a b < 0] and keeps the order of [a] and [b] when
    [cmp a b = 0].  For a comparator that is a consistent ordering every
    stable sort returns the same array; this one inserts from the right. *)

Fixpoint sort_insert {T : Type} (cmp : T -> T -> Z) (x : T) (l : list T) : list T :=
  match l with
  | [] => [x]
  | y :: rest =>
      if cmp x y <=? 0 then x :: y :: rest
      else y :: sort_insert cmp x rest
  end.

Fixpoint sort {T : Type} (cmp : T -> T -> Z) (l : list T) : list T :=
  match l with
  | [] => []
  | x :: rest => sort_insert cmp x (sort cmp rest)
  end.

(** ** config/index.ts and the libraries *)

(** The settings read by the modelled code. *)
Class Config : Type :=
  { otp_expiryMinutes : Z;  (* config.otp.expiryMinutes, default 10 *)
    rateLimit_windowMs : Z; (* config.rateLimit.windowMs, default 900000 *)
    rateLimit_max : Z       (* config.rateLimit.max, default 100 *) }.

(** The library calls of [utils/password.ts] and [utils/jwt.ts].
    - [comparePassword password hash] is [bcrypt.compare].
    - [generateTokenPair userId role now] is the pair of [jwt.sign] results
      for the payload [{userId, role}] signed at clock reading [now].
    - [verifyRefreshToken token now] is [jwt.verify] with the refresh
      secret at clock reading [now]; [None] stands for the thrown
      [JsonWebTokenError] or [TokenExpiredError]. *)
Class Crypto : Type :=
  { comparePassword : string -> string -> bool;
    generateTokenPair : string -> Role -> Z -> TokenPair.t;
    verifyRefreshToken : string -> Z -> option JwtPayload.t }.

(** What one call reads from its environment. *)
Module Env.
Record t : Type := mk
  { now : Z;             (* new Date() / Date.now(), ms since the epoch *)
    userId : string;     (* generateId() for a new User *)
    sessionId : string;  (* generateId() for a new Session *)
    otpId : string;      (* generateId() for a new Otp *)
    portfolioId : string; (* generateId() for a new PortfolioItem *)
    otp : string;        (* generateOtp() *)
    passwordHash : string (* hashPassword(password): bcrypt with a fresh salt *) }.
End Env.

(** ** utils/otp.ts *)

(** [expiry.setMinutes(expiry.getMinutes() + config.otp.expiryMinutes)] *)
Definition getOtpExpiry {config : Config} (now : Z) : Z :=
  now + otp_expiryMinutes * 60000.

(** [new Date() > expiry] *)
Definition isOtpExpired (now expiryDate : Z) : bool :=
  expiryDate <? now.

(** ** services/auth.service.ts *)

Module Identifier.
Record t : Type := mk { phone : option string; email : option string }.
End Identifier.

Module SendOtpResult.
Record t : Type := mk { message : string; otpId : string }.
End SendOtpResult.

Definition thirtyDays : Z := 30 * 24 * 60 * 60 * 1000.

Module AuthService.
Section Service.
Context {config : Config} {crypto : Crypto}.

Definition toAuthUser (user : User.t) (isVerified : bool) : AuthUser.t :=
  AuthUser.mk (User.id user) (User.email user) (User.phoneNumber user)
    (User.role user) isVerified.

(** [createSession(userId, refreshToken)]; the callers pass neither
    [userAgent] nor [ipAddress]. *)
Definition createSession (e : Env.t) (userId refreshToken : string) : M Session.t :=
  let session :=
    Session.mk (Env.sessionId e) userId refreshToken None None
      (Env.now e) (Env.now e + thirtyDays) in
  run modify (set_sessions (fun l => db.create l session));
  ret session.

Definition sendEmailOtp (e : Env.t) (userId email : string) (type : OtpType)
    : M SendOtpResult.t :=
  let otp := Env.otp e in
  let expiry := getOtpExpiry (Env.now e) in
  let otpRecord :=
    Otp.mk (Env.otpId e) userId otp type expiry (Env.now e) false 0 in
  run modify (set_otps (fun l => db.create l otpRecord));
  ret (SendOtpResult.mk "OTP sent to email" (Otp.id otpRecord)).

Definition hasProviderFor (userId : string) : M bool :=
  do provider <- gets (fun s =>
    db.findOne (providers s) (fun p => String.eqb (Provider.userId p) userId));
  ret (isSome provider).

Definition registerWithEmail (e : Env.t) (email password : string)
    : M AuthResponse.t :=
  do existingUser <- gets (fun s =>
    db.findOne (users s) (fun u => opt_eqb (User.email u) email));
  match existingUser with
  | Some _ => throw (ConflictError "Email already registered")
  | None =>
      let passwordHash := Env.passwordHash e in
      let now := Env.now e in
      let user :=
        User.mk (Env.userId e) (Some email) None (Some passwordHash)
          PROVIDER false now now (Some now) in
      run modify (set_users (fun l => db.create l user));
      let tokens := generateTokenPair (User.id user) (User.role user) now in
      run createSession e (User.id user) (TokenPair.refreshToken tokens);
      run sendEmailOtp e (User.id user) email REGISTER;
      do hasProvider <- hasProviderFor (User.id user);
      ret (AuthResponse.mk tokens (toAuthUser user (User.isVerified user))
             hasProvider)
  end.

Definition loginWithEmail (e : Env.t) (email password : string)
    : M AuthResponse.t :=
  do user <- gets (fun s =>
    db.findOne (users s) (fun u => opt_eqb (User.email u) email));
  match user with
  | None => throw (UnauthorizedError "Invalid email or password")
  | Some user =>
      match User.passwordHash user with
      | None => throw (UnauthorizedError "Please login with phone OTP")
      | Some hash =>
          if String.eqb hash "" then
            throw (UnauthorizedError "Please login with phone OTP")
          else if negb (comparePassword password hash) then
            throw (UnauthorizedError "Invalid email or password")
          else
            run modify (set_users (fun l =>
              db.update l (User.id user) (fun u =>
                User.mk (User.id u) (User.email u) (User.phoneNumber u)
                  (User.passwordHash u) (User.role u) (User.isVerified u)
                  (User.createdAt u) (User.updatedAt u) (Some (Env.now e)))));
            let tokens :=
              generateTokenPair (User.id user) (User.role user) (Env.now e) in
            run createSession e (User.id user) (TokenPair.refreshToken tokens);
            do hasProvider <- hasProviderFor (User.id user);
            ret (AuthResponse.mk tokens
                   (toAuthUser user (User.isVerified user)) hasProvider)
      end
  end.

Definition sendPhoneOtp (e : Env.t) (phoneNumber : string) : M SendOtpResult.t :=
  do found <- gets (fun s =>
    db.findOne (users s) (fun u => opt_eqb (User.phoneNumber u) phoneNumber));
  do user <-
    match found with
    | Some user => ret user
    | None =>
        let now := Env.now e in
        let user :=
          User.mk (Env.userId e) None (Some phoneNumber) None
            PROVIDER false now now None in
        run modify (set_users (fun l => db.create l user));
        ret user
    end;
  let otp := Env.otp e in
  let expiry := getOtpExpiry (Env.now e) in
  let otpRecord :=
    Otp.mk (Env.otpId e) (User.id user) otp LOGIN expiry (Env.now e) false 0 in
  run modify (set_otps (fun l => db.create l otpRecord));
  ret (SendOtpResult.mk "OTP sent successfully" (Otp.id otpRecord)).

(** The first branch of [verifyOtp]: the user is looked up by phone when
    [identifier.phone] is truthy, else by email when [identifier.email] is
    truthy, else stays [null]. *)
Definition resolveUser (identifier : Identifier.t) (s : Store) : option User.t :=
  if truthy (Identifier.phone identifier) then
    db.findOne (users s) (fun u =>
      strict_eqb (User.phoneNumber u) (Identifier.phone identifier))
  else if truthy (Identifier.email identifier) then
    db.findOne (users s) (fun u =>
      strict_eqb (User.email u) (Identifier.email identifier))
  else None.

(** [(a, b) => new Date(b.createdAt).getTime() - new Date(a.createdAt).getTime()] *)
Definition byCreatedAtDesc (a b : Otp.t) : Z :=
  Otp.createdAt b - Otp.createdAt a.

(** The first of the user's unverified OTPs sorted by creation time,
    newest first. *)
Definition latestOtpOf (user : User.t) (s : Store) : option Otp.t :=
  let otpRecords :=
    db.findWhere (otps s) (fun o =>
      String.eqb (Otp.userId o) (User.id user) && negb (Otp.verified o)) in
  head (sort byCreatedAtDesc otpRecords).

Definition verifyOtp (e : Env.t) (identifier : Identifier.t) (otpCode : string)
    : M AuthResponse.t :=
  do user <- gets (resolveUser identifier);
  match user with
  | None => throw (NotFoundError "User")
  | Some user =>
      do latestOtp <- gets (latestOtpOf user);
      match latestOtp with
      | None => throw (BadRequestError "No OTP found. Please request a new one.")
      | Some latestOtp =>
          if isOtpExpired (Env.now e) (Otp.expiresAt latestOtp) then
            throw (BadRequestError "OTP has expired. Please request a new one.")
          else if 3 <=? Otp.attempts latestOtp then
            throw (BadRequestError
                     "Too many failed attempts. Please request a new OTP.")
          else if negb (String.eqb (Otp.code latestOtp) otpCode) then
            run modify (set_otps (fun l =>
              db.update l (Otp.id latestOtp) (fun o =>
                Otp.mk (Otp.id o) (Otp.userId o) (Otp.code o) (Otp.type o)
                  (Otp.expiresAt o) (Otp.createdAt o) (Otp.verified o)
                  (Otp.attempts latestOtp + 1))));
            throw (BadRequestError "Invalid OTP")
          else
            run modify (set_otps (fun l =>
              db.update l (Otp.id latestOtp) (fun o =>
                Otp.mk (Otp.id o) (Otp.userId o) (Otp.code o) (Otp.type o)
                  (Otp.expiresAt o) (Otp.createdAt o) true (Otp.attempts o))));
            run modify (set_users (fun l =>
              db.update l (User.id user) (fun u =>
                User.mk (User.id u) (User.email u) (User.phoneNumber u)
                  (User.passwordHash u) (User.role u) true
                  (User.createdAt u) (Env.now e) (Some (Env.now e)))));
            let tokens :=
              generateTokenPair (User.id user) (User.role user) (Env.now e) in
            run createSession e (User.id user) (TokenPair.refreshToken tokens);
            do hasProvider <- hasProviderFor (User.id user);
            ret (AuthResponse.mk tokens (toAuthUser user true) hasProvider)
      end
  end.

Definition refreshToken (e : Env.t) (refreshToken : string) : M TokenPair.t :=
  match verifyRefreshToken refreshToken (Env.now e) with
  | None => throw (UnauthorizedError "Invalid refresh token")
  | Some decoded =>
      do session <- gets (fun s =>
        db.findOne (sessions s) (fun x =>
          String.eqb (Session.refreshToken x) refreshToken));
      match session with
      | None => throw (UnauthorizedError "Session not found")
      | Some session =>
          if Session.expiresAt session <? Env.now e then
            run modify (set_sessions (fun l => db.delete l (Session.id session)));
            throw (UnauthorizedError "Session expired. Please login again.")
          else
            do user <- gets (fun s =>
              db.findById (users s) (JwtPayload.userId decoded));
            match user with
            | None => throw (UnauthorizedError "User not found")
            | Some user =>
                let tokens :=
                  generateTokenPair (User.id user) (User.role user) (Env.now e) in
                run modify (set_sessions (fun l =>
                  db.update l (Session.id session) (fun x =>
                    Session.mk (Session.id x) (Session.userId x)
                      (TokenPair.refreshToken tokens) (Session.userAgent x)
                      (Session.ipAddress x) (Session.createdAt x)
                      (Env.now e + thirtyDays))));
                ret tokens
            end
      end
  end.

Definition logout (refreshToken : string) : M unit :=
  modify (set_sessions (fun l =>
    db.deleteWhere l (fun x => String.eqb (Session.refreshToken x) refreshToken))).

Definition logoutAll (userId : string) : M unit :=
  modify (set_sessions (fun l =>
    db.deleteWhere l (fun x => String.eqb (Session.userId x) userId))).

Definition getUserById (userId : string) : M (option User.t) :=
  gets (fun s => db.findById (users s) userId).

(** [db.deleteWhere] returns [initialLength - filteredRecords.length]. *)
Definition cleanupExpiredOtps (e : Env.t) : M nat :=
  do before <- gets (fun s => length (otps s));
  run modify (set_otps (fun l =>
    db.deleteWhere l (fun o => Otp.expiresAt o <? Env.now e)));
  do after <- gets (fun s => length (otps s));
  ret (before - after)%nat.

Definition cleanupExpiredSessions (e : Env.t) : M nat :=
  do before <- gets (fun s => length (sessions s));
  run modify (set_sessions (fun l =>
    db.deleteWhere l (fun x => Session.expiresAt x <? Env.now e)));
  do after <- gets (fun s => length (sessions s));
  ret (before - after)%nat.

End Service.
End AuthService.

(** One call of a public [AuthService] method that writes to the store. *)
Inductive Call : Type :=
| RegisterWithEmail (email password : string)
| LoginWithEmail (email password : string)
| SendPhoneOtp (phoneNumber : string)
| SendEmailOtp (userId email : string) (type : OtpType)
| VerifyOtp (identifier : Identifier.t) (otpCode : string)
| RefreshToken (refreshToken : string)
| Logout (refreshToken : string)
| LogoutAll (userId : string)
| CleanupExpiredOtps
| CleanupExpiredSessions.

(** The store after a call, whether it returned or threw. *)
Definition exec {config : Config} {crypto : Crypto} (e : Env.t) (c : Call) (s : Store) : Store :=
  match c with
  | RegisterWithEmail email password =>
      snd (AuthService.registerWithEmail e email password s)
  | LoginWithEmail email password =>
      snd (AuthService.loginWithEmail e email password s)
  | SendPhoneOtp phoneNumber => snd (AuthService.sendPhoneOtp e phoneNumber s)
  | SendEmailOtp userId email type =>
      snd (AuthService.sendEmailOtp e userId email type s)
  | VerifyOtp identifier otpCode =>
      snd (AuthService.verifyOtp e identifier otpCode s)
  | RefreshToken refreshToken => snd (AuthService.refreshToken e refreshToken s)
  | Logout refreshToken => snd (AuthService.logout refreshToken s)
  | LogoutAll userId => snd (AuthService.logoutAll userId s)
  | CleanupExpiredOtps => snd (AuthService.cleanupExpiredOtps e s)
  | CleanupExpiredSessions => snd (AuthService.cleanupExpiredSessions e s)
  end.

(** A history: the calls in the order they run, each with what it reads
    from its environment. *)
Fixpoint execAll {config : Config} {crypto : Crypto}
    (calls : list (Env.t * Call)) (s : Store) : Store :=
  match calls with
  | [] => s
  | (e, c) :: rest => execAll rest (exec e c s)
  end.

(** *** Vocabulary for the claims about OTPs and sessions *)

(** The OTP record that [verifyOtp] compares the submitted code with. *)
Definition selectedOtp (identifier : Identifier.t) (s : Store) : option Otp.t :=
  match AuthService.resolveUser identifier s with
  | Some user => AuthService.latestOtpOf user s
  | None => None
  end.

(** Every OTP record with id [i] that the store holds is marked verified. *)
Definition otpSpent (i : string) (s : Store) : Prop :=
  Forall (fun o => Otp.id o = i -> Otp.verified o = true) (otps s).

(** No session holds the refresh token [token]. *)
Definition tokenFree (token : string) (s : Store) : Prop :=
  Forall (fun x => Session.refreshToken x <> token) (sessions s).

(** Every user with an email address has a password hash.
    [registerWithEmail] is the one method that stores an email address,
    and it stores the bcrypt hash with it; [sendPhoneOtp] creates users
    without either; no method rewrites the two fields. *)
Definition hashedEmails (s : Store) : Prop :=
  Forall (fun u => User.email u <> None -> truthy (User.passwordHash u) = true)
    (users s).

(** No token signed at the clock reading of the call is [token]. *)
Definition mintsOther {crypto : Crypto} (token : string) (ec : Env.t * Call)
    : Prop :=
  forall (userId : string) (role : Role),
    TokenPair.refreshToken (generateTokenPair userId role (Env.now (fst ec)))
    <> token.

(** ** services/portfolio.service.ts *)

Module PortfolioService.

Definition MAX_PORTFOLIO_ITEMS : Z := 10.

Definition getProviderByUserId (userId : string) : M Provider.t :=
  do provider <- gets (fun s =>
    db.findOne (providers s) (fun p => String.eqb (Provider.userId p) userId));
  match provider with
  | None => throw (NotFoundError "Provider profile. Please create one first.")
  | Some provider => ret provider
  end.

Definition create (e : Env.t) (userId : string)
    (data : CreatePortfolioItemInput.t) : M PortfolioItem.t :=
  do provider <- getProviderByUserId userId;
  do existingCount <- gets (fun s =>
    db.count (portfolios s) (fun item =>
      String.eqb (PortfolioItem.providerId item) (Provider.id provider)));
  if MAX_PORTFOLIO_ITEMS <=? Z.of_nat existingCount then
    throw (BadRequestError
             ("Maximum " +:+ pretty MAX_PORTFOLIO_ITEMS +:+
              " portfolio items allowed"))
  else
    let item :=
      PortfolioItem.mk (Env.portfolioId e) (Provider.id provider)
        (CreatePortfolioItemInput.imgUrl data)
        (Some (or_default (CreatePortfolioItemInput.description data) ""))
        (Z.of_nat existingCount) (Env.now e) (Env.now e)
        (CreatePortfolioItemInput.title data)
        (or_null (CreatePortfolioItemInput.category data)) in
    run modify (set_portfolios (fun l => db.create l item));
    ret item.

End PortfolioService.

(** ** middleware/rateLimiter.middleware.ts *)

Module RateLimitRecord.
Record t : Type := mk { count : Z; resetTime : Z }.
End RateLimitRecord.

(** What the limiters read of a request: the [x-forwarded-for] header and
    [req.socket.remoteAddress]. *)
Module Request.
Record t : Type := mk
  { forwardedFor : option string;
    remoteAddress : option string }.
End Request.

(** A header value that the limiters compute: an integer, or [NaN] when
    the arithmetic meets [undefined].  An integer is read as such a
    value where one is expected. *)
Inductive number : Type :=
| Num (z : Z)
| NaN.

Coercion Num : Z >-> number.

(** The headers a limiter sets on the response. *)
Module RateLimitHeaders.
Record t : Type := mk
  { limit : Z;               (* X-RateLimit-Limit *)
    remaining : number;      (* X-RateLimit-Remaining *)
    reset : number;          (* X-RateLimit-Reset *)
    retryAfter : option Z    (* Retry-After, when set *) }.
End RateLimitHeaders.

(** A limiter either calls [next()] or throws. *)
Inductive Verdict : Type :=
| Next
| Throw (e : AppError.t).

(** [s.split(',')[0]] *)
Fixpoint firstSegment (s : string) : string :=
  match s with
  | EmptyString => EmptyString
  | String c rest =>
      if Ascii.eqb c "," then EmptyString else String c (firstSegment rest)
  end.

(** White space of [String.prototype.trim] among the characters a header
    value can hold (one byte per character). *)
Definition isWhiteSpace (c : ascii) : bool :=
  let n := nat_of_ascii c in
  ((9 <=? n)%nat && (n <=? 13)%nat) || (n =? 32)%nat || (n =? 160)%nat.

Fixpoint trimStart (s : string) : string :=
  match s with
  | EmptyString => EmptyString
  | String c rest => if isWhiteSpace c then trimStart rest else s
  end.

Definition trim (s : string) : string :=
  String.rev (trimStart (String.rev (trimStart s))).

Definition getClientIp (req : Request.t) : string :=
  match Request.forwardedFor req with
  | Some forwarded =>
      if negb (String.eqb forwarded "") then trim (firstSegment forwarded)
      else or_default (Request.remoteAddress req) "unknown"
  | None => or_default (Request.remoteAddress req) "unknown"
  end.

(** The record of [key] after the limiter has counted the request:
    a fresh window when there is none or it has elapsed, one more request
    in the running window otherwise. *)
Definition countRequest (store : gmap string RateLimitRecord.t) (key : string)
    (now windowMs : Z) : RateLimitRecord.t :=
  match store !! key with
  | Some record =>
      if RateLimitRecord.resetTime record <? now
      then RateLimitRecord.mk 1 (now + windowMs)
      else RateLimitRecord.mk (RateLimitRecord.count record + 1)
             (RateLimitRecord.resetTime record)
  | None => RateLimitRecord.mk 1 (now + windowMs)
  end.

(** The store is the plain object [{}] used as a map: the gmap holds its
    own properties, and [store[key]] also finds what the object inherits
    from [Object.prototype], under these names. *)
Definition objectPrototypeKeys : list string :=
  ["constructor"; "__defineGetter__"; "__defineSetter__"; "hasOwnProperty";
   "__lookupGetter__"; "__lookupSetter__"; "isPrototypeOf";
   "propertyIsEnumerable"; "toString"; "valueOf"; "__proto__";
   "toLocaleString"].

Definition inherited (key : string) : bool :=
  existsb (String.eqb key) objectPrototypeKeys.

(** For an inherited key [store[ip]] is a function, or [Object.prototype]
    itself: it is truthy and has no [resetTime], so [undefined < now] is
    false and the [else] branch runs [store[ip].count++] on that object,
    which leaves its [count] at [NaN].  The headers are computed from
    [NaN] and [undefined]; [NaN > maxRequests] is false and [next()] is
    called.  The store has no property of its own under such a name,
    since this is the only place that would write one, and gets none:
    [base.delete] says so for every map, and changes none that the
    limiters build ([ownKeys_limit] below). *)
Definition rateLimiter {config : Config} (req : Request.t) (now : Z)
    (store : gmap string RateLimitRecord.t)
    : gmap string RateLimitRecord.t * RateLimitHeaders.t * Verdict :=
  let ip := getClientIp req in
  let windowMs := rateLimit_windowMs in
  let maxRequests := rateLimit_max in
  if inherited ip then
    (base.delete ip store, RateLimitHeaders.mk maxRequests NaN NaN None, Next)
  else
  let record := countRequest store ip now windowMs in
  let store' := <[ip := record]> store in
  let headers :=
    RateLimitHeaders.mk maxRequests
      (Z.max 0 (maxRequests - RateLimitRecord.count record))
      (ceil_div (RateLimitRecord.resetTime record) 1000) None in
  if maxRequests <? RateLimitRecord.count record then
    let retryAfter := ceil_div (RateLimitRecord.resetTime record - now) 1000 in
    (store',
     RateLimitHeaders.mk (RateLimitHeaders.limit headers)
       (RateLimitHeaders.remaining headers) (RateLimitHeaders.reset headers)
       (Some retryAfter),
     Throw (RateLimitError
              ("Too many requests. Please try again in " +:+
               pretty retryAfter +:+ " seconds.")))
  else (store', headers, Next).

(** The keys of the auth limiter start with "auth:" and name no property
    of [Object.prototype]. *)

Definition authRateLimiter (req : Request.t) (now : Z)
    (store : gmap string RateLimitRecord.t)
    : gmap string RateLimitRecord.t * RateLimitHeaders.t * Verdict :=
  let ip := getClientIp req in
  let key := "auth:" +:+ ip in
  let windowMs := 15 * 60 * 1000 in
  let maxRequests := 10 in
  let record := countRequest store key now windowMs in
  let store' := <[key := record]> store in
  let headers :=
    RateLimitHeaders.mk maxRequests
      (Z.max 0 (maxRequests - RateLimitRecord.count record))
      (ceil_div (RateLimitRecord.resetTime record) 1000) None in
  if maxRequests <? RateLimitRecord.count record then
    let retryAfter := ceil_div (RateLimitRecord.resetTime record - now) 1000 in
    (store',
     RateLimitHeaders.mk (RateLimitHeaders.limit headers)
       (RateLimitHeaders.remaining headers) (RateLimitHeaders.reset headers)
       (Some retryAfter),
     Throw (RateLimitError
              ("Too many login attempts. Please try again in " +:+
               pretty (ceil_div retryAfter 60) +:+ " minutes.")))
  else (store', headers, Next).

(** The periodic sweep: [delete store[key]] for every key whose window has
    elapsed. *)
Definition cleanup (now : Z) (store : gmap string RateLimitRecord.t)
    : gmap string RateLimitRecord.t :=
  filter (fun kv => negb (RateLimitRecord.resetTime (snd kv) <? now)) store.

(** Requests to an auth endpoint, one after the other: the store after
    them and what each one got. *)
Fixpoint authRequests (reqs : list (Request.t * Z))
    (store : gmap string RateLimitRecord.t)
    : gmap string RateLimitRecord.t * list (RateLimitHeaders.t * Verdict) :=
  match reqs with
  | [] => (store, [])
  | (req, now) :: rest =>
      let '(store', headers, verdict) := authRateLimiter req now store in
      let '(store'', results) := authRequests rest store' in
      (store'', (headers, verdict) :: results)
  end.

(** Which limiter a request goes through, and the key it is counted
    under. *)
Inductive Limiter : Type := General | Auth.

Definition limiterKey (limiter : Limiter) (req : Request.t) : string :=
  match limiter with
  | General => getClientIp req
  | Auth => "auth:" +:+ getClientIp req
  end.

Definition limit {config : Config} (limiter : Limiter) (req : Request.t)
    (now : Z) (store : gmap string RateLimitRecord.t)
    : gmap string RateLimitRecord.t * RateLimitHeaders.t * Verdict :=
  match limiter with
  | General => rateLimiter req now store
  | Auth => authRateLimiter req now store
  end.

(** Requests through the two limiters, one after the other on the one
    store: the store after them and, in their order, what the requests
    counted under [key] got. *)
Fixpoint answersOn {config : Config} (key : string)
    (reqs : list (Limiter * Request.t * Z))
    (store : gmap string RateLimitRecord.t)
    : gmap string RateLimitRecord.t * list (RateLimitHeaders.t * Verdict) :=
  match reqs with
  | [] => (store, [])
  | (limiter, req, now) :: rest =>
      let '(store', headers, verdict) := limit limiter req now store in
      let '(store'', results) := answersOn key rest store' in
      (store'',
       if String.eqb (limiterKey limiter req) key
       then (headers, verdict) :: results else results)
  end.

(** ** Test doubles

    A configuration with the documented defaults and a stand-in for the
    cryptographic libraries, used to run the model on concrete stores.
    [demoCrypto] keeps what the model relies on of the real libraries:
    [comparePassword] accepts exactly the hash made for the password, a
    token names the second it was signed in and its subject, and
    [verifyRefreshToken] rejects a token it did not sign or whose
    lifetime of thirty days is over. *)

Definition demoConfig : Config :=
  {| otp_expiryMinutes := 10;
     rateLimit_windowMs := 900000;
     rateLimit_max := 100 |}.

Definition demoSign (kind userId : string) (now : Z) : string :=
  pretty (now / 1000) +:+ "." +:+ kind +:+ "." +:+ userId.

Definition demoVerify (token : string) (now : Z) : option JwtPayload.t :=
  if String.eqb token (demoSign "refresh" "u1" 1000) then
    if now / 1000 <? 1 + thirtyDays / 1000
    then Some (JwtPayload.mk "u1" PROVIDER) else None
  else if String.eqb token (demoSign "refresh" "u1" 5000) then
    if now / 1000 <? 5 + thirtyDays / 1000
    then Some (JwtPayload.mk "u1" PROVIDER) else None
  else None.

Definition demoCrypto : Crypto :=
  {| comparePassword password hash := String.eqb hash ("bcrypt$" +:+ password);
     generateTokenPair userId role now :=
       TokenPair.mk (demoSign "access" userId now) (demoSign "refresh" userId now);
     verifyRefreshToken := demoVerify |}.

Definition demoEnv (now : Z) (tag : string) : Env.t :=
  Env.mk now ("user-" +:+ tag) ("session-" +:+ tag) ("otp-" +:+ tag)
    ("item-" +:+ tag) "482913" "bcrypt$Secure123".

(** An account registered with email and password. *)
Definition alice : User.t :=
  User.mk "u1" (Some "a@b.com") None (Some "bcrypt$Secure123") PROVIDER false
    1000 1000 (Some 1000).

(** A phone account, without a password hash, that has an email address
    on record. *)
Definition bob : User.t :=
  User.mk "u2" (Some "bob@x.com") (Some "9876543210") None PROVIDER true
    1000 2000 (Some 2000).

Definition aliceSession : Session.t :=
  Session.mk "s1" "u1" (demoSign "refresh" "u1" 1000) None None
    1000 (1000 + thirtyDays).

Definition aliceOtp (attempts : Z) (verified : bool) : Otp.t :=
  Otp.mk "o1" "u1" "482913" REGISTER 601000 1000 verified attempts.

Definition emptyStore : Store := mkStore [] [] [] [] [].

Definition demoStore : Store :=
  mkStore [alice; bob] [] [] [aliceOtp 0 false] [aliceSession].

Definition byEmail (email : string) : Identifier.t :=
  Identifier.mk None (Some email).

Definition byPhone (phone : string) : Identifier.t :=
  Identifier.mk (Some phone) None.

Definition carol : Provider.t :=
  Provider.mk "p1" "u1" "Kumar Carpentry" "kumar-carpentry" CARPENTER "Pune"
    "9876543210" 7 None false true 0 1000 1000.

Definition carolItem (k : nat) : PortfolioItem.t :=
  PortfolioItem.mk ("item-" +:+ pretty k) "p1" "https://img/x.png" (Some "")
    (Z.of_nat k) 2000 2000 "Teak table" None.

Definition portfolioStore (n : nat) : Store :=
  mkStore [alice] [carol] (map carolItem (seq 0 n)) [] [].

Definition demoInput : CreatePortfolioItemInput.t :=
  CreatePortfolioItemInput.mk "Oak shelf" (Some "shelves") "https://img/y.png" None.

(** A client behind a proxy. *)
Definition demoRequest : Request.t :=
  Request.mk (Some "203.0.113.7, 10.0.0.2") (Some "10.0.0.2").

(** Stores as the service builds them: after the registration of alice,
    and after a first [sendPhoneOtp] for a phone number. *)
Definition aliceEnv : Env.t :=
  Env.mk 1000 "u1" "s1" "o1" "i1" "482913" "bcrypt$Secure123".

Definition registeredStore : Store :=
  snd (AuthService.registerWithEmail (config := demoConfig) (crypto := demoCrypto)
         aliceEnv "a@b.com" "Secure123" emptyStore).

Definition philEnv : Env.t :=
  Env.mk 2000 "u3" "s3" "o3" "i3" "135790" "bcrypt$unused".

Definition phoneStore : Store :=
  snd (AuthService.sendPhoneOtp (config := demoConfig) philEnv "9876543210"
         registeredStore).

(** The user that [sendPhoneOtp] created. *)
Definition phil : User.t :=
  User.mk "u3" None (Some "9876543210") None PROVIDER false 2000 2000 None.

(** * Further vocabulary and code

    The rest of this part embeds code that the properties of the second
    half of the file are about: the remaining methods of the services,
    the validation and error middleware and the display helpers. *)

From Stdlib Require Sorted.

(** ** Well-formed stores *)

(** Records are keyed by their ids: no two users, no two OTPs and no two
    sessions share one. *)
Definition wellKeyed (s : Store) : Prop :=
  List.NoDup (map User.id (users s)) /\
  List.NoDup (map Otp.id (otps s)) /\
  List.NoDup (map Session.id (sessions s)).

(** The ids that [generateId] hands to a call are not in use. *)
Definition freshIds (e : Env.t) (s : Store) : Prop :=
  ~ In (Env.userId e) (map User.id (users s)) /\
  ~ In (Env.otpId e) (map Otp.id (otps s)) /\
  ~ In (Env.sessionId e) (map Session.id (sessions s)).

(** The email addresses, and the phone numbers, that the users have. *)
Definition emailsOf (l : list User.t) : list string :=
  flat_map (fun u => match User.email u with Some x => [x] | None => [] end) l.

Definition phonesOf (l : list User.t) : list string :=
  flat_map (fun u => match User.phoneNumber u with Some x => [x] | None => [] end) l.

(** No two users share an email address or a phone number. *)
Definition uniqueContacts (s : Store) : Prop :=
  List.NoDup (emailsOf (users s)) /\ List.NoDup (phonesOf (users s)).

(** What identifies an account: these fields are written when the user is
    created. *)
Definition credentials (u : User.t)
    : string * option string * option string * option string * Role :=
  (User.id u, User.email u, User.phoneNumber u, User.passwordHash u, User.role u).

(** [record] with its attempt counter set to [attempts]. *)
Definition withAttempts (attempts : Z) (o : Otp.t) : Otp.t :=
  Otp.mk (Otp.id o) (Otp.userId o) (Otp.code o) (Otp.type o)
    (Otp.expiresAt o) (Otp.createdAt o) (Otp.verified o) attempts.

(** Submissions of codes for [identifier], one after the other, each
    with what its call reads from the environment. *)
Definition submissions (identifier : Identifier.t) (attempts : list (Env.t * string))
    : list (Env.t * Call) :=
  map (fun a => (fst a, VerifyOtp identifier (snd a))) attempts.

(** ** middleware/rateLimiter.middleware.ts: runs of the general limiter *)

(** Requests through the general limiter, one after the other: the store
    after them and what each one got. *)
Fixpoint generalRequests {config : Config} (reqs : list (Request.t * Z))
    (store : gmap string RateLimitRecord.t)
    : gmap string RateLimitRecord.t * list (RateLimitHeaders.t * Verdict) :=
  match reqs with
  | [] => (store, [])
  | (req, now) :: rest =>
      let '(store', headers, verdict) := rateLimiter req now store in
      let '(store'', results) := generalRequests rest store' in
      (store'', (headers, verdict) :: results)
  end.

(** A request whose forwarded-for header is the auth key of another
    client. *)
Definition spoofedRequest : Request.t :=
  Request.mk (Some "auth:203.0.113.7") (Some "198.51.100.9").

(** ** middleware/validate.middleware.ts *)

(** An issue of a [ZodError]: the path of the field, its segments as
    strings, and the message. *)
Module ZodIssue.
Record t : Type := mk { path : list string; message : string }.
End ZodIssue.

(** [parts.join('.')] *)
Fixpoint join (parts : list string) : string :=
  match parts with
  | [] => ""
  | [x] => x
  | x :: rest => x +:+ "." +:+ join rest
  end.

(** One round of the [forEach] of [validate]: the path without its first
    segment ([body], [query] or [params]) is the key; the array of the key
    is created when there is none, and the message is pushed on it.  (The
    object starts as [{}]; the keys are names of schema fields and none
    names a property of [Object.prototype].) *)
Definition collectIssue (errors : gmap string (list string)) (err : ZodIssue.t)
    : gmap string (list string) :=
  let path := join (tail (ZodIssue.path err)) in
  <[path := (default [] (errors !! path) ++ [ZodIssue.message err])%list]> errors.

Definition fieldErrors (issues : list ZodIssue.t) : gmap string (list string) :=
  fold_left collectIssue issues ∅.

(** ** What a handler can throw, and middleware/error.middleware.ts

    The services, the limiters and [validate] throw instances of the
    classes of [errors/AppError.ts].  [error.middleware.ts] declares
    classes [AppError] and [ValidationError] of its own and tests
    [instanceof] against those. *)
Module Thrown.
Inductive t : Type :=
| App (e : AppError.t)
    (* an instance of a class of errors/AppError.ts; its name is "Error" *)
| Validation (errors : gmap string (list string))
    (* the ValidationError of errors/AppError.ts *)
| MiddlewareApp (e : AppError.t) (errors : option (gmap string (list string)))
    (* an instance of the AppError of error.middleware.ts, with [errors]
       when it is its ValidationError *)
| Other (name message : string) (issues : option (list ZodIssue.t)).
    (* any other Error, by its name and message; [err.errors] of a ZodError *)

Definition name (err : t) : string :=
  match err with
  | Other name _ _ => name
  | _ => "Error"
  end.

Definition message (err : t) : string :=
  match err with
  | App e => AppError.message e
  | Validation _ => "Validation failed"
  | MiddlewareApp e _ => AppError.message e
  | Other _ message _ => message
  end.
End Thrown.

(** [new ValidationError(errors)] of errors/AppError.ts, as an [AppError]. *)
Definition ValidationError : AppError.t :=
  AppError.mk "Validation failed" 422 "VALIDATION_ERROR" true.

(** What [schema.parseAsync] did. *)
Inductive ParseOutcome : Type :=
| Parsed
| ZodFailure (issues : list ZodIssue.t)
| Failure (err : Thrown.t).

(** [validate(schema)]: what is handed to [next]; [None] is [next()]. *)
Definition validate (outcome : ParseOutcome) : option Thrown.t :=
  match outcome with
  | Parsed => None
  | ZodFailure issues => Some (Thrown.Validation (fieldErrors issues))
  | Failure err => Some err
  end.

(** [config.nodeEnv] and the flags derived from it. *)
Class Runtime : Type := { nodeEnv : string }.

Definition isProd {runtime : Runtime} : bool := String.eqb nodeEnv "production".
Definition isDev {runtime : Runtime} : bool := String.eqb nodeEnv "development".

(** The payload under [error.errors] of a response. *)
Inductive ErrorDetails : Type :=
| FieldErrors (errors : gmap string (list string))
| Issues (issues : option (list ZodIssue.t)).

(** The response of [errorMiddleware]: the status and the [error] object
    of the body; [stack] tells whether the stack trace is in it. *)
Module ErrorBody.
Record t : Type := mk
  { status : Z;
    code : string;
    message : string;
    errors : option ErrorDetails;
    stack : bool }.
End ErrorBody.

Definition errorMiddleware {runtime : Runtime} (err : Thrown.t) : ErrorBody.t :=
  match err with
  | Thrown.MiddlewareApp e errors =>
      ErrorBody.mk (AppError.statusCode e) (AppError.code e) (AppError.message e)
        (option_map FieldErrors errors) false
  | _ =>
      if String.eqb (Thrown.name err) "JsonWebTokenError" then
        ErrorBody.mk 401 "INVALID_TOKEN" "Invalid authentication token" None false
      else if String.eqb (Thrown.name err) "TokenExpiredError" then
        ErrorBody.mk 401 "TOKEN_EXPIRED" "Authentication token has expired" None false
      else if String.eqb (Thrown.name err) "ZodError" then
        ErrorBody.mk 422 "VALIDATION_ERROR" "Validation failed"
          (Some (Issues match err with Thrown.Other _ _ issues => issues | _ => None end))
          false
      else
        ErrorBody.mk 500 "INTERNAL_ERROR"
          (if isProd then "An unexpected error occurred" else Thrown.message err)
          None isDev
  end.

Definition productionRuntime : Runtime := {| nodeEnv := "production" |}.
Definition developmentRuntime : Runtime := {| nodeEnv := "development" |}.

(** ** services/portfolio.service.ts: the other methods *)

Definition withDisplayOrder (displayOrder : Z) (item : PortfolioItem.t)
    : PortfolioItem.t :=
  PortfolioItem.mk (PortfolioItem.id item) (PortfolioItem.providerId item)
    (PortfolioItem.imageUrl item) (PortfolioItem.description item)
    displayOrder (PortfolioItem.createdAt item) (PortfolioItem.updatedAt item)
    (PortfolioItem.title item) (PortfolioItem.category item).

Module PortfolioMethods.

(** [(a, b) => a.displayOrder - b.displayOrder] *)
Definition byDisplayOrder (a b : PortfolioItem.t) : Z :=
  PortfolioItem.displayOrder a - PortfolioItem.displayOrder b.

Definition getByProviderId (providerId : string) : M (list PortfolioItem.t) :=
  do items <- gets (fun s =>
    db.findWhere (portfolios s) (fun item =>
      String.eqb (PortfolioItem.providerId item) providerId));
  ret (sort byDisplayOrder items).

Definition getMyPortfolio (userId : string) : M (list PortfolioItem.t) :=
  do provider <- PortfolioService.getProviderByUserId userId;
  do items <- gets (fun s =>
    db.findWhere (portfolios s) (fun item =>
      String.eqb (PortfolioItem.providerId item) (Provider.id provider)));
  ret (sort byDisplayOrder items).

(** The loop of [delete] from index [i] on:
    [if (remaining[i].displayOrder !== i) await db.update(..., { displayOrder: i })]. *)
Fixpoint renumber (remaining : list PortfolioItem.t) (i : Z) : M unit :=
  match remaining with
  | [] => ret tt
  | item :: rest =>
      run (if negb (PortfolioItem.displayOrder item =? i) then
             modify (set_portfolios (fun l =>
               db.update l (PortfolioItem.id item) (withDisplayOrder i)))
           else ret tt);
      renumber rest (i + 1)
  end.

Definition delete (userId itemId : string) : M unit :=
  do provider <- PortfolioService.getProviderByUserId userId;
  do item <- gets (fun s => db.findById (portfolios s) itemId);
  match item with
  | None => throw (NotFoundError "Portfolio item")
  | Some item =>
      if negb (String.eqb (PortfolioItem.providerId item) (Provider.id provider)) then
        throw (ForbiddenError "You can only delete your own portfolio items")
      else
        run modify (set_portfolios (fun l => db.delete l itemId));
        do remaining <- gets (fun s =>
          db.findWhere (portfolios s) (fun i =>
            String.eqb (PortfolioItem.providerId i) (Provider.id provider)));
        renumber (sort byDisplayOrder remaining) 0
  end.

(** The loop of [reorder] over [items], each an id and a display order. *)
Fixpoint reorderEach (provider : Provider.t) (items : list (string * Z)) : M unit :=
  match items with
  | [] => ret tt
  | (itemId, displayOrder) :: rest =>
      do existing <- gets (fun s => db.findById (portfolios s) itemId);
      match existing with
      | None => throw (NotFoundError ("Portfolio item " +:+ itemId))
      | Some existing =>
          if negb (String.eqb (PortfolioItem.providerId existing)
                     (Provider.id provider)) then
            throw (ForbiddenError "You can only reorder your own portfolio items")
          else
            run modify (set_portfolios (fun l =>
              db.update l itemId (withDisplayOrder displayOrder)));
            reorderEach provider rest
      end
  end.

Definition reorder (userId : string) (items : list (string * Z))
    : M (list PortfolioItem.t) :=
  do provider <- PortfolioService.getProviderByUserId userId;
  run reorderEach provider items;
  getMyPortfolio userId.

End PortfolioMethods.

(** The display orders that [items] ask for, written one after the
    other. *)
Definition writeOrders (items : list (string * Z)) (l : list PortfolioItem.t)
    : list PortfolioItem.t :=
  fold_left (fun l item => db.update l (fst item) (withDisplayOrder (snd item)))
    items l.



(** The record [r] once the display orders that [items] ask for are
    written: of several requests for one id the last one stays. *)
Definition reorderedAs (items : list (string * Z)) (r : PortfolioItem.t)
    : PortfolioItem.t :=
  fold_left (fun r item =>
               if String.eqb (PortfolioItem.id r) (fst item) then
                 withDisplayOrder (snd item) r
               else r) items r.

(** ** utils/slug.ts *)

(** [generateSlug] works with regular expressions on the business name;
    it is a parameter [generateSlug] of what uses it. *)

(** [`${baseSlug}-${n}`] *)
Definition suffixed (baseSlug : string) (n : Z) : string :=
  baseSlug +:+ "-" +:+ pretty n.

(** The [while (true)] loop of [generateUniqueSlug], about to look up
    [slug] with the counter at [counter].  [fuel] bounds the iterations;
    [None] is a loop that has not finished within them. *)
Fixpoint uniqueSlugLoop (fuel : nat) (now : Z) (baseSlug slug : string)
    (counter : Z) (records : list Provider.t) : option string :=
  match fuel with
  | O => None
  | S fuel =>
      match db.findOne records (fun p => String.eqb (Provider.slug p) slug) with
      | None => Some slug
      | Some _ =>
          let slug := suffixed baseSlug counter in
          let counter := counter + 1 in
          if counter >? 100 then Some (suffixed baseSlug now)
          else uniqueSlugLoop fuel now baseSlug slug counter records
      end
  end.

Definition generateUniqueSlug (fuel : nat) (generateSlug : string -> string)
    (now : Z) (businessName : string) : M (option string) :=
  let baseSlug := generateSlug businessName in
  gets (fun s => uniqueSlugLoop fuel now baseSlug baseSlug 1 (providers s)).

(** The slugs that the loop tries, in this order. *)
Definition slugCandidates (baseSlug : string) : list string :=
  baseSlug :: map (fun n => suffixed baseSlug (Z.of_nat n)) (seq 1 99).

(** ** services/provider.service.ts *)

Definition set_providers (f : list Provider.t -> list Provider.t) (s : Store)
    : Store :=
  mkStore (users s) (f (providers s)) (portfolios s) (otps s) (sessions s).

(** [{ profileViews }] *)
Definition withProfileViews (profileViews : Z) (p : Provider.t) : Provider.t :=
  Provider.mk (Provider.id p) (Provider.userId p) (Provider.businessName p)
    (Provider.slug p) (Provider.serviceType p) (Provider.city p)
    (Provider.whatsappNumber p) (Provider.experienceYears p)
    (Provider.description p) (Provider.isVerified p) (Provider.isActive p)
    profileViews (Provider.createdAt p) (Provider.updatedAt p).

(** [{ isActive, updatedAt }] *)
Definition withActive (isActive : bool) (updatedAt : Z) (p : Provider.t)
    : Provider.t :=
  Provider.mk (Provider.id p) (Provider.userId p) (Provider.businessName p)
    (Provider.slug p) (Provider.serviceType p) (Provider.city p)
    (Provider.whatsappNumber p) (Provider.experienceYears p)
    (Provider.description p) (Provider.isVerified p) isActive
    (Provider.profileViews p) (Provider.createdAt p) updatedAt.

(** [Provider & { portfolioItems: PortfolioItem[] }] *)
Module ProviderWithPortfolio.
Record t : Type := mk
  { provider : Provider.t;
    portfolioItems : list PortfolioItem.t }.
End ProviderWithPortfolio.

Module CreateProviderInput.
Record t : Type := mk
  { businessName : string;
    serviceType : ServiceType;
    city : string;
    whatsappNumber : string;
    experienceYears : option Z;
    description : option string }.
End CreateProviderInput.

Module ProviderService.

Definition getBySlug (slug : string) (viewerId : option string)
    : M ProviderWithPortfolio.t :=
  do provider <- gets (fun s =>
    db.findOne (providers s) (fun p =>
      String.eqb (Provider.slug p) slug && Provider.isActive p));
  match provider with
  | None => throw (NotFoundError "Provider")
  | Some provider =>
      do portfolioItems <- gets (fun s =>
        db.findWhere (portfolios s) (fun item =>
          String.eqb (PortfolioItem.providerId item) (Provider.id provider)));
      let portfolioItems := sort PortfolioMethods.byDisplayOrder portfolioItems in
      run (if negb (strict_eqb (Some (Provider.userId provider)) viewerId) then
             modify (set_providers (fun l =>
               db.update l (Provider.id provider)
                 (withProfileViews (Provider.profileViews provider + 1))))
           else ret tt);
      ret (ProviderWithPortfolio.mk provider portfolioItems)
  end.

Definition getByUserId (userId : string) : M ProviderWithPortfolio.t :=
  do provider <- gets (fun s =>
    db.findOne (providers s) (fun p => String.eqb (Provider.userId p) userId));
  match provider with
  | None => throw (NotFoundError "Provider profile")
  | Some provider =>
      do portfolioItems <- gets (fun s =>
        db.findWhere (portfolios s) (fun item =>
          String.eqb (PortfolioItem.providerId item) (Provider.id provider)));
      ret (ProviderWithPortfolio.mk provider
             (sort PortfolioMethods.byDisplayOrder portfolioItems))
  end.

(** [newId] is what [generateId()] returns.  A slug loop that has not
    finished creates nothing: the result is [None]. *)
Definition create (fuel : nat) (generateSlug : string -> string) (now : Z)
    (newId userId : string) (data : CreateProviderInput.t)
    : M (option Provider.t) :=
  do existing <- gets (fun s =>
    db.findOne (providers s) (fun p => String.eqb (Provider.userId p) userId));
  if isSome existing then
    throw (ConflictError "Provider profile already exists")
  else
    do slug <- generateUniqueSlug fuel generateSlug now
                 (CreateProviderInput.businessName data);
    match slug with
    | None => ret None
    | Some slug =>
        let provider :=
          Provider.mk newId userId (CreateProviderInput.businessName data) slug
            (CreateProviderInput.serviceType data)
            (CreateProviderInput.city data)
            (CreateProviderInput.whatsappNumber data)
            (default 0 (CreateProviderInput.experienceYears data))
            (or_null (CreateProviderInput.description data))
            false true 0 now now in
        run modify (set_providers (fun l => db.create l provider));
        ret (Some provider)
    end.

Definition delete (userId : string) : M unit :=
  do provider <- gets (fun s =>
    db.findOne (providers s) (fun p => String.eqb (Provider.userId p) userId));
  match provider with
  | None => throw (NotFoundError "Provider profile")
  | Some provider =>
      run modify (set_portfolios (fun l =>
        db.deleteWhere l (fun item =>
          String.eqb (PortfolioItem.providerId item) (Provider.id provider))));
      modify (set_providers (fun l => db.delete l (Provider.id provider)))
  end.

(** [db.update] returns [records[index]], the first record with the id;
    [updated!] passes it on as it is. *)
Definition toggleActive (now : Z) (userId : string) : M (option Provider.t) :=
  do provider <- gets (fun s =>
    db.findOne (providers s) (fun p => String.eqb (Provider.userId p) userId));
  match provider with
  | None => throw (NotFoundError "Provider profile")
  | Some provider =>
      run modify (set_providers (fun l =>
        db.update l (Provider.id provider)
          (withActive (negb (Provider.isActive provider)) now)));
      gets (fun s => db.findById (providers s) (Provider.id provider))
  end.

End ProviderService.

(** [n] views of the profile [slug] by [viewerId], one after the other,
    and what each returned. *)
Fixpoint views (n : nat) (slug : string) (viewerId : option string)
    : M (list ProviderWithPortfolio.t) :=
  match n with
  | O => ret []
  | S n =>
      do first <- ProviderService.getBySlug slug viewerId;
      do others <- views n slug viewerId;
      ret (first :: others)
  end.

(** A second provider next to [carol], and a store with both. *)
Definition dave : Provider.t :=
  Provider.mk "p2" "u2" "Dave Decor" "dave-decor" HOME_DECOR "Mumbai"
    "9123456780" 3 (Some "Curtains") false true 41 1000 1000.

Definition marketStore : Store :=
  mkStore [alice; bob] [carol; dave]
    [PortfolioItem.mk "a" "p1" "https://img/a.png" None 1 1 1 "A" None;
     PortfolioItem.mk "z" "p2" "https://img/z.png" None 0 1 1 "Z" None;
     PortfolioItem.mk "b" "p1" "https://img/b.png" None 0 1 1 "B" None]
    [] [aliceSession].

(** ** utils/otp.ts: masking *)

(** A JavaScript string as the list of its code units. *)
Definition chars : Type := list ascii.

(** [s.split(sep)] for a separator of one character. *)
Fixpoint split (sep : ascii) (s : chars) : list chars :=
  match s with
  | [] => [[]]
  | c :: rest =>
      if Ascii.eqb c sep then [] :: split sep rest
      else match split sep rest with
           | part :: parts => (c :: part) :: parts
           | [] => [[c]]
           end
  end.

(** [`${x}`] for a value that may be [undefined]. *)
Definition interpolate (x : option chars) : chars :=
  default (list_ascii_of_string "undefined") x.

(** [s[i]] *)
Definition charAt (s : chars) (i : nat) : option chars :=
  option_map (fun c => [c]) (nth_error s i).

Definition maskEmail (email : chars) : chars :=
  let parts := split "@"%char email in
  let localPart := default [] (nth_error parts 0) in
  let domain := nth_error parts 1 in
  if (length localPart <=? 2)%nat then
    (interpolate (charAt localPart 0) ++ list_ascii_of_string "***@" ++
     interpolate domain)%list
  else
    (interpolate (charAt localPart 0) ++
     repeat "*"%char (length localPart - 2) ++
     interpolate (charAt localPart (length localPart - 1)) ++
     ["@"%char] ++ interpolate domain)%list.

(** [phone.slice(0, 2)] is [firstn 2], [phone.slice(-2)] is
    [skipn (length - 2)]. *)
Definition maskPhone (phone : chars) : chars :=
  if (length phone <=? 4)%nat then phone
  else
    (firstn 2 phone ++ repeat "*"%char (length phone - 4) ++
     skipn (length phone - 2) phone)%list.

(** A portfolio with gaps and a tie in its display orders, and an item
    of another provider. *)
Definition gappyStore : Store :=
  mkStore [alice] [carol]
    [PortfolioItem.mk "a" "p1" "https://img/a.png" None 5 1 1 "A" None;
     PortfolioItem.mk "b" "p1" "https://img/b.png" None 2 1 1 "B" None;
     PortfolioItem.mk "z" "p9" "https://img/z.png" None 0 1 1 "Z" None;
     PortfolioItem.mk "c" "p1" "https://img/c.png" None 2 1 1 "C" None;
     PortfolioItem.mk "d" "p1" "https://img/d.png" None 9 1 1 "D" None]
    [] [].

(** * Properties *)

(** ** The record store *)

Section DbFacts.
Context {T : Type} `{HasId T}.

Lemma update_nil (i : string) (f : T -> T) : db.update [] i f = [].
Proof. reflexivity. Qed.

Lemma update_cons (r : T) (l : list T) (i : string) (f : T -> T) :
  db.update (r :: l) i f =
  if String.eqb (rid r) i then f r :: l else r :: db.update l i f.
Proof.
  unfold db.update. simpl.
  destruct (String.eqb (rid r) i); [reflexivity|].
  destruct (db.findIndex _ l) as [n|]; simpl; [|reflexivity].
  destruct (l !! n); reflexivity.
Qed.

Lemma delete_cons (r : T) (l : list T) (i : string) :
  db.delete (r :: l) i =
  if String.eqb (rid r) i then l else r :: db.delete l i.
Proof.
  unfold db.delete. simpl.
  destruct (String.eqb (rid r) i); [reflexivity|].
  destruct (db.findIndex _ l) as [n|]; reflexivity.
Qed.

(** An update keeps a property of the records that the overwrite keeps. *)
Lemma update_Forall (P : T -> Prop) (l : list T) (i : string) (f : T -> T) :
  (forall r, P r -> P (f r)) -> Forall P l -> Forall P (db.update l i f).
Proof.
  intros Hf. induction 1 as [|r l Hr Hl IH]; [constructor|].
  rewrite update_cons. destruct (String.eqb (rid r) i); constructor; auto.
Qed.

Lemma update_map_fixed {B : Type} (g : T -> B) (l : list T) (i : string)
    (f : T -> T) :
  (forall r, g (f r) = g r) -> map g (db.update l i f) = map g l.
Proof.
  intros Hf. induction l as [|r l IH]; [reflexivity|].
  rewrite update_cons. destruct (String.eqb (rid r) i); simpl; congruence.
Qed.

Lemma delete_incl (l : list T) (i : string) : incl (db.delete l i) l.
Proof.
  induction l as [|r l IH]; [apply incl_refl|].
  rewrite delete_cons. destruct (String.eqb (rid r) i).
  - apply incl_tl, incl_refl.
  - apply incl_cons; [left; reflexivity|]. apply incl_tl, IH.
Qed.

Lemma deleteWhere_incl (l : list T) (p : T -> bool) : incl (db.deleteWhere l p) l.
Proof. intros r Hr. apply filter_In in Hr. tauto. Qed.

(** With unique ids, deleting by id removes exactly the records with it. *)
Lemma delete_unique (l : list T) (i : string) :
  List.NoDup (map rid l) ->
  db.delete l i = List.filter (fun r => negb (String.eqb (rid r) i)) l.
Proof.
  induction l as [|r l IH]; intros Hnd; [reflexivity|].
  rewrite delete_cons. simpl. inversion Hnd as [|? ? Hnotin Hnd']; subst.
  destruct (String.eqb (rid r) i) eqn:E; simpl.
  - apply String.eqb_eq in E. subst i.
    symmetry. apply forallb_filter_id. apply forallb_forall. intros x Hx.
    apply negb_true_iff, String.eqb_neq. intros Heq.
    apply Hnotin. rewrite <- Heq. apply in_map, Hx.
  - f_equal. auto.
Qed.

End DbFacts.

(** ** Sorting *)

Lemma sort_insert_In {T : Type} (cmp : T -> T -> Z) (x y : T) (l : list T) :
  In y (sort_insert cmp x l) <-> y = x \/ In y l.
Proof.
  induction l as [|z l IH]; simpl; [intuition congruence|].
  destruct (cmp x z <=? 0); simpl; [intuition congruence|].
  rewrite IH. intuition congruence.
Qed.

Lemma sort_In {T : Type} (cmp : T -> T -> Z) (y : T) (l : list T) :
  In y (sort cmp l) <-> In y l.
Proof.
  induction l as [|x l IH]; simpl; [tauto|].
  rewrite sort_insert_In, IH. intuition congruence.
Qed.

Lemma head_In {T : Type} (l : list T) (x : T) : head l = Some x -> In x l.
Proof. destruct l; simpl; [discriminate|]. intros [= ->]. now left. Qed.

(** ** utils/otp.ts *)

(** C8.  [isOtpExpired(expiry)] is true exactly when the clock reading is
    strictly greater than the expiry timestamp: it is false for every
    reading at or before the expiry, in particular one second before it,
    and true for every reading after it, in particular one second after
    it. *)
Theorem isOtpExpired_strict (now expiry : Z) :
  (isOtpExpired now expiry = true <-> now > expiry) /\
  (isOtpExpired now expiry = false <-> now <= expiry) /\
  isOtpExpired expiry expiry = false /\
  isOtpExpired (expiry - 1000) expiry = false /\
  isOtpExpired (expiry + 1000) expiry = true.
Proof.
  unfold isOtpExpired.
  rewrite Z.ltb_lt, Z.ltb_ge, Z.ltb_irrefl.
  repeat split; lia.
Qed.

(** ** AuthService.loginWithEmail *)

Ltac unfold_M :=
  unfold bind, gets, modify, throw, ret in *.

Ltac store_simpl :=
  cbn [fst snd users providers portfolios otps sessions
       set_users set_portfolios set_otps set_sessions] in *.

Ltac run_call :=
  unfold exec,
    AuthService.registerWithEmail, AuthService.loginWithEmail,
    AuthService.sendPhoneOtp, AuthService.sendEmailOtp, AuthService.verifyOtp,
    AuthService.refreshToken, AuthService.logout, AuthService.logoutAll,
    AuthService.cleanupExpiredOtps, AuthService.cleanupExpiredSessions,
    AuthService.createSession, AuthService.hasProviderFor;
  unfold_M; store_simpl;
  repeat (case_match; store_simpl; simplify_eq; store_simpl).

(** What a call of [loginWithEmail] does, case by case. *)
Lemma loginWithEmail_cases {crypto : Crypto} (e : Env.t)
    (email password : string) (s : Store) :
  let found := db.findOne (users s) (fun u => opt_eqb (User.email u) email) in
  match found with
  | None =>
      AuthService.loginWithEmail e email password s =
      (Err (UnauthorizedError "Invalid email or password"), s)
  | Some user =>
      if truthy (User.passwordHash user) then
        if comparePassword password (or_default (User.passwordHash user) "") then
          exists resp s', AuthService.loginWithEmail e email password s = (Ok resp, s')
        else
          AuthService.loginWithEmail e email password s =
          (Err (UnauthorizedError "Invalid email or password"), s)
      else
        AuthService.loginWithEmail e email password s =
        (Err (UnauthorizedError "Please login with phone OTP"), s)
  end.
Proof.
  intros found. unfold AuthService.loginWithEmail, AuthService.createSession,
    AuthService.hasProviderFor. unfold_M. fold found.
  destruct found as [user|]; [|reflexivity].
  destruct (User.passwordHash user) as [hash|]; simpl; [|reflexivity].
  destruct (String.eqb hash ""); simpl; [reflexivity|].
  destruct (comparePassword password hash); simpl; eauto.
Qed.

(** Every call of [AuthService] keeps [hashedEmails], bcrypt hashes
    being what they are: not empty. *)
Lemma hashedEmails_exec {config : Config} {crypto : Crypto} (e : Env.t)
    (c : Call) (s : Store) :
  Env.passwordHash e <> "" -> hashedEmails s -> hashedEmails (exec e c s).
Proof.
  intros Hhash Hs. unfold hashedEmails in *.
  assert (Hupd : forall i (f : User.t -> User.t),
    (forall u, User.email (f u) = User.email u /\
               User.passwordHash (f u) = User.passwordHash u) ->
    Forall (fun u => User.email u <> None -> truthy (User.passwordHash u) = true)
      (db.update (users s) i f)).
  { intros i f Hf. apply (update_Forall (H := User_HasId)); [|exact Hs].
    intros u Hu. destruct (Hf u) as [-> ->]. exact Hu. }
  assert (Hnew : forall u : User.t,
    (User.email u <> None -> truthy (User.passwordHash u) = true) ->
    Forall (fun u => User.email u <> None -> truthy (User.passwordHash u) = true)
      (db.create (users s) u)).
  { intros u Hu. unfold db.create. apply Forall_app. split; [exact Hs|].
    constructor; [exact Hu | constructor]. }
  destruct c; run_call; try assumption.
  all: try (apply Hupd; intros u; split; reflexivity).
  all: apply Hnew; simpl.
  - intros _. apply negb_true_iff, String.eqb_neq. exact Hhash.
  - intros Habs. now contradiction Habs.
Qed.

Lemma hashedEmails_execAll {config : Config} {crypto : Crypto}
    (calls : list (Env.t * Call)) (s : Store) :
  Forall (fun ec => Env.passwordHash (fst ec) <> "") calls ->
  hashedEmails s -> hashedEmails (execAll calls s).
Proof.
  revert s. induction calls as [|[e c] calls IH]; intros s Hall Hs; simpl.
  - exact Hs.
  - apply IH; [exact (Forall_inv_tail Hall)|].
    apply hashedEmails_exec; [exact (Forall_inv Hall) | exact Hs].
Qed.

(** C1.  On every store that the service builds, from the empty store or
    from one in which every user with an email address has a password
    hash, by whatever calls of its methods, a failed [loginWithEmail]
    throws an Unauthorized (401) error with the message "Invalid email or
    password" and leaves the store as it was, and it fails in exactly two
    cases: no user has the email, or the password does not match the
    stored hash.  The third case of the specification, a user found by
    the email who has no password hash, does not occur on such a store:
    the guard for it, which has a message of its own, is never
    reached. *)
Theorem loginWithEmail_failure {config : Config} {crypto : Crypto}
    (s0 : Store) (calls : list (Env.t * Call)) (e : Env.t)
    (email password : string) :
  hashedEmails s0 ->
  Forall (fun ec => Env.passwordHash (fst ec) <> "") calls ->
  let s := execAll calls s0 in
  let found := db.findOne (users s) (fun u => opt_eqb (User.email u) email) in
  (forall err s',
     AuthService.loginWithEmail e email password s = (Err err, s') ->
     err = UnauthorizedError "Invalid email or password" /\
     AppError.statusCode err = 401 /\
     s' = s) /\
  ((exists err s', AuthService.loginWithEmail e email password s = (Err err, s')) <->
   found = None \/
   exists user hash,
     found = Some user /\ User.passwordHash user = Some hash /\
     comparePassword password hash = false) /\
  (forall user, found = Some user -> truthy (User.passwordHash user) = true).
Proof.
  intros Hs0 Hcalls s found.
  assert (Hinv : hashedEmails s) by now apply hashedEmails_execAll.
  assert (Hhashed : forall user, found = Some user ->
                    truthy (User.passwordHash user) = true).
  { intros user Hfound. apply find_some in Hfound as [Hin Hemail].
    unfold hashedEmails in Hinv. rewrite List.Forall_forall in Hinv.
    apply (Hinv user Hin). intros Hnone. rewrite Hnone in Hemail. discriminate. }
  pose proof (loginWithEmail_cases e email password s) as Hcases.
  cbv zeta in Hcases. fold found in Hcases.
  clearbody found. clear Hinv. clearbody s.
  split; [|split; [|exact Hhashed]].
  - intros err s' Hrun. destruct found as [user|].
    + rewrite (Hhashed user eq_refl) in Hcases.
      destruct (comparePassword password _).
      * destruct Hcases as (resp & s1 & Hok). congruence.
      * rewrite Hcases in Hrun. injection Hrun as <- <-. auto.
    + rewrite Hcases in Hrun. injection Hrun as <- <-. auto.
  - split.
    + intros (err & s' & Hrun). destruct found as [user|]; [|now left].
      right. pose proof (Hhashed user eq_refl) as Htruthy.
      rewrite Htruthy in Hcases.
      destruct (User.passwordHash user) as [hash|] eqn:Hhash; [|discriminate].
      exists user, hash. split; [reflexivity|]. split; [exact Hhash|].
      simpl in Htruthy, Hcases. apply negb_true_iff in Htruthy.
      rewrite Htruthy in Hcases.
      destruct (comparePassword password hash); [|reflexivity].
      destruct Hcases as (resp & s1 & Hok). congruence.
    + intros [Hnone | (user & hash & Hfound & Hhash & Hcmp)].
      * rewrite Hnone in Hcases. eauto.
      * rewrite Hfound in Hcases. pose proof (Hhashed user Hfound) as Htruthy.
        rewrite Htruthy in Hcases. rewrite Hhash in Hcases, Htruthy.
        simpl in Htruthy, Hcases. apply negb_true_iff in Htruthy.
        rewrite Htruthy, Hcmp in Hcases. eauto.
Qed.

Lemma loginWithEmail_failure_witness :
  let s := execAll (config := demoConfig) (crypto := demoCrypto)
             [(aliceEnv, RegisterWithEmail "a@b.com" "Secure123");
              (philEnv, SendPhoneOtp "9876543210")] emptyStore in
  users s = [alice; phil] /\
  (forall err s',
     AuthService.loginWithEmail (crypto := demoCrypto) (demoEnv 5000 "x")
       "a@b.com" "wrongpass" s = (Err err, s') ->
     err = UnauthorizedError "Invalid email or password" /\
     AppError.statusCode err = 401 /\ s' = s) /\
  (exists err s',
     AuthService.loginWithEmail (crypto := demoCrypto) (demoEnv 5000 "x")
       "a@b.com" "wrongpass" s = (Err err, s')) /\
  (exists err s',
     AuthService.loginWithEmail (crypto := demoCrypto) (demoEnv 5000 "x")
       "nonexistent@x.com" "whatever" s = (Err err, s')).
Proof.
  intros s.
  assert (Hempty : hashedEmails emptyStore) by constructor.
  assert (Hhashes : Forall (fun ec : Env.t * Call => Env.passwordHash (fst ec) <> "")
            [(aliceEnv, RegisterWithEmail "a@b.com" "Secure123");
             (philEnv, SendPhoneOtp "9876543210")])
    by (repeat constructor; discriminate).
  pose proof (fun email password =>
    loginWithEmail_failure (config := demoConfig) (crypto := demoCrypto)
      emptyStore
      [(aliceEnv, RegisterWithEmail "a@b.com" "Secure123");
       (philEnv, SendPhoneOtp "9876543210")]
      (demoEnv 5000 "x") email password Hempty Hhashes) as H.
  split; [reflexivity|]. split; [|split].
  - exact (proj1 (H "a@b.com" "wrongpass")).
  - apply (proj1 (proj2 (H "a@b.com" "wrongpass"))). right.
    exists alice, "bcrypt$Secure123". repeat split.
  - apply (proj1 (proj2 (H "nonexistent@x.com" "whatever"))). left. reflexivity.
Defined.

(** The guard of lines 106-108 answers a user without a password hash
    with a message of its own.  It takes a store that holds a user with
    an email address and no hash, as [demoStore] does with [bob]; by
    [hashedEmails_exec] the service writes no such user. *)
Lemma loginWithEmail_guard_without_hash :
  AuthService.loginWithEmail (crypto := demoCrypto) (demoEnv 5000 "x")
    "bob@x.com" "whatever" demoStore
  = (Err (UnauthorizedError "Please login with phone OTP"), demoStore) /\
  ~ hashedEmails demoStore.
Proof.
  split; [reflexivity|]. intros Hinv. unfold hashedEmails in Hinv.
  apply Forall_inv_tail, Forall_inv in Hinv. simpl in Hinv.
  specialize (Hinv ltac:(discriminate)). discriminate.
Qed.

(** ** AuthService.registerWithEmail *)

Lemma find_none_Forall {T : Type} (p : T -> bool) (l : list T) :
  Forall (fun x => p x = false) l -> List.find p l = None.
Proof.
  induction 1 as [|x l Hx _ IH]; simpl; [reflexivity|]. now rewrite Hx.
Qed.

(** C5.  When a user with the email exists, [registerWithEmail] throws
    Conflict and the store is as it was: no user, session or OTP is
    created.  When none exists it returns the token pair minted for the
    new user with [hasProvider] false, having added the user, a session
    and a REGISTER OTP; the id of the new user is fresh, so no provider
    profile refers to it. *)
Theorem registerWithEmail_conflict_atomic {config : Config} {crypto : Crypto}
    (e : Env.t) (email password : string) (s : Store) :
  (forall existing : User.t,
     db.findOne (users s) (fun u => opt_eqb (User.email u) email) = Some existing ->
     AuthService.registerWithEmail e email password s =
       (Err (ConflictError "Email already registered"), s)) /\
  (db.findOne (users s) (fun u => opt_eqb (User.email u) email) = None ->
   Forall (fun p => Provider.userId p <> Env.userId e) (providers s) ->
   let tokens := generateTokenPair (Env.userId e) PROVIDER (Env.now e) in
   AuthService.registerWithEmail e email password s =
     (Ok (AuthResponse.mk tokens
            (AuthUser.mk (Env.userId e) (Some email) None PROVIDER false) false),
      mkStore
        (users s ++
         [User.mk (Env.userId e) (Some email) None (Some (Env.passwordHash e))
            PROVIDER false (Env.now e) (Env.now e) (Some (Env.now e))])
        (providers s) (portfolios s)
        (otps s ++
         [Otp.mk (Env.otpId e) (Env.userId e) (Env.otp e) REGISTER
            (getOtpExpiry (Env.now e)) (Env.now e) false 0])
        (sessions s ++
         [Session.mk (Env.sessionId e) (Env.userId e)
            (TokenPair.refreshToken tokens) None None (Env.now e)
            (Env.now e + thirtyDays)]))).
Proof.
  split.
  - intros existing Hfound.
    unfold AuthService.registerWithEmail. unfold_M. rewrite Hfound. reflexivity.
  - intros Hnone Hfresh tokens.
    unfold AuthService.registerWithEmail, AuthService.createSession,
      AuthService.sendEmailOtp, AuthService.hasProviderFor.
    unfold_M. rewrite Hnone. simpl. unfold db.findOne.
    rewrite find_none_Forall; [reflexivity|].
    eapply List.Forall_impl; [|exact Hfresh].
    intros p Hp. simpl. now apply String.eqb_neq.
Qed.

Lemma registerWithEmail_conflict_atomic_witness :
  AuthService.registerWithEmail (config := demoConfig) (crypto := demoCrypto)
    (demoEnv 5000 "x") "a@b.com" "Secure123" demoStore
  = (Err (ConflictError "Email already registered"), demoStore) /\
  (exists tokens s',
     AuthService.registerWithEmail (config := demoConfig) (crypto := demoCrypto)
       (demoEnv 5000 "x") "a@b.com" "Secure123" emptyStore
     = (Ok (AuthResponse.mk tokens
              (AuthUser.mk "user-x" (Some "a@b.com") None PROVIDER false) false),
        s')).
Proof.
  split.
  - apply (proj1 (registerWithEmail_conflict_atomic (config := demoConfig)
                    (crypto := demoCrypto) (demoEnv 5000 "x") "a@b.com"
                    "Secure123" demoStore) alice).
    reflexivity.
  - eexists. eexists.
    apply (proj2 (registerWithEmail_conflict_atomic (config := demoConfig)
                    (crypto := demoCrypto) (demoEnv 5000 "x") "a@b.com"
                    "Secure123" emptyStore)).
    + reflexivity.
    + constructor.
Defined.

(** The scenario of the specification: registering twice with one email. *)
Example registerWithEmail_twice :
  let first := AuthService.registerWithEmail (config := demoConfig)
                 (crypto := demoCrypto) (demoEnv 5000 "x")
                 "a@b.com" "Secure123" emptyStore in
  let second := AuthService.registerWithEmail (config := demoConfig)
                  (crypto := demoCrypto) (demoEnv 6000 "y")
                  "a@b.com" "Secure123" (snd first) in
  (exists resp, fst first = Ok resp /\ AuthResponse.hasProvider resp = false) /\
  second = (Err (ConflictError "Email already registered"), snd first) /\
  length (users (snd second)) = 1%nat.
Proof. repeat split. eexists. split; reflexivity. Qed.

(** ** AuthService.verifyOtp *)

(** C10.  [verifyOtp] resolves the user by phone first.  With a phone
    number supplied, whatever email is supplied with it: when no user has
    the phone number the call throws NotFound, even if a user has the
    email; when a user has it, the OTP that the code is compared with is
    the newest unverified OTP of that user, the call throws BadRequest if
    that user has none, and with the code of that OTP, unexpired and with
    fewer than 3 attempts, it returns the tokens and the record of that
    user; all in all the call does what it does without the email.  With
    neither identifier supplied the call throws NotFound and the store,
    its OTP records included, is as it was. *)
Theorem verifyOtp_identifier_precedence {crypto : Crypto} (e : Env.t)
    (otpCode : string) (s : Store) :
  (forall (phone : string) (email : option string),
     phone <> "" ->
     let identifier := Identifier.mk (Some phone) email in
     let found :=
       db.findOne (users s) (fun u => strict_eqb (User.phoneNumber u) (Some phone)) in
     AuthService.verifyOtp e identifier otpCode s =
       AuthService.verifyOtp e (Identifier.mk (Some phone) None) otpCode s /\
     (found = None ->
      AuthService.verifyOtp e identifier otpCode s = (Err (NotFoundError "User"), s)) /\
     (forall user : User.t,
        found = Some user ->
        selectedOtp identifier s = AuthService.latestOtpOf user s /\
        (AuthService.latestOtpOf user s = None ->
         AuthService.verifyOtp e identifier otpCode s =
           (Err (BadRequestError "No OTP found. Please request a new one."), s)) /\
        (forall otp : Otp.t,
           AuthService.latestOtpOf user s = Some otp ->
           isOtpExpired (Env.now e) (Otp.expiresAt otp) = false ->
           Otp.attempts otp < 3 ->
           Otp.code otp = otpCode ->
           exists (response : AuthResponse.t) (s' : Store),
             AuthService.verifyOtp e identifier otpCode s = (Ok response, s') /\
             AuthResponse.user response = AuthService.toAuthUser user true /\
             AuthResponse.tokens response =
               generateTokenPair (User.id user) (User.role user) (Env.now e)))) /\
  (forall identifier : Identifier.t,
     truthy (Identifier.phone identifier) = false ->
     truthy (Identifier.email identifier) = false ->
     AuthService.verifyOtp e identifier otpCode s = (Err (NotFoundError "User"), s)).
Proof.
  split.
  - intros phone email Hphone identifier found.
    assert (Hres : forall em,
      AuthService.resolveUser (Identifier.mk (Some phone) em) s = found).
    { intros em. unfold AuthService.resolveUser. simpl.
      apply String.eqb_neq in Hphone. rewrite Hphone. reflexivity. }
    split; [|split].
    + unfold AuthService.verifyOtp. unfold_M.
      unfold identifier. rewrite (Hres email), (Hres None). reflexivity.
    + intros Hnone. unfold AuthService.verifyOtp. unfold_M.
      unfold identifier. rewrite (Hres email), Hnone. reflexivity.
    + intros user Hfound. split; [|split].
      * unfold selectedOtp, identifier. now rewrite (Hres email), Hfound.
      * intros Hotp. unfold AuthService.verifyOtp. unfold_M.
        unfold identifier. rewrite (Hres email), Hfound, Hotp. reflexivity.
      * intros otp Hotp Hexp Hatt Hcode.
        unfold AuthService.verifyOtp, AuthService.createSession,
          AuthService.hasProviderFor. unfold_M.
        unfold identifier. rewrite (Hres email), Hfound, Hotp, Hexp.
        apply Z.leb_gt in Hatt. rewrite Hatt.
        apply String.eqb_eq in Hcode. rewrite Hcode. simpl.
        eexists. eexists. split; [reflexivity|]. split; reflexivity.
  - intros identifier Hphone Hemail.
    unfold AuthService.verifyOtp, AuthService.resolveUser. unfold_M.
    rewrite Hphone, Hemail. reflexivity.
Qed.

(** "Supplied" is what the code tests: a phone that is the empty string
    counts as absent, and the lookup goes by email. *)
Remark resolveUser_empty_phone (email : option string) (s : Store) :
  AuthService.resolveUser (Identifier.mk (Some "") email) s =
  AuthService.resolveUser (Identifier.mk None email) s.
Proof. reflexivity. Qed.

Lemma verifyOtp_identifier_precedence_witness :
  let both := Identifier.mk (Some "9876543210") (Some "a@b.com") in
  db.findOne (users phoneStore) (fun u => strict_eqb (User.email u) (Some "a@b.com"))
    = Some alice /\
  selectedOtp both phoneStore = AuthService.latestOtpOf phil phoneStore /\
  (exists (response : AuthResponse.t) (s' : Store),
     AuthService.verifyOtp (crypto := demoCrypto) (demoEnv 5000 "x") both "135790"
       phoneStore = (Ok response, s') /\
     AuthResponse.user response = AuthService.toAuthUser phil true /\
     AuthResponse.tokens response = generateTokenPair (Crypto := demoCrypto) "u3" PROVIDER 5000) /\
  AuthService.verifyOtp (crypto := demoCrypto) (demoEnv 5000 "x")
    (Identifier.mk (Some "9123456780") (Some "a@b.com")) "482913" phoneStore =
  (Err (NotFoundError "User"), phoneStore) /\
  AuthService.verifyOtp (crypto := demoCrypto) (demoEnv 5000 "x")
    (Identifier.mk None None) "482913" phoneStore =
  (Err (NotFoundError "User"), phoneStore).
Proof.
  intros both.
  pose proof (verifyOtp_identifier_precedence (crypto := demoCrypto)
                (demoEnv 5000 "x") "135790" phoneStore) as [Hphone _].
  pose proof (verifyOtp_identifier_precedence (crypto := demoCrypto)
                (demoEnv 5000 "x") "482913" phoneStore) as [Hother Hnone].
  specialize (Hphone "9876543210" (Some "a@b.com") ltac:(discriminate)).
  specialize (Hother "9123456780" (Some "a@b.com") ltac:(discriminate)).
  cbv zeta in Hphone, Hother.
  destruct Hphone as (_ & _ & Hfound). destruct Hother as (_ & Hmissing & _).
  destruct (Hfound phil eq_refl) as (Hsel & _ & Hok).
  split; [reflexivity|]. split; [exact Hsel|]. split; [|split].
  - apply (Hok (Otp.mk "o3" "u3" "135790" LOGIN 602000 2000 false 0));
      [reflexivity | reflexivity | simpl; lia | reflexivity].
  - apply Hmissing. reflexivity.
  - apply (Hnone (Identifier.mk None None)); reflexivity.
Defined.

(** C3.  When the newest unverified OTP of the resolved user has not
    expired and its attempt counter is 3 or more, [verifyOtp] throws
    BadRequest with the lockout message whatever code is submitted, the
    stored code included, and writes nothing: the attempt check comes
    before the comparison of the codes. *)
Theorem verifyOtp_lockout {crypto : Crypto} (e : Env.t)
    (identifier : Identifier.t) (otpCode : string) (s : Store)
    (user : User.t) (otp : Otp.t) :
  AuthService.resolveUser identifier s = Some user ->
  AuthService.latestOtpOf user s = Some otp ->
  isOtpExpired (Env.now e) (Otp.expiresAt otp) = false ->
  3 <= Otp.attempts otp ->
  AuthService.verifyOtp e identifier otpCode s =
    (Err (BadRequestError "Too many failed attempts. Please request a new OTP."), s) /\
  AuthService.verifyOtp e identifier (Otp.code otp) s =
    (Err (BadRequestError "Too many failed attempts. Please request a new OTP."), s) /\
  AppError.statusCode
    (BadRequestError "Too many failed attempts. Please request a new OTP.") = 400.
Proof.
  intros Huser Hotp Hexp Hatt.
  assert (Hany : forall c, AuthService.verifyOtp e identifier c s =
    (Err (BadRequestError "Too many failed attempts. Please request a new OTP."), s)).
  { intros c. unfold AuthService.verifyOtp. unfold_M.
    rewrite Huser, Hotp, Hexp.
    apply Z.leb_le in Hatt. rewrite Hatt. reflexivity. }
  repeat split; apply Hany.
Qed.

Lemma verifyOtp_lockout_witness :
  AuthService.verifyOtp (crypto := demoCrypto) (demoEnv 5000 "x")
    (byEmail "a@b.com") "482913"
    (mkStore [alice] [] [] [aliceOtp 3 false] [])
  = (Err (BadRequestError "Too many failed attempts. Please request a new OTP."),
     mkStore [alice] [] [] [aliceOtp 3 false] []).
Proof.
  apply (verifyOtp_lockout (crypto := demoCrypto) (demoEnv 5000 "x")
           (byEmail "a@b.com") "482913"
           (mkStore [alice] [] [] [aliceOtp 3 false] []) alice (aliceOtp 3 false));
    [reflexivity | reflexivity | reflexivity | simpl; lia].
Defined.

(** The scenario of the specification: three wrong codes in a row, then
    the right one, which is refused with the lockout message. *)
Example verifyOtp_three_strikes :
  let wrong := (demoEnv 5000 "x", VerifyOtp (byEmail "a@b.com") "000000") in
  let s3 := execAll (crypto := demoCrypto) (config := demoConfig)
              [wrong; wrong; wrong] demoStore in
  otps s3 = [aliceOtp 3 false] /\
  AuthService.verifyOtp (crypto := demoCrypto) (demoEnv 6000 "y")
    (byEmail "a@b.com") "482913" s3
  = (Err (BadRequestError "Too many failed attempts. Please request a new OTP."), s3).
Proof. split; reflexivity. Qed.

(** *** The newest record among those that are still live

    The lockout also covers the reading of C3 in which the OTP with three
    attempts is the newest among the user's unverified and unexpired
    ones: [verifyOtp] then stops at that record or, before it, at a newer
    expired one, and throws BadRequest either way. *)

Lemma head_sort_cons {T : Type} (cmp : T -> T -> Z) (x : T) (l : list T) :
  head (sort cmp (x :: l)) =
  match head (sort cmp l) with
  | None => Some x
  | Some y => if cmp x y <=? 0 then Some x else Some y
  end.
Proof.
  simpl. destruct (sort cmp l) as [|y rest]; simpl; [reflexivity|].
  destruct (cmp x y <=? 0); reflexivity.
Qed.

Lemma newest_is_max (l : list Otp.t) (y : Otp.t) :
  head (sort AuthService.byCreatedAtDesc l) = Some y ->
  forall z, In z l -> Otp.createdAt z <= Otp.createdAt y.
Proof.
  revert y. induction l as [|x l IH]; intros y Hhead z Hz; [contradiction|].
  rewrite head_sort_cons in Hhead.
  destruct (head (sort AuthService.byCreatedAtDesc l)) as [w|] eqn:Hw.
  - unfold AuthService.byCreatedAtDesc in Hhead.
    specialize (IH w eq_refl).
    destruct (Otp.createdAt w - Otp.createdAt x <=? 0) eqn:E;
      injection Hhead as <-; destruct Hz as [<-|Hz].
    + lia.
    + apply Z.leb_le in E. specialize (IH z Hz). lia.
    + apply Z.leb_gt in E. lia.
    + auto.
  - injection Hhead as <-. destruct Hz as [<-|Hz]; [lia|].
    destruct l as [|x' l]; [contradiction|].
    rewrite head_sort_cons in Hw.
    destruct (head (sort AuthService.byCreatedAtDesc l)); [|discriminate].
    destruct (_ <=? 0); discriminate.
Qed.

Lemma newest_of_filter (p : Otp.t -> bool) (l : list Otp.t) (o : Otp.t) :
  head (sort AuthService.byCreatedAtDesc l) = Some o ->
  p o = true ->
  head (sort AuthService.byCreatedAtDesc (List.filter p l)) = Some o.
Proof.
  revert o. induction l as [|x l IH]; intros o Hhead Hp; [discriminate|].
  rewrite head_sort_cons in Hhead. simpl.
  destruct (head (sort AuthService.byCreatedAtDesc l)) as [y|] eqn:Hy.
  - destruct (AuthService.byCreatedAtDesc x y <=? 0) eqn:E;
      injection Hhead as <-.
    + rewrite Hp. rewrite head_sort_cons.
      destruct (head (sort AuthService.byCreatedAtDesc (List.filter p l)))
        as [z|] eqn:Hz; [|reflexivity].
      assert (Hzl : In z l).
      { apply head_In, sort_In, filter_In in Hz. tauto. }
      pose proof (newest_is_max l y Hy z Hzl) as Hle.
      unfold AuthService.byCreatedAtDesc in *. apply Z.leb_le in E.
      destruct (Otp.createdAt z - Otp.createdAt x <=? 0) eqn:E';
        [reflexivity|]. apply Z.leb_gt in E'. lia.
    + specialize (IH y eq_refl Hp).
      destruct (p x); [|exact IH].
      rewrite head_sort_cons, IH, E. reflexivity.
  - injection Hhead as <-. rewrite Hp. rewrite head_sort_cons.
    destruct l as [|x' l]; [reflexivity|].
    rewrite head_sort_cons in Hy.
    destruct (head (sort AuthService.byCreatedAtDesc l)); [|discriminate].
    destruct (_ <=? 0); discriminate.
Qed.

Lemma filter_both {T : Type} (p q : T -> bool) (l : list T) :
  List.filter p (List.filter q l) = List.filter (fun x => q x && p x) l.
Proof.
  induction l as [|x l IH]; [reflexivity|]. simpl.
  destruct (q x); simpl; [destruct (p x)|]; now rewrite IH.
Qed.

Lemma verifyOtp_lockout_live {crypto : Crypto} (e : Env.t)
    (identifier : Identifier.t) (otpCode : string) (s : Store)
    (user : User.t) (otp : Otp.t) :
  AuthService.resolveUser identifier s = Some user ->
  head (sort AuthService.byCreatedAtDesc
          (db.findWhere (otps s) (fun o =>
             (String.eqb (Otp.userId o) (User.id user) && negb (Otp.verified o))
             && negb (isOtpExpired (Env.now e) (Otp.expiresAt o)))))
    = Some otp ->
  3 <= Otp.attempts otp ->
  exists message : string,
    AuthService.verifyOtp e identifier otpCode s
      = (Err (BadRequestError message), s) /\
    AppError.statusCode (BadRequestError message) = 400.
Proof.
  intros Huser Hlive Hatt.
  unfold AuthService.verifyOtp. unfold_M. rewrite Huser.
  destruct (AuthService.latestOtpOf user s) as [newest|] eqn:Hnewest; [|eauto].
  destruct (isOtpExpired (Env.now e) (Otp.expiresAt newest)) eqn:Hexp; [eauto|].
  assert (newest = otp) as ->.
  { unfold AuthService.latestOtpOf, db.findWhere in *.
    pose proof (newest_of_filter
      (fun o => negb (isOtpExpired (Env.now e) (Otp.expiresAt o))) _ newest
      Hnewest) as Hsame.
    simpl in Hsame. rewrite Hexp in Hsame. specialize (Hsame eq_refl).
    rewrite filter_both in Hsame. congruence. }
  apply Z.leb_le in Hatt. rewrite Hatt. eauto.
Qed.

(** ** One-time use of an OTP *)

Lemma spent_create (i : string) (l : list Otp.t) (o : Otp.t) :
  Otp.id o <> i ->
  Forall (fun o => Otp.id o = i -> Otp.verified o = true) l ->
  Forall (fun o => Otp.id o = i -> Otp.verified o = true) (db.create l o).
Proof.
  intros Hne Hl. unfold db.create. apply Forall_app. split; [exact Hl|].
  constructor; [|constructor]. intros Heq. contradiction.
Qed.

Lemma spent_deleteWhere (i : string) (l : list Otp.t) (p : Otp.t -> bool) :
  Forall (fun o => Otp.id o = i -> Otp.verified o = true) l ->
  Forall (fun o => Otp.id o = i -> Otp.verified o = true) (db.deleteWhere l p).
Proof.
  intros Hl. eapply incl_Forall; [apply deleteWhere_incl | exact Hl].
Qed.

(** No call un-verifies an OTP record, and no call gives a new record the
    id of an old one when the generated ids are new. *)
Lemma otpSpent_exec {config : Config} {crypto : Crypto} (e : Env.t) (c : Call)
    (s : Store) (i : string) :
  Env.otpId e <> i -> otpSpent i s -> otpSpent i (exec e c s).
Proof.
  intros Hid Hspent. unfold otpSpent in *.
  destruct c; run_call.
  all: try assumption.
  all: try (apply spent_create; [exact Hid | assumption]).
  all: try (apply spent_deleteWhere; assumption).
  all: try (apply update_Forall; [|assumption]; intros r Hr; simpl; auto).
Qed.

Lemma otpSpent_execAll {config : Config} {crypto : Crypto}
    (calls : list (Env.t * Call)) (s : Store) (i : string) :
  Forall (fun ec => Env.otpId (fst ec) <> i) calls ->
  otpSpent i s -> otpSpent i (execAll calls s).
Proof.
  revert s. induction calls as [|[e c] calls IH]; intros s Hids Hspent; simpl.
  - exact Hspent.
  - apply IH; [exact (Forall_inv_tail Hids)|].
    apply otpSpent_exec; [exact (Forall_inv Hids) | exact Hspent].
Qed.

(** With unique ids, marking the record of id [i] verified leaves no
    unverified record of that id. *)
Lemma spent_after_update (l : list Otp.t) (i : string) (f : Otp.t -> Otp.t) :
  List.NoDup (map Otp.id l) ->
  (forall o, Otp.verified (f o) = true) ->
  Forall (fun o => Otp.id o = i -> Otp.verified o = true) (db.update l i f).
Proof.
  intros Hnd Hf. induction l as [|r l IH]; [constructor|].
  inversion Hnd as [|? ? Hnotin Hnd']; subst.
  rewrite update_cons. change (rid r) with (Otp.id r).
  destruct (String.eqb (Otp.id r) i) eqn:E.
  - apply String.eqb_eq in E. subst i. constructor; [auto|].
    apply List.Forall_forall. intros o Ho Heq. exfalso.
    apply Hnotin. rewrite <- Heq. now apply in_map.
  - apply String.eqb_neq in E. constructor; [intros; contradiction | auto].
Qed.

(** The record that [verifyOtp] picks is a stored, unverified one. *)
Lemma latestOtpOf_unverified (user : User.t) (s : Store) (otp : Otp.t) :
  AuthService.latestOtpOf user s = Some otp ->
  In otp (otps s) /\ Otp.verified otp = false /\ Otp.userId otp = User.id user.
Proof.
  unfold AuthService.latestOtpOf, db.findWhere. intros Hhead.
  apply head_In, sort_In, filter_In in Hhead as [Hin Hp].
  apply andb_true_iff in Hp as [Huser Hunv].
  apply String.eqb_eq in Huser. apply negb_true_iff in Hunv. auto.
Qed.

Lemma selectedOtp_unverified (identifier : Identifier.t) (s : Store) (otp : Otp.t) :
  selectedOtp identifier s = Some otp ->
  In otp (otps s) /\ Otp.verified otp = false.
Proof.
  unfold selectedOtp. destruct (AuthService.resolveUser identifier s); [|discriminate].
  intros Hsel. apply latestOtpOf_unverified in Hsel. tauto.
Qed.

(** What a successful [verifyOtp] has done. *)
Lemma verifyOtp_accepts {crypto : Crypto} (e : Env.t) (identifier : Identifier.t)
    (otpCode : string) (s s' : Store) (resp : AuthResponse.t) :
  AuthService.verifyOtp e identifier otpCode s = (Ok resp, s') ->
  exists otp,
    selectedOtp identifier s = Some otp /\
    Otp.code otp = otpCode /\
    isOtpExpired (Env.now e) (Otp.expiresAt otp) = false /\
    Otp.attempts otp < 3 /\
    otps s' =
      db.update (otps s) (Otp.id otp) (fun o =>
        Otp.mk (Otp.id o) (Otp.userId o) (Otp.code o) (Otp.type o)
          (Otp.expiresAt o) (Otp.createdAt o) true (Otp.attempts o)).
Proof.
  unfold AuthService.verifyOtp, selectedOtp, AuthService.createSession,
    AuthService.hasProviderFor.
  unfold_M. store_simpl.
  destruct (AuthService.resolveUser identifier s) as [user|]; [|discriminate].
  destruct (AuthService.latestOtpOf user s) as [otp|]; [|discriminate].
  destruct (isOtpExpired (Env.now e) (Otp.expiresAt otp)) eqn:Hexp; [discriminate|].
  destruct (3 <=? Otp.attempts otp) eqn:Hatt; [discriminate|].
  destruct (String.eqb (Otp.code otp) otpCode) eqn:Hcode; simpl; [|discriminate].
  intros [= <- <-]. exists otp. store_simpl.
  apply String.eqb_eq in Hcode. apply Z.leb_gt in Hatt.
  repeat split; try assumption; reflexivity.
Qed.

(** C2.  An OTP record is used once.  After [verifyOtp] has accepted a
    code, the record it accepted is marked verified, and through every
    later history of calls it stays so: no later [verifyOtp] selects that
    record for matching, so none can accept it, whatever code is
    submitted.  (Records are keyed by unique ids and [generateId] does not
    return the id again.) *)
Theorem verifyOtp_single_use {config : Config} {crypto : Crypto} (e : Env.t)
    (identifier : Identifier.t) (otpCode : string) (s s1 : Store)
    (resp : AuthResponse.t) :
  List.NoDup (map Otp.id (otps s)) ->
  AuthService.verifyOtp e identifier otpCode s = (Ok resp, s1) ->
  exists otp : Otp.t,
    selectedOtp identifier s = Some otp /\
    Otp.verified otp = false /\
    Otp.code otp = otpCode /\
    forall calls : list (Env.t * Call),
      Forall (fun ec => Env.otpId (fst ec) <> Otp.id otp) calls ->
      let sn := execAll calls s1 in
      otpSpent (Otp.id otp) sn /\
      (forall identifier' otp',
         selectedOtp identifier' sn = Some otp' -> Otp.id otp' <> Otp.id otp) /\
      (forall e' identifier' otpCode' resp' s',
         AuthService.verifyOtp e' identifier' otpCode' sn = (Ok resp', s') ->
         exists otp',
           selectedOtp identifier' sn = Some otp' /\ Otp.id otp' <> Otp.id otp).
Proof.
  intros Hnd Hok.
  destruct (verifyOtp_accepts e identifier otpCode s s1 resp Hok)
    as (otp & Hsel & Hcode & _ & _ & Hotps).
  exists otp. split; [exact Hsel|].
  split; [exact (proj2 (selectedOtp_unverified _ _ _ Hsel))|].
  split; [exact Hcode|].
  intros calls Hids sn.
  assert (Hspent : otpSpent (Otp.id otp) sn).
  { apply otpSpent_execAll; [exact Hids|].
    unfold otpSpent. rewrite Hotps. apply spent_after_update; auto. }
  assert (Hother : forall identifier' otp',
    selectedOtp identifier' sn = Some otp' -> Otp.id otp' <> Otp.id otp).
  { intros identifier' otp' Hsel' Heq.
    apply selectedOtp_unverified in Hsel' as [Hin Hunv].
    unfold otpSpent in Hspent. rewrite List.Forall_forall in Hspent.
    rewrite (Hspent otp' Hin Heq) in Hunv. discriminate. }
  split; [exact Hspent|]. split; [exact Hother|].
  intros e' identifier' otpCode' resp' s' Hok'.
  destruct (verifyOtp_accepts e' identifier' otpCode' sn s' resp' Hok')
    as (otp' & Hsel' & _).
  exists otp'. split; [exact Hsel' | exact (Hother _ _ Hsel')].
Qed.

Lemma verifyOtp_single_use_witness :
  let e := demoEnv 5000 "x" in
  let s1 := snd (AuthService.verifyOtp (crypto := demoCrypto) e
                   (byEmail "a@b.com") "482913" demoStore) in
  exists otp : Otp.t,
    selectedOtp (byEmail "a@b.com") demoStore = Some otp /\
    Otp.verified otp = false /\
    Otp.code otp = "482913" /\
    forall calls : list (Env.t * Call),
      Forall (fun ec => Env.otpId (fst ec) <> Otp.id otp) calls ->
      let sn := execAll (config := demoConfig) (crypto := demoCrypto) calls s1 in
      otpSpent (Otp.id otp) sn /\
      (forall identifier' otp',
         selectedOtp identifier' sn = Some otp' -> Otp.id otp' <> Otp.id otp) /\
      (forall e' identifier' otpCode' resp' s',
         AuthService.verifyOtp (crypto := demoCrypto) e' identifier' otpCode' sn
           = (Ok resp', s') ->
         exists otp',
           selectedOtp identifier' sn = Some otp' /\ Otp.id otp' <> Otp.id otp).
Proof.
  intros e s1.
  apply (verifyOtp_single_use (config := demoConfig) (crypto := demoCrypto) e
           (byEmail "a@b.com") "482913" demoStore s1
           (AuthResponse.mk
              (TokenPair.mk (demoSign "access" "u1" 5000)
                 (demoSign "refresh" "u1" 5000))
              (AuthUser.mk "u1" (Some "a@b.com") None PROVIDER true) false)).
  - repeat constructor. simpl. tauto.
  - reflexivity.
Defined.

(** The scenario of the specification: the right code is accepted once;
    sent again, it is refused, since the only OTP of the user is now
    verified. *)
Example verifyOtp_resubmitted :
  let first := AuthService.verifyOtp (crypto := demoCrypto) (demoEnv 5000 "x")
                 (byEmail "a@b.com") "482913" demoStore in
  let second := AuthService.verifyOtp (crypto := demoCrypto) (demoEnv 6000 "y")
                  (byEmail "a@b.com") "482913" (snd first) in
  (exists resp, fst first = Ok resp) /\
  otps (snd first) = [aliceOtp 0 true] /\
  second = (Err (BadRequestError "No OTP found. Please request a new one."),
            snd first).
Proof. split; [eexists; reflexivity|]. split; reflexivity. Qed.

(** ** AuthService.refreshToken: the expired session *)

Lemma find_some_In {T : Type} (p : T -> bool) (l : list T) (x : T) :
  List.find p l = Some x -> In x l /\ p x = true.
Proof. apply find_some. Qed.

Lemma NoDup_map_eq {T : Type} (f : T -> string) (l : list T) (x y : T) :
  List.NoDup (map f l) -> In x l -> In y l -> f x = f y -> x = y.
Proof.
  induction l as [|z l IH]; simpl; [tauto|].
  intros Hnd Hx Hy Heq. inversion Hnd as [|? ? Hnotin Hnd']; subst.
  destruct Hx as [->|Hx], Hy as [->|Hy]; auto.
  - exfalso. apply Hnotin. rewrite Heq. now apply in_map.
  - exfalso. apply Hnotin. rewrite <- Heq. now apply in_map.
Qed.

(** C6, as the code has it.  When the token passes
    [verifyRefreshToken] and the session holding it has expired,
    [refreshToken] deletes that session, keeps every other one, and
    throws Unauthorized. *)
Theorem refreshToken_expired_session {crypto : Crypto} (e : Env.t)
    (token : string) (s : Store) (decoded : JwtPayload.t) (session : Session.t) :
  verifyRefreshToken token (Env.now e) = Some decoded ->
  db.findOne (sessions s) (fun x => String.eqb (Session.refreshToken x) token)
    = Some session ->
  Session.expiresAt session < Env.now e ->
  List.NoDup (map Session.id (sessions s)) ->
  let s' := snd (AuthService.refreshToken e token s) in
  AuthService.refreshToken e token s =
    (Err (UnauthorizedError "Session expired. Please login again."),
     set_sessions (fun l => db.delete l (Session.id session)) s) /\
  In session (sessions s) /\
  ~ In session (sessions s') /\
  (forall x, x <> session -> In x (sessions s) <-> In x (sessions s')) /\
  users s' = users s /\ otps s' = otps s.
Proof.
  intros Hverify Hfound Hexpired Hnd s'.
  assert (Hrun : AuthService.refreshToken e token s =
    (Err (UnauthorizedError "Session expired. Please login again."),
     set_sessions (fun l => db.delete l (Session.id session)) s)).
  { unfold AuthService.refreshToken. unfold_M. rewrite Hverify, Hfound.
    apply Z.ltb_lt in Hexpired. rewrite Hexpired. reflexivity. }
  subst s'. rewrite Hrun. cbn [snd set_sessions sessions users otps].
  apply find_some_In in Hfound as [Hin _].
  rewrite (delete_unique (H := Session_HasId) (sessions s) (Session.id session) Hnd).
  split; [reflexivity|]. split; [exact Hin|]. split; [|split; [|split; reflexivity]].
  - intros Hin'. apply filter_In in Hin' as [_ Hne].
    change (rid session) with (Session.id session) in Hne.
    rewrite String.eqb_refl in Hne. discriminate.
  - intros x Hx. rewrite filter_In. split; [|tauto].
    intros Hxin. split; [exact Hxin|].
    apply negb_true_iff, String.eqb_neq. intros Heq. apply Hx.
    exact (NoDup_map_eq Session.id (sessions s) x session Hnd Hxin Hin Heq).
Qed.

Lemma refreshToken_expired_session_witness :
  let e := demoEnv (1000 + thirtyDays + 1) "x" in
  let s := mkStore [alice] [] [] []
             [Session.mk "s1" "u1" (demoSign "refresh" "u1" 5000) None None
                1000 (1000 + thirtyDays)] in
  AuthService.refreshToken (crypto := demoCrypto) e (demoSign "refresh" "u1" 5000) s
  = (Err (UnauthorizedError "Session expired. Please login again."),
     mkStore [alice] [] [] [] []).
Proof.
  intros e s.
  apply (refreshToken_expired_session (crypto := demoCrypto) e
           (demoSign "refresh" "u1" 5000) s (JwtPayload.mk "u1" PROVIDER)
           (Session.mk "s1" "u1" (demoSign "refresh" "u1" 5000) None None
              1000 (1000 + thirtyDays))).
  - reflexivity.
  - reflexivity.
  - vm_compute. reflexivity.
  - repeat constructor. simpl. tauto.
Defined.

(** C6, as the specification states it, fails: a token that matches a
    stored, expired session but does not pass [verifyRefreshToken] (here
    its own thirty days are over as well) is refused before the session
    is looked up, and the stale session stays in the store. *)
Lemma refreshToken_unverified_keeps_session :
  let e := demoEnv (1000 + thirtyDays + 1) "x" in
  let token := demoSign "refresh" "u1" 1000 in
  db.findOne (sessions demoStore)
    (fun x => String.eqb (Session.refreshToken x) token) = Some aliceSession /\
  Session.expiresAt aliceSession < Env.now e /\
  AuthService.refreshToken (crypto := demoCrypto) e token demoStore
  = (Err (UnauthorizedError "Invalid refresh token"), demoStore) /\
  In aliceSession
    (sessions (snd (AuthService.refreshToken (crypto := demoCrypto) e token demoStore))).
Proof.
  split; [reflexivity|]. split; [vm_compute; reflexivity|].
  split; [reflexivity|]. left. reflexivity.
Qed.

(** ** Rotation of the refresh token *)

Lemma free_create (token : string) (l : list Session.t) (x : Session.t) :
  Session.refreshToken x <> token ->
  Forall (fun x => Session.refreshToken x <> token) l ->
  Forall (fun x => Session.refreshToken x <> token) (db.create l x).
Proof.
  intros Hne Hl. unfold db.create. apply Forall_app. split; [exact Hl|].
  constructor; [exact Hne | constructor].
Qed.

(** A call that mints no token equal to [token] puts [token] in no
    session. *)
Lemma tokenFree_exec {config : Config} {crypto : Crypto} (e : Env.t) (c : Call)
    (s : Store) (token : string) :
  mintsOther token (e, c) -> tokenFree token s -> tokenFree token (exec e c s).
Proof.
  intros Hmint Hfree. unfold tokenFree, mintsOther in *. simpl in Hmint.
  destruct c; run_call.
  all: try assumption.
  all: try (apply free_create; [apply Hmint | assumption]).
  all: try (eapply incl_Forall; [apply deleteWhere_incl | assumption]).
  all: try (eapply incl_Forall; [apply delete_incl | assumption]).
  all: try (apply update_Forall; [|assumption]; intros r Hr; simpl; apply Hmint).
Qed.

Lemma tokenFree_execAll {config : Config} {crypto : Crypto}
    (calls : list (Env.t * Call)) (s : Store) (token : string) :
  Forall (mintsOther token) calls ->
  tokenFree token s -> tokenFree token (execAll calls s).
Proof.
  revert s. induction calls as [|[e c] calls IH]; intros s Hmint Hfree; simpl.
  - exact Hfree.
  - apply IH; [exact (Forall_inv_tail Hmint)|].
    apply tokenFree_exec; [exact (Forall_inv Hmint) | exact Hfree].
Qed.

(** With unique ids an update touches the one record that has the id. *)
Lemma update_unique {T : Type} `{HasId T} (l : list T) (i : string) (f : T -> T) :
  List.NoDup (map rid l) ->
  db.update l i f = map (fun r => if String.eqb (rid r) i then f r else r) l.
Proof.
  induction l as [|r l IH]; intros Hnd; [reflexivity|].
  inversion Hnd as [|? ? Hnotin Hnd']; subst.
  rewrite update_cons. simpl.
  destruct (String.eqb (rid r) i) eqn:E; [|now rewrite IH].
  apply String.eqb_eq in E. subst i. f_equal.
  rewrite <- (map_id l) at 1. apply map_ext_in. intros x Hx.
  destruct (String.eqb (rid x) (rid r)) eqn:E'; [|reflexivity].
  apply String.eqb_eq in E'. exfalso. apply Hnotin. rewrite <- E'.
  now apply in_map.
Qed.

(** On a store where no session holds the token, [refreshToken] throws
    Unauthorized and writes nothing. *)
Lemma refreshToken_tokenFree {crypto : Crypto} (e : Env.t) (token : string)
    (s : Store) :
  tokenFree token s ->
  exists message : string,
    (message = "Invalid refresh token" \/ message = "Session not found") /\
    AuthService.refreshToken e token s = (Err (UnauthorizedError message), s).
Proof.
  intros Hfree. unfold AuthService.refreshToken. unfold_M.
  destruct (verifyRefreshToken token (Env.now e)); [|eauto].
  unfold db.findOne. rewrite find_none_Forall; [eauto|].
  eapply List.Forall_impl; [|exact Hfree].
  intros x Hx. simpl. now apply String.eqb_neq.
Qed.

(** What a successful [refreshToken] has done. *)
Lemma refreshToken_rotates {crypto : Crypto} (e : Env.t) (token : string)
    (s s' : Store) (tokens : TokenPair.t) :
  AuthService.refreshToken e token s = (Ok tokens, s') ->
  exists (decoded : JwtPayload.t) (session : Session.t) (user : User.t),
    verifyRefreshToken token (Env.now e) = Some decoded /\
    db.findOne (sessions s) (fun x => String.eqb (Session.refreshToken x) token)
      = Some session /\
    Env.now e <= Session.expiresAt session /\
    db.findById (users s) (JwtPayload.userId decoded) = Some user /\
    tokens = generateTokenPair (User.id user) (User.role user) (Env.now e) /\
    s' = set_sessions (fun l =>
           db.update l (Session.id session) (fun x =>
             Session.mk (Session.id x) (Session.userId x)
               (TokenPair.refreshToken tokens) (Session.userAgent x)
               (Session.ipAddress x) (Session.createdAt x)
               (Env.now e + thirtyDays))) s.
Proof.
  unfold AuthService.refreshToken. unfold_M.
  destruct (verifyRefreshToken token (Env.now e)) as [decoded|]; [|discriminate].
  destruct (db.findOne (sessions s) _) as [session|]; [|discriminate].
  destruct (Session.expiresAt session <? Env.now e) eqn:Hexp; [discriminate|].
  destruct (db.findById (users s) (JwtPayload.userId decoded)) as [user|] eqn:Huser;
    [|discriminate].
  intros [= <- <-]. exists decoded, session, user. apply Z.ltb_ge in Hexp.
  repeat split; try assumption; reflexivity.
Qed.

(** A token that verifies, is held by a session that has not expired and
    names a user of the store is accepted. *)
Lemma refreshToken_accepted {crypto : Crypto} (e : Env.t) (token : string)
    (s : Store) (decoded : JwtPayload.t) (session : Session.t) (user : User.t) :
  verifyRefreshToken token (Env.now e) = Some decoded ->
  db.findOne (sessions s) (fun x => String.eqb (Session.refreshToken x) token)
    = Some session ->
  Env.now e <= Session.expiresAt session ->
  db.findById (users s) (JwtPayload.userId decoded) = Some user ->
  exists (tokens : TokenPair.t) (s' : Store),
    AuthService.refreshToken e token s = (Ok tokens, s').
Proof.
  intros Hverify Hfound Hexp Huser. unfold AuthService.refreshToken. unfold_M.
  rewrite Hverify, Hfound. apply Z.ltb_ge in Hexp. rewrite Hexp, Huser. eauto.
Qed.

Lemma find_map_in {T : Type} (p : T -> bool) (g : T -> T) (l : list T) :
  (forall r, In r l -> p (g r) = p r) ->
  List.find p (map g l) = option_map g (List.find p l).
Proof.
  induction l as [|r l IH]; intros Hg; [reflexivity|]. simpl.
  rewrite (Hg r (or_introl eq_refl)).
  destruct (p r); [reflexivity|]. apply IH. intros x Hx. apply Hg. now right.
Qed.

(** [jwt.sign] puts the second of signing, and no nonce, into the token:
    when tokens signed in different seconds differ, a call in a later
    second than the one [token] was signed in signs no [token]. *)
Lemma mintsOther_later_second {crypto : Crypto} (token : string)
    (userId : string) (role : Role) (signed : Z) (ec : Env.t * Call) :
  (forall u r n u' r' n',
     n / 1000 <> n' / 1000 ->
     TokenPair.refreshToken (generateTokenPair u r n) <>
     TokenPair.refreshToken (generateTokenPair u' r' n')) ->
  token = TokenPair.refreshToken (generateTokenPair userId role signed) ->
  signed / 1000 < Env.now (fst ec) / 1000 ->
  mintsOther token ec.
Proof.
  intros Hsign -> Hlater u r. apply Hsign. lia.
Qed.

(** C4, as the code has it.  A successful [refreshToken(t)] overwrites
    the token of the first session that holds [t] with the token it has
    signed and sets the expiry of that session thirty days ahead, and
    writes nothing else.  Afterwards [t] is out of use, no session
    holding it and [refreshToken(t)] throwing Unauthorized, exactly when
    the signed token is not [t] again and no other session held [t]; it
    then stays out of use through every later history of calls that sign
    no [t].  When the signed token is [t] itself, [t] is accepted again
    for as long as it verifies and the thirty days run. *)
Theorem refreshToken_rotation {config : Config} {crypto : Crypto} (e : Env.t)
    (token : string) (s s1 : Store) (tokens : TokenPair.t) :
  List.NoDup (map Session.id (sessions s)) ->
  AuthService.refreshToken e token s = (Ok tokens, s1) ->
  exists session : Session.t,
    db.findOne (sessions s) (fun x => String.eqb (Session.refreshToken x) token)
      = Some session /\
    sessions s1 =
      map (fun x =>
             if String.eqb (Session.id x) (Session.id session) then
               Session.mk (Session.id x) (Session.userId x)
                 (TokenPair.refreshToken tokens) (Session.userAgent x)
                 (Session.ipAddress x) (Session.createdAt x)
                 (Env.now e + thirtyDays)
             else x) (sessions s) /\
    users s1 = users s /\ otps s1 = otps s /\
    (tokenFree token s1 <->
     TokenPair.refreshToken tokens <> token /\
     forall x, In x (sessions s) -> Session.refreshToken x = token -> x = session) /\
    (tokenFree token s1 ->
     forall calls : list (Env.t * Call),
       Forall (mintsOther token) calls ->
       let sn := execAll calls s1 in
       tokenFree token sn /\
       forall e' : Env.t,
         exists message : string,
           AuthService.refreshToken e' token sn
             = (Err (UnauthorizedError message), sn) /\
           AppError.statusCode (UnauthorizedError message) = 401) /\
    (TokenPair.refreshToken tokens = token ->
     forall e' : Env.t,
       verifyRefreshToken token (Env.now e') = verifyRefreshToken token (Env.now e) ->
       Env.now e' <= Env.now e + thirtyDays ->
       exists (tokens' : TokenPair.t) (s2 : Store),
         AuthService.refreshToken e' token s1 = (Ok tokens', s2)).
Proof.
  intros Hids Hok.
  destruct (refreshToken_rotates e token s s1 tokens Hok)
    as (decoded & session & user & Hverify & Hfound & _ & Huser & _ & ->).
  pose proof Hfound as Hfound'.
  apply find_some_In in Hfound' as [Hin Htok]. apply String.eqb_eq in Htok.
  set (rotate := fun x : Session.t =>
         if String.eqb (Session.id x) (Session.id session) then
           Session.mk (Session.id x) (Session.userId x)
             (TokenPair.refreshToken tokens) (Session.userAgent x)
             (Session.ipAddress x) (Session.createdAt x)
             (Env.now e + thirtyDays)
         else x).
  assert (Hsessions : db.update (sessions s) (Session.id session) (fun x =>
             Session.mk (Session.id x) (Session.userId x)
               (TokenPair.refreshToken tokens) (Session.userAgent x)
               (Session.ipAddress x) (Session.createdAt x)
               (Env.now e + thirtyDays)) = map rotate (sessions s))
    by apply (update_unique (H := Session_HasId) _ _ _ Hids).
  assert (Hsame : forall x, In x (sessions s) ->
            String.eqb (Session.id x) (Session.id session) = true -> x = session).
  { intros x Hx E. apply String.eqb_eq in E.
    now apply (NoDup_map_eq Session.id (sessions s)). }
  assert (Hfree : tokenFree token
                    (set_sessions (fun l => db.update l (Session.id session) (fun x =>
                       Session.mk (Session.id x) (Session.userId x)
                         (TokenPair.refreshToken tokens) (Session.userAgent x)
                         (Session.ipAddress x) (Session.createdAt x)
                         (Env.now e + thirtyDays))) s) <->
                  TokenPair.refreshToken tokens <> token /\
                  forall x, In x (sessions s) -> Session.refreshToken x = token ->
                            x = session).
  { unfold tokenFree. cbn [sessions set_sessions]. rewrite Hsessions.
    rewrite List.Forall_forall. split.
    - intros Hall. split.
      + specialize (Hall (rotate session) (in_map rotate _ _ Hin)).
        unfold rotate in Hall. rewrite String.eqb_refl in Hall. exact Hall.
      + intros x Hx Hxtok.
        destruct (String.eqb (Session.id x) (Session.id session)) eqn:E;
          [now apply Hsame|].
        specialize (Hall (rotate x) (in_map rotate _ _ Hx)).
        unfold rotate in Hall. rewrite E in Hall. contradiction.
    - intros [Hnew Honly] y Hy. apply in_map_iff in Hy as (x & <- & Hx).
      unfold rotate.
      destruct (String.eqb (Session.id x) (Session.id session)) eqn:E;
        [exact Hnew|].
      intros Hxtok. rewrite (Honly x Hx Hxtok), String.eqb_refl in E.
      discriminate. }
  exists session. cbn [sessions users otps set_sessions].
  split; [exact Hfound|]. split; [exact Hsessions|].
  split; [reflexivity|]. split; [reflexivity|]. split; [exact Hfree|]. split.
  - intros Hfree1 calls Hmint.
    pose proof (tokenFree_execAll calls _ token Hmint Hfree1) as Hfreen.
    split; [exact Hfreen|].
    intros e'. destruct (refreshToken_tokenFree e' token _ Hfreen)
      as (message & _ & Hrun).
    exists message. split; [exact Hrun | reflexivity].
  - intros Hnew e' Hverify' Hnow.
    rewrite Hverify in Hverify'.
    apply (refreshToken_accepted e' token _ decoded (rotate session) user).
    + exact Hverify'.
    + cbn [sessions set_sessions]. rewrite Hsessions. unfold db.findOne in *.
      rewrite find_map_in, Hfound; [reflexivity|].
      intros x Hx. unfold rotate.
      destruct (String.eqb (Session.id x) (Session.id session)) eqn:E;
        [|reflexivity].
      rewrite (Hsame x Hx E). cbn [Session.refreshToken].
      rewrite Hnew, Htok. reflexivity.
    + unfold rotate. rewrite String.eqb_refl. cbn [Session.expiresAt]. exact Hnow.
    + exact Huser.
Qed.

Lemma refreshToken_rotation_witness :
  let e := demoEnv 5000 "x" in
  let token := demoSign "refresh" "u1" 1000 in
  let later := [(demoEnv 9000 "y", LoginWithEmail "a@b.com" "Secure123");
                (demoEnv 12000 "z", RefreshToken (demoSign "refresh" "u1" 5000))] in
  let rotated :=
    AuthService.refreshToken (crypto := demoCrypto) e token registeredStore in
  let sn := execAll (config := demoConfig) (crypto := demoCrypto) later (snd rotated) in
  (exists tokens, fst rotated = Ok tokens) /\
  tokenFree token (snd rotated) /\
  tokenFree token sn /\
  forall e' : Env.t,
    exists message : string,
      AuthService.refreshToken (crypto := demoCrypto) e' token sn
        = (Err (UnauthorizedError message), sn) /\
      AppError.statusCode (UnauthorizedError message) = 401.
Proof.
  intros e token later rotated sn.
  destruct (refreshToken_rotation (config := demoConfig) (crypto := demoCrypto)
              e token registeredStore (snd rotated)
              (TokenPair.mk (demoSign "access" "u1" 5000)
                 (demoSign "refresh" "u1" 5000)))
    as (session & Hfound & _ & _ & _ & Hiff & Hgood & _).
  - repeat constructor. simpl. tauto.
  - reflexivity.
  - assert (Hfree : tokenFree token (snd rotated)).
    { apply Hiff. split; [discriminate|].
      injection Hfound as <-. intros x [<-|[]] _. reflexivity. }
    split; [eexists; reflexivity|]. split; [exact Hfree|].
    apply (Hgood Hfree later).
    repeat constructor; intros userId role; discriminate.
Defined.

(** C4, as the specification states it, fails: [jwt.sign] is called with
    the payload [{userId, role}] and an expiry and nothing else, so the
    token is a function of the user and the second of signing.  A
    rotation in the second in which [t] was signed returns [t] itself and
    [t] is accepted again.  And two logins within one second leave two
    sessions that hold [t]; a later rotation rewrites the first of them
    only, and [t] is accepted again through the second. *)
Lemma refreshToken_old_token_accepted :
  let t := demoSign "refresh" "u1" 1000 in
  let refresh := AuthService.refreshToken (crypto := demoCrypto) in
  (let s1 := snd (refresh (demoEnv 1500 "x") t registeredStore) in
   fst (refresh (demoEnv 1500 "x") t registeredStore) =
     Ok (TokenPair.mk (demoSign "access" "u1" 1500) t) /\
   fst (refresh (demoEnv 1900 "y") t s1) =
     Ok (TokenPair.mk (demoSign "access" "u1" 1900) t)) /\
  (let s := snd (AuthService.loginWithEmail (crypto := demoCrypto)
                   (demoEnv 1400 "w") "a@b.com" "Secure123" registeredStore) in
   let s1 := snd (refresh (demoEnv 5000 "x") t s) in
   map Session.refreshToken (sessions s) = [t; t] /\
   fst (refresh (demoEnv 5000 "x") t s) =
     Ok (TokenPair.mk (demoSign "access" "u1" 5000) (demoSign "refresh" "u1" 5000)) /\
   demoSign "refresh" "u1" 5000 <> t /\
   map Session.refreshToken (sessions s1) = [demoSign "refresh" "u1" 5000; t] /\
   fst (refresh (demoEnv 9000 "y") t s1) =
     Ok (TokenPair.mk (demoSign "access" "u1" 9000) (demoSign "refresh" "u1" 9000))).
Proof.
  split.
  - split; reflexivity.
  - split; [reflexivity|]. split; [reflexivity|]. split; [discriminate|].
    split; reflexivity.
Qed.

(** ** PortfolioService.create *)

Lemma count_create {T : Type} (l : list T) (x : T) (p : T -> bool) :
  db.count (db.create l x) p = (db.count l p + if p x then 1 else 0)%nat.
Proof.
  unfold db.count, db.create. rewrite List.filter_app, List.length_app. simpl.
  destruct (p x); reflexivity.
Qed.

(** C9.  For a user with a provider profile, [PortfolioService.create]
    throws BadRequest naming the maximum and adds nothing when the
    profile already has 10 or more items; below that it appends one item
    whose [displayOrder] is the number of the profile's items before the
    call.  A store in which every provider has at most 10 items stays
    so. *)
Theorem create_portfolio_cap (e : Env.t) (userId : string)
    (data : CreatePortfolioItemInput.t) (s : Store) (provider : Provider.t) :
  db.findOne (providers s) (fun p => String.eqb (Provider.userId p) userId)
    = Some provider ->
  let owned := fun item : PortfolioItem.t =>
    String.eqb (PortfolioItem.providerId item) (Provider.id provider) in
  let existingCount := db.count (portfolios s) owned in
  ((10 <= existingCount)%nat ->
   PortfolioService.create e userId data s =
     (Err (BadRequestError "Maximum 10 portfolio items allowed"), s)) /\
  ((existingCount < 10)%nat ->
   exists item : PortfolioItem.t,
     PortfolioService.create e userId data s =
       (Ok item, set_portfolios (fun l => (l ++ [item])%list) s) /\
     PortfolioItem.displayOrder item = Z.of_nat existingCount /\
     PortfolioItem.providerId item = Provider.id provider /\
     PortfolioItem.id item = Env.portfolioId e) /\
  ((forall providerId : string,
      (db.count (portfolios s) (fun item =>
         String.eqb (PortfolioItem.providerId item) providerId) <= 10)%nat) ->
   forall providerId : string,
     (db.count (portfolios (snd (PortfolioService.create e userId data s)))
        (fun item => String.eqb (PortfolioItem.providerId item) providerId)
      <= 10)%nat).
Proof.
  intros Hprov owned existingCount.
  assert (Hrun : PortfolioService.create e userId data s =
    if 10 <=? Z.of_nat existingCount then
      (Err (BadRequestError "Maximum 10 portfolio items allowed"), s)
    else
      let item :=
        PortfolioItem.mk (Env.portfolioId e) (Provider.id provider)
          (CreatePortfolioItemInput.imgUrl data)
          (Some (or_default (CreatePortfolioItemInput.description data) ""))
          (Z.of_nat existingCount) (Env.now e) (Env.now e)
          (CreatePortfolioItemInput.title data)
          (or_null (CreatePortfolioItemInput.category data)) in
      (Ok item, set_portfolios (fun l => (l ++ [item])%list) s)).
  { unfold PortfolioService.create, PortfolioService.getProviderByUserId.
    unfold_M. rewrite Hprov. fold owned. fold existingCount.
    unfold PortfolioService.MAX_PORTFOLIO_ITEMS.
    destruct (10 <=? Z.of_nat existingCount); reflexivity. }
  split; [|split].
  - intros Hfull. rewrite Hrun.
    destruct (10 <=? Z.of_nat existingCount) eqn:E; [reflexivity|].
    apply Z.leb_gt in E. lia.
  - intros Hroom. rewrite Hrun.
    destruct (10 <=? Z.of_nat existingCount) eqn:E.
    + apply Z.leb_le in E. lia.
    + eexists. split; [reflexivity|]. simpl. auto.
  - intros Hcap providerId. rewrite Hrun.
    destruct (10 <=? Z.of_nat existingCount) eqn:E; [apply Hcap|].
    apply Z.leb_gt in E. cbn [snd set_portfolios portfolios].
    change ((portfolios s ++ [?x])%list) with (db.create (portfolios s) x).
    rewrite count_create. cbn [PortfolioItem.providerId].
    destruct (String.eqb (Provider.id provider) providerId) eqn:Eid.
    + apply String.eqb_eq in Eid. subst providerId.
      fold owned. fold existingCount. lia.
    + specialize (Hcap providerId). lia.
Qed.

Lemma create_portfolio_cap_witness :
  PortfolioService.create (demoEnv 5000 "x") "u1" demoInput (portfolioStore 10)
  = (Err (BadRequestError "Maximum 10 portfolio items allowed"), portfolioStore 10) /\
  (exists item : PortfolioItem.t,
     PortfolioService.create (demoEnv 5000 "x") "u1" demoInput (portfolioStore 2)
     = (Ok item, set_portfolios (fun l => (l ++ [item])%list) (portfolioStore 2)) /\
     PortfolioItem.displayOrder item = 2 /\
     PortfolioItem.providerId item = "p1" /\
     PortfolioItem.id item = "item-x").
Proof.
  split.
  - apply (proj1 (create_portfolio_cap (demoEnv 5000 "x") "u1" demoInput
                    (portfolioStore 10) carol eq_refl)).
    vm_compute. lia.
  - apply (proj1 (proj2 (create_portfolio_cap (demoEnv 5000 "x") "u1" demoInput
                           (portfolioStore 2) carol eq_refl))).
    vm_compute. lia.
Defined.

(** ** The auth rate limiter *)

(** What [countRequest] leaves for the key. *)
Lemma countRequest_running (store : gmap string RateLimitRecord.t) (key : string)
    (now windowMs c R : Z) :
  store !! key = Some (RateLimitRecord.mk c R) ->
  now <= R ->
  countRequest store key now windowMs = RateLimitRecord.mk (c + 1) R.
Proof.
  intros Hrec Hnow. unfold countRequest. rewrite Hrec. simpl.
  destruct (R <? now) eqn:E; [|reflexivity].
  apply Z.ltb_lt in E. lia.
Qed.

Lemma countRequest_fresh (store : gmap string RateLimitRecord.t) (key : string)
    (now windowMs : Z) :
  match store !! key with
  | Some record => RateLimitRecord.resetTime record < now
  | None => True
  end ->
  countRequest store key now windowMs = RateLimitRecord.mk 1 (now + windowMs).
Proof.
  unfold countRequest. destruct (store !! key) as [record|]; [|reflexivity].
  intros Hlt. apply Z.ltb_lt in Hlt. now rewrite Hlt.
Qed.

Lemma authRateLimiter_counts (req : Request.t) (now : Z)
    (store : gmap string RateLimitRecord.t) :
  let key := "auth:" +:+ getClientIp req in
  let record := countRequest store key now 900000 in
  exists headers verdict,
    authRateLimiter req now store = (<[key := record]> store, headers, verdict) /\
    if 10 <? RateLimitRecord.count record then
      (exists message, verdict = Throw (RateLimitError message)) /\
      RateLimitHeaders.retryAfter headers =
        Some (ceil_div (RateLimitRecord.resetTime record - now) 1000)
    else verdict = Next /\ RateLimitHeaders.retryAfter headers = None.
Proof.
  intros key record. unfold authRateLimiter.
  change (15 * 60 * 1000) with 900000. fold key. fold record.
  destruct (10 <? RateLimitRecord.count record); eauto 10.
Qed.

Lemma ceil_div_seconds (x : Z) :
  0 < x <= 900000 -> 1 <= ceil_div x 1000 <= 900.
Proof.
  intros Hx. unfold ceil_div.
  pose proof (Z.div_mod (- x) 1000 ltac:(lia)).
  pose proof (Z.mod_pos_bound (- x) 1000 ltac:(lia)).
  lia.
Qed.

Lemma auth_key_own (ip : string) : inherited ("auth:" +:+ ip) = false.
Proof. reflexivity. Qed.

(** A request counted under another key leaves the record of [key] as it
    was, whichever limiter it goes through. *)
Lemma rateLimiter_other_key {config : Config} (req : Request.t) (now : Z)
    (store : gmap string RateLimitRecord.t) (key : string) :
  getClientIp req <> key ->
  fst (fst (rateLimiter req now store)) !! key = store !! key.
Proof.
  intros Hne. unfold rateLimiter.
  destruct (inherited (getClientIp req)); [simpl; now rewrite lookup_delete_ne|].
  destruct (rateLimit_max <? _); simpl; now rewrite lookup_insert_ne.
Qed.

Lemma limit_other_key {config : Config} (limiter : Limiter) (req : Request.t)
    (now : Z) (store : gmap string RateLimitRecord.t) (key : string) :
  limiterKey limiter req <> key ->
  fst (fst (limit limiter req now store)) !! key = store !! key.
Proof.
  destruct limiter; simpl; intros Hne.
  - now apply rateLimiter_other_key.
  - destruct (authRateLimiter_counts req now store) as (h & v & -> & _).
    simpl. now rewrite lookup_insert_ne.
Qed.

(** The store of the limiters has no property of its own under a name
    of [Object.prototype]: the empty store has none, and no limiter and
    no sweep makes one; on such a store a request under an inherited key
    changes nothing. *)
Lemma ownKeys_limit {config : Config} (limiter : Limiter) (req : Request.t)
    (now sweep : Z) (store : gmap string RateLimitRecord.t) :
  (forall key, inherited key = true -> store !! key = None) ->
  (forall key, inherited key = true ->
     fst (fst (limit limiter req now store)) !! key = None) /\
  (forall key, inherited key = true -> cleanup sweep store !! key = None) /\
  (inherited (getClientIp req) = true ->
   fst (fst (rateLimiter req now store)) = store).
Proof.
  intros Hown. split; [|split].
  - intros key Hkey.
    destruct (String.eqb (limiterKey limiter req) key) eqn:E.
    + apply String.eqb_eq in E. subst key. destruct limiter; simpl in *.
      * unfold rateLimiter. rewrite Hkey. simpl. apply lookup_delete_eq.
      * rewrite auth_key_own in Hkey. discriminate.
    + apply String.eqb_neq in E. rewrite limit_other_key by exact E.
      now apply Hown.
  - intros key Hkey. unfold cleanup. apply map_lookup_filter_None. left.
    now apply Hown.
  - intros Hin. unfold rateLimiter. rewrite Hin. simpl.
    apply delete_id. now apply Hown.
Qed.

(** The requests counted under the auth key of one client while its
    window runs, among any other traffic: number [k] of them brings the
    count to [c + k]. *)
Lemma answersOn_window {config : Config} (ip : string) (R : Z)
    (reqs : list (Limiter * Request.t * Z)) :
  forall (store : gmap string RateLimitRecord.t) (c : Z),
    store !! ("auth:" +:+ ip) = Some (RateLimitRecord.mk c R) ->
    Forall (fun rq =>
              limiterKey (fst (fst rq)) (snd (fst rq)) = "auth:" +:+ ip ->
              fst (fst rq) = Auth /\ R - 900000 <= snd rq < R) reqs ->
    length (snd (answersOn ("auth:" +:+ ip) reqs store)) =
      length (List.filter (fun rq =>
                String.eqb (limiterKey (fst (fst rq)) (snd (fst rq)))
                  ("auth:" +:+ ip)) reqs) /\
    forall (k : nat) (h : RateLimitHeaders.t) (v : Verdict),
      nth_error (snd (answersOn ("auth:" +:+ ip) reqs store)) k = Some (h, v) ->
      if c + Z.of_nat k <? 10 then
        v = Next /\ RateLimitHeaders.retryAfter h = None
      else
        exists (message : string) (retryAfter : Z),
          v = Throw (RateLimitError message) /\
          RateLimitHeaders.retryAfter h = Some retryAfter /\
          1 <= retryAfter <= 900.
Proof.
  induction reqs as [|[[limiter req] now] reqs IH]; intros store c Hrec Hall.
  - split; [reflexivity|]. intros [|k] h v Hk; discriminate Hk.
  - pose proof (Forall_inv Hall) as Hhead.
    pose proof (Forall_inv_tail Hall) as Hall'. cbn [fst snd] in Hhead.
    cbn [answersOn List.filter fst snd].
    destruct (String.eqb (limiterKey limiter req) ("auth:" +:+ ip)) eqn:E.
    + apply String.eqb_eq in E. destruct (Hhead E) as [-> Hnow].
      cbn [limiterKey limit] in *.
      destruct (authRateLimiter_counts req now store) as (h0 & v0 & Hrun & Hv).
      rewrite E in Hrun, Hv.
      rewrite (countRequest_running _ _ now _ c R Hrec ltac:(lia)) in Hrun, Hv.
      cbn [RateLimitRecord.count RateLimitRecord.resetTime] in Hv.
      rewrite Hrun.
      specialize (IH (<["auth:" +:+ ip := RateLimitRecord.mk (c + 1) R]> store) (c + 1)
                    (lookup_insert_eq _ _ _) Hall').
      destruct IH as [Hlen Hres].
      destruct (answersOn ("auth:" +:+ ip) reqs _) as [store'' results].
      cbn [fst snd length] in *. split; [now rewrite Hlen|].
      intros [|k] h v Hk; cbn [nth_error] in Hk.
      * injection Hk as <- <-. rewrite Z.add_0_r.
        destruct (10 <? c + 1) eqn:E1, (c <? 10) eqn:E2;
          try (apply Z.ltb_lt in E1); try (apply Z.ltb_ge in E1);
          try (apply Z.ltb_lt in E2); try (apply Z.ltb_ge in E2); try lia.
        -- destruct Hv as [[message ->] Hretry].
           exists message, (ceil_div (R - now) 1000).
           split; [reflexivity|]. split; [exact Hretry|].
           apply ceil_div_seconds. lia.
        -- exact Hv.
      * specialize (Hres k h v Hk).
        replace (c + Z.of_nat (S k)) with (c + 1 + Z.of_nat k) by lia.
        exact Hres.
    + apply String.eqb_neq in E.
      pose proof (limit_other_key limiter req now store _ E) as Hsame.
      destruct (limit limiter req now store) as [[store' h0] v0].
      cbn [fst] in Hsame. rewrite <- Hsame in Hrec.
      specialize (IH store' c Hrec Hall').
      destruct (answersOn ("auth:" +:+ ip) reqs store') as [store'' results].
      exact IH.
Qed.

(** C7, as the code has it.  A request of a client to an auth endpoint
    opens a window of the auth limiter.  Of the requests counted under
    the key of that client from then on, less than 15 minutes after it,
    with any other traffic through the two limiters in between, the
    first ten are let through and every further one is refused with a
    RateLimitError (429) whose Retry-After is an integer between 1 and
    900.  (The requests under the key are requests to auth endpoints: no
    request through the general limiter names the key as its client.) *)
Theorem authRateLimiter_eleventh_request {config : Config}
    (store : gmap string RateLimitRecord.t) (first : Request.t) (now1 : Z)
    (rest : list (Limiter * Request.t * Z)) :
  match store !! ("auth:" +:+ getClientIp first) with
  | Some record => RateLimitRecord.resetTime record < now1
  | None => True
  end ->
  Forall (fun rq =>
            limiterKey (fst (fst rq)) (snd (fst rq)) = "auth:" +:+ getClientIp first ->
            fst (fst rq) = Auth /\ now1 <= snd rq < now1 + 900000) rest ->
  let answers :=
    snd (answersOn ("auth:" +:+ getClientIp first) ((Auth, first, now1) :: rest) store) in
  length answers =
    S (length (List.filter (fun rq =>
                 String.eqb (limiterKey (fst (fst rq)) (snd (fst rq)))
                   ("auth:" +:+ getClientIp first)) rest)) /\
  forall (k : nat) (h : RateLimitHeaders.t) (v : Verdict),
    nth_error answers k = Some (h, v) ->
    if (k <? 10)%nat then
      v = Next /\ RateLimitHeaders.retryAfter h = None
    else
      exists (err : AppError.t) (retryAfter : Z),
        v = Throw err /\
        AppError.statusCode err = 429 /\
        AppError.code err = "RATE_LIMIT_EXCEEDED" /\
        RateLimitHeaders.retryAfter h = Some retryAfter /\
        1 <= retryAfter <= 900.
Proof.
  intros Hfresh Hall answers. subst answers.
  set (ip := getClientIp first) in *.
  cbn [answersOn limit limiterKey]. fold ip. rewrite String.eqb_refl.
  destruct (authRateLimiter_counts first now1 store) as (h1 & v1 & Hrun1 & Hv1).
  fold ip in Hrun1, Hv1.
  rewrite (countRequest_fresh _ _ _ _ Hfresh) in Hrun1, Hv1.
  cbn [RateLimitRecord.count RateLimitRecord.resetTime] in Hv1.
  change (10 <? 1) with false in Hv1. destruct Hv1 as [-> Hnone].
  rewrite Hrun1.
  destruct (answersOn_window ip (now1 + 900000) rest
              (<["auth:" +:+ ip := RateLimitRecord.mk 1 (now1 + 900000)]> store) 1
              (lookup_insert_eq _ _ _)) as [Hlen Hres].
  { eapply List.Forall_impl; [|exact Hall]. intros rq Hrq Hkey.
    destruct (Hrq Hkey) as [HA Ht]. split; [exact HA | lia]. }
  destruct (answersOn ("auth:" +:+ ip) rest _) as [store'' results].
  cbn [fst snd length] in *. split; [now rewrite Hlen|].
  intros [|k] h v Hk; cbn [nth_error] in Hk.
  - injection Hk as <- <-. split; [reflexivity | exact Hnone].
  - specialize (Hres k h v Hk).
    destruct (Nat.ltb_spec (S k) 10) as [Hlt|Hge].
    + destruct (1 + Z.of_nat k <? 10) eqn:E; [exact Hres|].
      apply Z.ltb_ge in E. lia.
    + destruct (1 + Z.of_nat k <? 10) eqn:E; [apply Z.ltb_lt in E; lia|].
      destruct Hres as (message & retryAfter & -> & Hretry & Hbound).
      exists (RateLimitError message), retryAfter.
      repeat split; try assumption; lia.
Qed.

Lemma authRateLimiter_eleventh_request_witness :
  let rest :=
    flat_map (fun k =>
      [(General, demoRequest, 1000 + 60000 * Z.of_nat k);
       (Auth, demoRequest, 1000 + 60000 * Z.of_nat k);
       (Auth, spoofedRequest, 2000 + 60000 * Z.of_nat k)]) (seq 1 10) in
  let answers :=
    snd (answersOn (config := demoConfig) "auth:203.0.113.7"
           ((Auth, demoRequest, 1000) :: rest) ∅) in
  length answers = 11%nat /\
  forall (k : nat) (h : RateLimitHeaders.t) (v : Verdict),
    nth_error answers k = Some (h, v) ->
    if (k <? 10)%nat then
      v = Next /\ RateLimitHeaders.retryAfter h = None
    else
      exists (err : AppError.t) (retryAfter : Z),
        v = Throw err /\
        AppError.statusCode err = 429 /\
        AppError.code err = "RATE_LIMIT_EXCEEDED" /\
        RateLimitHeaders.retryAfter h = Some retryAfter /\
        1 <= retryAfter <= 900.
Proof.
  apply (authRateLimiter_eleventh_request (config := demoConfig) ∅ demoRequest 1000
           (flat_map (fun k =>
              [(General, demoRequest, 1000 + 60000 * Z.of_nat k);
               (Auth, demoRequest, 1000 + 60000 * Z.of_nat k);
               (Auth, spoofedRequest, 2000 + 60000 * Z.of_nat k)]) (seq 1 10))).
  - rewrite lookup_empty. exact I.
  - cbn [flat_map seq app].
    repeat (apply List.Forall_cons;
            [first [ (intros Hkey; vm_compute in Hkey; discriminate Hkey)
                   | (intros _; split; [reflexivity | simpl; lia]) ] |]).
    apply List.Forall_nil.
Defined.

(** C7, as the specification states it, fails in two ways.  Eleven
    requests of one client to an auth endpoint, the last of them exactly
    15 minutes after the first: the limiter still counts it in the
    window and refuses it, with Retry-After 0.  And ten requests through
    the general limiter that name the auth key of a client in their
    forwarded-for header use up its budget: the first request of that
    client to an auth endpoint is refused. *)
Lemma authRateLimiter_window_edge_and_shared_key :
  (exists (allowed : list (RateLimitHeaders.t * Verdict))
          (headers : RateLimitHeaders.t) (message : string),
     snd (authRequests
            (((demoRequest, 1000) ::
              map (fun k => (demoRequest, 1000 + 60000 * Z.of_nat k)) (seq 1 9)) ++
             [(demoRequest, 1000 + 900000)]) ∅)
       = (allowed ++ [(headers, Throw (RateLimitError message))])%list /\
     length allowed = 10%nat /\
     RateLimitHeaders.retryAfter headers = Some 0) /\
  (exists message : string,
     snd (authRateLimiter demoRequest 5000
            (fst (generalRequests (config := demoConfig)
                    (map (fun k => (spoofedRequest, 1000 + Z.of_nat k)) (seq 0 10)) ∅)))
       = Throw (RateLimitError message)).
Proof.
  split.
  - vm_compute. eexists (_ :: _ :: _ :: _ :: _ :: _ :: _ :: _ :: _ :: _ :: nil), _, _.
    split; [reflexivity|]. split; reflexivity.
  - vm_compute. eexists. reflexivity.
Qed.

(** At the very instant the window ends the limiter still counts the
    request in the old window: a client over the limit is refused with
    Retry-After 0. *)
Lemma authRateLimiter_at_reset_instant (req : Request.t) (c R : Z)
    (store : gmap string RateLimitRecord.t) :
  store !! ("auth:" +:+ getClientIp req) = Some (RateLimitRecord.mk c R) ->
  10 <= c ->
  exists headers message,
    snd (authRateLimiter req R store) = Throw (RateLimitError message) /\
    snd (fst (authRateLimiter req R store)) = headers /\
    RateLimitHeaders.retryAfter headers = Some 0.
Proof.
  intros Hrec Hc.
  destruct (authRateLimiter_counts req R store) as (h & v & Hrun & Hv).
  rewrite (countRequest_running _ _ R _ c R Hrec (Z.le_refl R)) in Hrun, Hv.
  cbn [RateLimitRecord.count RateLimitRecord.resetTime] in Hv.
  destruct (10 <? c + 1) eqn:E; [|apply Z.ltb_ge in E; lia].
  destruct Hv as [[message ->] Hretry].
  rewrite Hrun. exists h, message. repeat split.
  rewrite Hretry, Z.sub_diag. reflexivity.
Qed.

(** The periodic sweep keeps a record whose window has not elapsed. *)
Lemma cleanup_keeps_running (now : Z) (store : gmap string RateLimitRecord.t)
    (key : string) (record : RateLimitRecord.t) :
  store !! key = Some record ->
  now <= RateLimitRecord.resetTime record ->
  cleanup now store !! key = Some record.
Proof.
  intros Hrec Hnow. unfold cleanup.
  apply map_lookup_filter_Some. split; [exact Hrec|]. simpl.
  apply negb_prop_intro. intros Hlt. apply Is_true_true, Z.ltb_lt in Hlt. lia.
Qed.

(** * Further properties *)

(** ** AuthService: wrong codes and the attempt counter *)

Lemma sort_insert_map {T : Type} (cmp : T -> T -> Z) (g : T -> T) (x : T)
    (l : list T) :
  (forall a b, cmp (g a) (g b) = cmp a b) ->
  sort_insert cmp (g x) (map g l) = map g (sort_insert cmp x l).
Proof.
  intros Hg. induction l as [|y l IH]; [reflexivity|]. simpl.
  rewrite Hg. destruct (cmp x y <=? 0); [reflexivity|]. simpl. now rewrite IH.
Qed.

Lemma sort_map {T : Type} (cmp : T -> T -> Z) (g : T -> T) (l : list T) :
  (forall a b, cmp (g a) (g b) = cmp a b) ->
  sort cmp (map g l) = map g (sort cmp l).
Proof.
  intros Hg. induction l as [|x l IH]; [reflexivity|]. simpl.
  rewrite IH. now apply sort_insert_map.
Qed.

Lemma filter_map_same {T : Type} (p : T -> bool) (g : T -> T) (l : list T) :
  (forall a, p (g a) = p a) ->
  List.filter p (map g l) = map g (List.filter p l).
Proof.
  intros Hg. induction l as [|x l IH]; [reflexivity|]. simpl.
  rewrite Hg. destruct (p x); simpl; now rewrite IH.
Qed.

Lemma head_map {A B : Type} (g : A -> B) (l : list A) :
  head (map g l) = option_map g (head l).
Proof. destruct l; reflexivity. Qed.

(** The newest unverified OTP of a user after the attempt counter of the
    record with id [i] has been overwritten. *)
Lemma latestOtpOf_bumped (user : User.t) (s : Store) (i : string) (n : Z)
    (otp : Otp.t) :
  List.NoDup (map Otp.id (otps s)) ->
  AuthService.latestOtpOf user s = Some otp ->
  AuthService.latestOtpOf user
    (set_otps (fun l => db.update l i (withAttempts n)) s) =
  Some (if String.eqb (Otp.id otp) i then withAttempts n otp else otp).
Proof.
  intros Hnd Hlatest. unfold AuthService.latestOtpOf, db.findWhere in *.
  cbn [otps set_otps].
  rewrite (update_unique (H := Otp_HasId) _ _ _ Hnd).
  rewrite filter_map_same, sort_map, head_map, Hlatest; [reflexivity| |].
  - intros a b. destruct (String.eqb (rid a) i), (String.eqb (rid b) i); reflexivity.
  - intros a. destruct (String.eqb (rid a) i); reflexivity.
Qed.

Lemma wrong_code_step {crypto : Crypto} (e : Env.t)
    (identifier : Identifier.t) (otpCode : string) (s : Store) (otp : Otp.t) :
  List.NoDup (map Otp.id (otps s)) ->
  selectedOtp identifier s = Some otp ->
  isOtpExpired (Env.now e) (Otp.expiresAt otp) = false ->
  Otp.attempts otp < 3 ->
  Otp.code otp <> otpCode ->
  let s' := set_otps (fun l =>
              map (fun o => if String.eqb (Otp.id o) (Otp.id otp)
                            then withAttempts (Otp.attempts otp + 1) o else o) l) s in
  AuthService.verifyOtp e identifier otpCode s = (Err (BadRequestError "Invalid OTP"), s') /\
  selectedOtp identifier s' = Some (withAttempts (Otp.attempts otp + 1) otp) /\
  List.NoDup (map Otp.id (otps s')).
Proof.
  intros Hnd Hsel Hexp Hatt Hcode s'.
  unfold selectedOtp in Hsel.
  destruct (AuthService.resolveUser identifier s) as [user|] eqn:Huser; [|discriminate].
  assert (Hs' : s' = set_otps (fun l =>
            db.update l (Otp.id otp) (withAttempts (Otp.attempts otp + 1))) s).
  { unfold s', set_otps. f_equal.
    now rewrite (update_unique (H := Otp_HasId) _ _ _ Hnd). }
  split; [|split].
  - unfold AuthService.verifyOtp. unfold_M. rewrite Huser, Hsel, Hexp.
    apply Z.leb_gt in Hatt. rewrite Hatt.
    apply String.eqb_neq in Hcode. rewrite Hcode. simpl.
    rewrite Hs'. reflexivity.
  - unfold selectedOtp.
    assert (Hres : AuthService.resolveUser identifier s' =
                   AuthService.resolveUser identifier s) by reflexivity.
    rewrite Hres, Huser, Hs'.
    rewrite (latestOtpOf_bumped user s _ _ otp Hnd Hsel).
    now rewrite String.eqb_refl.
  - rewrite Hs'. cbn [otps set_otps].
    rewrite (update_map_fixed (H := Otp_HasId)); [exact Hnd | reflexivity].
Qed.

(** X1.  A wrong code for a live OTP costs one attempt.  [verifyOtp]
    throws BadRequest "Invalid OTP", overwrites the attempt counter of the
    selected record with one more than it was and changes nothing else;
    the record stays the one that the next submission is compared
    with. *)
Theorem verifyOtp_wrong_code {crypto : Crypto} (e : Env.t)
    (identifier : Identifier.t) (otpCode : string) (s : Store) (otp : Otp.t) :
  List.NoDup (map Otp.id (otps s)) ->
  selectedOtp identifier s = Some otp ->
  isOtpExpired (Env.now e) (Otp.expiresAt otp) = false ->
  Otp.attempts otp < 3 ->
  Otp.code otp <> otpCode ->
  let s' := set_otps (fun l =>
              map (fun o => if String.eqb (Otp.id o) (Otp.id otp)
                            then withAttempts (Otp.attempts otp + 1) o else o) l) s in
  AuthService.verifyOtp e identifier otpCode s = (Err (BadRequestError "Invalid OTP"), s') /\
  selectedOtp identifier s' = Some (withAttempts (Otp.attempts otp + 1) otp) /\
  users s' = users s /\ sessions s' = sessions s /\
  length (otps s') = length (otps s).
Proof.
  intros Hnd Hsel Hexp Hatt Hcode s'.
  destruct (wrong_code_step e identifier otpCode s otp Hnd Hsel Hexp Hatt Hcode)
    as (Hrun & Hsel' & _).
  split; [exact Hrun|]. split; [exact Hsel'|].
  split; [reflexivity|]. split; [reflexivity|].
  unfold s'. cbn [otps set_otps]. apply length_map.
Qed.

Lemma verifyOtp_wrong_code_witness :
  AuthService.verifyOtp (crypto := demoCrypto) (demoEnv 5000 "x")
    (byEmail "a@b.com") "000000" demoStore
  = (Err (BadRequestError "Invalid OTP"),
     mkStore [alice; bob] [] [] [aliceOtp 1 false] [aliceSession]).
Proof.
  apply (verifyOtp_wrong_code (crypto := demoCrypto) (demoEnv 5000 "x")
           (byEmail "a@b.com") "000000" demoStore (aliceOtp 0 false)).
  - repeat constructor. simpl. tauto.
  - reflexivity.
  - reflexivity.
  - simpl. lia.
  - discriminate.
Defined.

Lemma lockout_reached {crypto : Crypto} (e : Env.t) (identifier : Identifier.t)
    (otpCode : string) (s : Store) (otp : Otp.t) :
  selectedOtp identifier s = Some otp ->
  isOtpExpired (Env.now e) (Otp.expiresAt otp) = false ->
  3 <= Otp.attempts otp ->
  AuthService.verifyOtp e identifier otpCode s =
    (Err (BadRequestError "Too many failed attempts. Please request a new OTP."), s).
Proof.
  intros Hsel Hexp Hatt. unfold selectedOtp in Hsel.
  destruct (AuthService.resolveUser identifier s) as [user|] eqn:Huser; [|discriminate].
  unfold AuthService.verifyOtp. unfold_M. rewrite Huser, Hsel, Hexp.
  apply Z.leb_le in Hatt. now rewrite Hatt.
Qed.

(** X2.  Enough wrong codes lock the OTP.  When wrong codes are submitted
    one after the other until the attempt counter of the live OTP has
    reached 3, every later submission before the expiry, the right code
    included, is refused with the lockout message and the counter stays
    where it is. *)
Theorem wrong_codes_lock_out {config : Config} {crypto : Crypto}
    (identifier : Identifier.t) (attempts : list (Env.t * string)) :
  forall (s : Store) (otp : Otp.t) (e' : Env.t) (otpCode' : string),
    List.NoDup (map Otp.id (otps s)) ->
    selectedOtp identifier s = Some otp ->
    Forall (fun a => isOtpExpired (Env.now (fst a)) (Otp.expiresAt otp) = false /\
                     snd a <> Otp.code otp) attempts ->
    3 <= Otp.attempts otp + Z.of_nat (length attempts) ->
    isOtpExpired (Env.now e') (Otp.expiresAt otp) = false ->
    let s' := execAll (submissions identifier attempts) s in
    AuthService.verifyOtp e' identifier otpCode' s' =
      (Err (BadRequestError "Too many failed attempts. Please request a new OTP."), s') /\
    selectedOtp identifier s' =
      Some (withAttempts (Z.max 3 (Otp.attempts otp)) otp).
Proof.
  induction attempts as [|[e code] attempts IH];
    intros s otp e' otpCode' Hnd Hsel Hall Hsum Hexp'; cbn zeta.
  - simpl in Hsum. cbn [submissions map execAll].
    assert (Hotp : withAttempts (Z.max 3 (Otp.attempts otp)) otp = otp).
    { rewrite Z.max_r by lia. destruct otp; reflexivity. }
    rewrite Hotp. split; [|exact Hsel].
    now apply lockout_reached with (otp := otp); [| |lia].
  - pose proof (Forall_inv Hall) as [Hexp Hcode]. simpl in Hexp, Hcode.
    pose proof (Forall_inv_tail Hall) as Hall'.
    cbn [submissions map execAll exec fst snd]. fold (submissions identifier attempts).
    destruct (Z.le_gt_cases 3 (Otp.attempts otp)) as [Hlocked|Hopen].
    + rewrite (lockout_reached e identifier code s otp Hsel Hexp Hlocked).
      cbn [snd]. apply IH; try assumption.
      cbn [length] in Hsum. lia.
    + destruct (wrong_code_step e identifier code s otp Hnd Hsel Hexp
                  ltac:(lia) ltac:(congruence)) as (Hrun & Hsel' & Hnd').
      rewrite Hrun. cbn [snd].
      set (s1 := set_otps _ s) in *.
      specialize (IH s1 (withAttempts (Otp.attempts otp + 1) otp) e' otpCode'
                    Hnd' Hsel' Hall').
      cbn [withAttempts Otp.attempts Otp.expiresAt Otp.code length] in IH, Hsum.
      destruct IH as [Hlock Hfinal]; [lia | exact Hexp' |].
      split; [exact Hlock|]. rewrite Hfinal. f_equal.
      unfold withAttempts. cbn. f_equal. lia.
Qed.

Lemma wrong_codes_lock_out_witness :
  let wrong := [(demoEnv 5000 "x", "000000"); (demoEnv 6000 "y", "111111");
                (demoEnv 7000 "z", "222222")] in
  let s' := execAll (config := demoConfig) (crypto := demoCrypto)
              (submissions (byEmail "a@b.com") wrong) demoStore in
  AuthService.verifyOtp (crypto := demoCrypto) (demoEnv 8000 "w")
    (byEmail "a@b.com") "482913" s'
  = (Err (BadRequestError "Too many failed attempts. Please request a new OTP."), s') /\
  selectedOtp (byEmail "a@b.com") s' = Some (aliceOtp 3 false).
Proof.
  intros wrong s'.
  apply (wrong_codes_lock_out (config := demoConfig) (crypto := demoCrypto)
           (byEmail "a@b.com") wrong demoStore (aliceOtp 0 false)
           (demoEnv 8000 "w") "482913").
  - repeat constructor. simpl. tauto.
  - reflexivity.
  - repeat constructor; simpl; discriminate.
  - simpl. lia.
  - reflexivity.
Defined.

(** X3.  [verifyOtp] accepts nothing but the newest.  When it succeeds,
    the submitted code is the code of an unverified, unexpired OTP of the
    resolved user with fewer than 3 attempts, and no unverified OTP of
    that user was created later. *)
Theorem verifyOtp_accepts_newest {crypto : Crypto} (e : Env.t)
    (identifier : Identifier.t) (otpCode : string) (s s' : Store)
    (resp : AuthResponse.t) :
  AuthService.verifyOtp e identifier otpCode s = (Ok resp, s') ->
  exists (user : User.t) (otp : Otp.t),
    AuthService.resolveUser identifier s = Some user /\
    In otp (otps s) /\
    Otp.userId otp = User.id user /\
    Otp.verified otp = false /\
    Otp.code otp = otpCode /\
    Env.now e <= Otp.expiresAt otp /\
    Otp.attempts otp < 3 /\
    forall o : Otp.t,
      In o (otps s) -> Otp.userId o = User.id user -> Otp.verified o = false ->
      Otp.createdAt o <= Otp.createdAt otp.
Proof.
  intros Hok.
  destruct (verifyOtp_accepts e identifier otpCode s s' resp Hok)
    as (otp & Hsel & Hcode & Hexp & Hatt & _).
  unfold selectedOtp in Hsel.
  destruct (AuthService.resolveUser identifier s) as [user|]; [|discriminate].
  exists user, otp.
  destruct (latestOtpOf_unverified user s otp Hsel) as (Hin & Hunv & Huser).
  unfold isOtpExpired in Hexp. apply Z.ltb_ge in Hexp.
  repeat split; try assumption.
  intros o Ho Hou Hov.
  apply (newest_is_max _ otp Hsel).
  unfold db.findWhere. apply filter_In. split; [exact Ho|].
  rewrite Hou, String.eqb_refl, Hov. reflexivity.
Qed.

Lemma verifyOtp_accepts_newest_witness :
  exists (user : User.t) (otp : Otp.t),
    AuthService.resolveUser (byEmail "a@b.com") demoStore = Some user /\
    In otp (otps demoStore) /\
    Otp.userId otp = User.id user /\
    Otp.verified otp = false /\
    Otp.code otp = "482913" /\
    Env.now (demoEnv 5000 "x") <= Otp.expiresAt otp /\
    Otp.attempts otp < 3 /\
    forall o : Otp.t,
      In o (otps demoStore) -> Otp.userId o = User.id user ->
      Otp.verified o = false -> Otp.createdAt o <= Otp.createdAt otp.
Proof.
  apply (verifyOtp_accepts_newest (crypto := demoCrypto) (demoEnv 5000 "x")
           (byEmail "a@b.com") "482913" demoStore
           (snd (AuthService.verifyOtp (crypto := demoCrypto) (demoEnv 5000 "x")
                   (byEmail "a@b.com") "482913" demoStore))
           (AuthResponse.mk
              (TokenPair.mk (demoSign "access" "u1" 5000)
                 (demoSign "refresh" "u1" 5000))
              (AuthUser.mk "u1" (Some "a@b.com") None PROVIDER true) false)).
  reflexivity.
Defined.

(** Only unverified OTPs stand in the way of an older one: once the newer
    OTP has been verified, the code of the older one, sent at the
    registration, is accepted. *)
Example verifyOtp_older_after_newer :
  let verify := AuthService.verifyOtp (crypto := demoCrypto) in
  let s := exec (config := demoConfig) (crypto := demoCrypto)
             (Env.mk 3000 "u9" "s9" "o2" "i9" "777777" "bcrypt$unused")
             (SendEmailOtp "u1" "a@b.com" LOGIN) registeredStore in
  let s1 := snd (verify (demoEnv 5000 "x") (byEmail "a@b.com") "777777" s) in
  map Otp.code (otps s) = ["482913"; "777777"] /\
  fst (verify (demoEnv 5000 "x") (byEmail "a@b.com") "482913" s) =
    Err (BadRequestError "Invalid OTP") /\
  isSome (match fst (verify (demoEnv 5000 "x") (byEmail "a@b.com") "777777" s) with
          | Ok r => Some r | Err _ => None end) = true /\
  isSome (match fst (verify (demoEnv 6000 "y") (byEmail "a@b.com") "482913" s1) with
          | Ok r => Some r | Err _ => None end) = true.
Proof. repeat split. Qed.

(** ** AuthService: phone login *)

Lemma find_app_last {T : Type} (p : T -> bool) (l : list T) (x : T) :
  List.find p (l ++ [x]) =
  match List.find p l with
  | Some y => Some y
  | None => if p x then Some x else None
  end.
Proof.
  induction l as [|y l IH]; simpl; [reflexivity|].
  destruct (p y); [reflexivity | exact IH].
Qed.

Lemma newest_app_last (l : list Otp.t) (x : Otp.t) :
  Forall (fun z => Otp.createdAt z < Otp.createdAt x) l ->
  head (sort AuthService.byCreatedAtDesc (l ++ [x])) = Some x.
Proof.
  induction 1 as [|y l Hy _ IH]; [reflexivity|].
  change ((y :: l) ++ [x])%list with (y :: (l ++ [x]))%list.
  rewrite head_sort_cons, IH. unfold AuthService.byCreatedAtDesc.
  destruct (Otp.createdAt x - Otp.createdAt y <=? 0) eqn:E; [|reflexivity].
  apply Z.leb_le in E. lia.
Qed.

(** What [sendPhoneOtp] does: it never throws, creates the user when no
    user has the phone number, and appends one LOGIN OTP. *)
Lemma sendPhoneOtp_effects {config : Config} (e : Env.t) (phoneNumber : string)
    (s : Store) :
  let found :=
    db.findOne (users s) (fun u => opt_eqb (User.phoneNumber u) phoneNumber) in
  let created :=
    User.mk (Env.userId e) None (Some phoneNumber) None PROVIDER false
      (Env.now e) (Env.now e) None in
  let user := default created found in
  let otpRecord :=
    Otp.mk (Env.otpId e) (User.id user) (Env.otp e) LOGIN
      (getOtpExpiry (Env.now e)) (Env.now e) false 0 in
  AuthService.sendPhoneOtp e phoneNumber s =
    (Ok (SendOtpResult.mk "OTP sent successfully" (Env.otpId e)),
     mkStore
       (match found with Some _ => users s | None => users s ++ [created] end)
       (providers s) (portfolios s) (otps s ++ [otpRecord]) (sessions s)).
Proof.
  intros found created user otpRecord.
  unfold AuthService.sendPhoneOtp. unfold_M. fold found.
  subst user otpRecord. destruct found as [u|]; reflexivity.
Qed.

(** X4.  Phone login goes round.  After [sendPhoneOtp] for a phone
    number, [verifyOtp] with that number and the code that was generated
    succeeds, for the user found or created by the first call, provided
    the second call comes before the expiry and every unverified OTP that
    the user already had is older than the one just sent. *)
Theorem sendPhoneOtp_then_verifyOtp {config : Config} {crypto : Crypto}
    (e1 e2 : Env.t) (phone : string) (s : Store) :
  phone <> "" ->
  let user :=
    default (User.mk (Env.userId e1) None (Some phone) None PROVIDER false
               (Env.now e1) (Env.now e1) None)
      (db.findOne (users s) (fun u => opt_eqb (User.phoneNumber u) phone)) in
  (forall o, In o (otps s) -> Otp.userId o = User.id user ->
             Otp.verified o = false -> Otp.createdAt o < Env.now e1) ->
  Env.now e2 <= getOtpExpiry (Env.now e1) ->
  let s1 := snd (AuthService.sendPhoneOtp e1 phone s) in
  exists (resp : AuthResponse.t) (s2 : Store),
    AuthService.verifyOtp e2 (byPhone phone) (Env.otp e1) s1 = (Ok resp, s2) /\
    AuthResponse.user resp =
      AuthUser.mk (User.id user) (User.email user) (Some phone) (User.role user) true /\
    AuthResponse.tokens resp =
      generateTokenPair (User.id user) (User.role user) (Env.now e2).
Proof.
  intros Hphone user Holder Hexp s1.
  pose proof (sendPhoneOtp_effects e1 phone s) as Hsend. cbn zeta in Hsend.
  fold user in Hsend. subst s1. rewrite Hsend. cbn [snd]. clear Hsend.
  set (found := db.findOne (users s) _) in *.
  set (created := User.mk (Env.userId e1) None (Some phone) None PROVIDER false
                    (Env.now e1) (Env.now e1) None) in *.
  set (otpRecord := Otp.mk (Env.otpId e1) (User.id user) (Env.otp e1) LOGIN
                      (getOtpExpiry (Env.now e1)) (Env.now e1) false 0).
  set (s1 := mkStore _ _ _ _ _).
  assert (Hphoneof : User.phoneNumber user = Some phone).
  { subst user. destruct found as [u|] eqn:Hfound; [|reflexivity].
    apply find_some_In in Hfound as [_ Hp]. simpl.
    destruct (User.phoneNumber u) as [x|]; [|discriminate].
    simpl in Hp. apply String.eqb_eq in Hp. now subst x. }
  assert (Hres : AuthService.resolveUser (byPhone phone) s1 = Some user).
  { unfold AuthService.resolveUser, byPhone. cbn [Identifier.phone truthy].
    apply String.eqb_neq in Hphone. rewrite Hphone. cbn [negb].
    unfold db.findOne in *.
    assert (Hext : forall l,
      List.find (fun u => strict_eqb (User.phoneNumber u) (Some phone)) l =
      List.find (fun u => opt_eqb (User.phoneNumber u) phone) l).
    { intros l. induction l as [|u l IH]; [reflexivity|]. simpl. rewrite IH.
      destruct (User.phoneNumber u); reflexivity. }
    rewrite Hext. subst s1 user. cbn [users].
    destruct found as [u|] eqn:Hfound; [exact Hfound|].
    rewrite find_app_last. fold found. rewrite Hfound. simpl.
    now rewrite String.eqb_refl. }
  assert (Hlatest : AuthService.latestOtpOf user s1 = Some otpRecord).
  { unfold AuthService.latestOtpOf, db.findWhere. subst s1. cbn [otps].
    rewrite List.filter_app. cbn [List.filter otpRecord Otp.userId Otp.verified].
    rewrite String.eqb_refl. cbn [andb negb].
    apply newest_app_last. apply List.Forall_forall. intros o Ho.
    apply filter_In in Ho as [Hin Hq]. apply andb_true_iff in Hq as [Hu Hv].
    apply String.eqb_eq in Hu. apply negb_true_iff in Hv.
    cbn [Otp.createdAt]. now apply Holder. }
  clearbody user.
  unfold AuthService.verifyOtp, AuthService.createSession,
    AuthService.hasProviderFor. unfold_M.
  rewrite Hres, Hlatest. cbn [otpRecord Otp.expiresAt Otp.attempts Otp.code].
  unfold isOtpExpired.
  destruct (getOtpExpiry (Env.now e1) <? Env.now e2) eqn:E;
    [apply Z.ltb_lt in E; lia|].
  change (3 <=? 0) with false. rewrite String.eqb_refl. cbn [negb].
  eexists. eexists. split; [reflexivity|].
  cbn [AuthResponse.user AuthResponse.tokens AuthService.toAuthUser].
  unfold AuthService.toAuthUser. rewrite Hphoneof. split; reflexivity.
Qed.

Lemma sendPhoneOtp_then_verifyOtp_witness :
  let s1 := snd (AuthService.sendPhoneOtp (config := demoConfig)
                   (demoEnv 5000 "x") "9123456780" demoStore) in
  exists (resp : AuthResponse.t) (s2 : Store),
    AuthService.verifyOtp (crypto := demoCrypto) (demoEnv 9000 "y")
      (byPhone "9123456780") "482913" s1 = (Ok resp, s2) /\
    AuthResponse.user resp =
      AuthUser.mk "user-x" None (Some "9123456780") PROVIDER true /\
    AuthResponse.tokens resp =
      generateTokenPair (Crypto := demoCrypto) "user-x" PROVIDER 9000.
Proof.
  apply (sendPhoneOtp_then_verifyOtp (config := demoConfig) (crypto := demoCrypto)
           (demoEnv 5000 "x") (demoEnv 9000 "y") "9123456780" demoStore).
  - discriminate.
  - simpl. intros o [<-|[]] Hu. discriminate Hu.
  - vm_compute. intros H. discriminate H.
Defined.

(** When an older unverified OTP of the user was created in the very same
    millisecond, it stays the one that is compared: the code just sent is
    refused. *)
Example sendPhoneOtp_same_millisecond :
  let s := mkStore [bob] [] []
             [Otp.mk "o9" "u2" "111111" LOGIN 605000 5000 false 0] [] in
  let s1 := snd (AuthService.sendPhoneOtp (config := demoConfig)
                   (demoEnv 5000 "x") "9876543210" s) in
  fst (AuthService.verifyOtp (crypto := demoCrypto) (demoEnv 9000 "y")
         (byPhone "9876543210") "482913" s1)
  = Err (BadRequestError "Invalid OTP").
Proof. reflexivity. Qed.

(** ** AuthService: registration, then login *)

Lemma registerWithEmail_users {config : Config} {crypto : Crypto} (e : Env.t)
    (email password : string) (s : Store) :
  db.findOne (users s) (fun u => opt_eqb (User.email u) email) = None ->
  users (snd (AuthService.registerWithEmail e email password s)) =
  (users s ++
   [User.mk (Env.userId e) (Some email) None (Some (Env.passwordHash e))
      PROVIDER false (Env.now e) (Env.now e) (Some (Env.now e))])%list.
Proof.
  intros Hnone.
  unfold AuthService.registerWithEmail, AuthService.createSession,
    AuthService.sendEmailOtp, AuthService.hasProviderFor.
  unfold_M. rewrite Hnone. reflexivity.
Qed.

(** X5.  Registration, then login.  After [registerWithEmail] for an
    email that no user had, [loginWithEmail] with that email succeeds for
    every password that [comparePassword] accepts against the stored
    hash, returns the new user, still unverified, with tokens minted at
    the time of the login, and fails with "Invalid email or password" for
    every password that it rejects. *)
Theorem register_then_login {config : Config} {crypto : Crypto}
    (e1 e2 : Env.t) (email password attempt : string) (s : Store) :
  db.findOne (users s) (fun u => opt_eqb (User.email u) email) = None ->
  Env.passwordHash e1 <> "" ->
  let s1 := snd (AuthService.registerWithEmail e1 email password s) in
  (comparePassword attempt (Env.passwordHash e1) = true ->
   exists (resp : AuthResponse.t) (s2 : Store),
     AuthService.loginWithEmail e2 email attempt s1 = (Ok resp, s2) /\
     AuthResponse.user resp =
       AuthUser.mk (Env.userId e1) (Some email) None PROVIDER false /\
     AuthResponse.tokens resp =
       generateTokenPair (Env.userId e1) PROVIDER (Env.now e2)) /\
  (comparePassword attempt (Env.passwordHash e1) = false ->
   AuthService.loginWithEmail e2 email attempt s1 =
     (Err (UnauthorizedError "Invalid email or password"), s1)).
Proof.
  intros Hnone Hhash s1.
  pose proof (registerWithEmail_users e1 email password s Hnone) as Husers.
  fold s1 in Husers.
  assert (Hfound :
    db.findOne (users s1) (fun u => opt_eqb (User.email u) email) =
    Some (User.mk (Env.userId e1) (Some email) None (Some (Env.passwordHash e1))
            PROVIDER false (Env.now e1) (Env.now e1) (Some (Env.now e1)))).
  { rewrite Husers. unfold db.findOne in *. rewrite find_app_last, Hnone.
    simpl. now rewrite String.eqb_refl. }
  clearbody s1. apply String.eqb_neq in Hhash.
  split; intros Hcmp.
  - unfold AuthService.loginWithEmail, AuthService.createSession,
      AuthService.hasProviderFor. unfold_M.
    rewrite Hfound. cbn [User.passwordHash]. rewrite Hhash, Hcmp. cbn [negb].
    eexists. eexists. split; [reflexivity|]. split; reflexivity.
  - unfold AuthService.loginWithEmail. unfold_M.
    rewrite Hfound. cbn [User.passwordHash]. rewrite Hhash, Hcmp. reflexivity.
Qed.

Lemma register_then_login_witness :
  let s1 := snd (AuthService.registerWithEmail (config := demoConfig)
                   (crypto := demoCrypto) (demoEnv 5000 "x")
                   "new@x.com" "Secure123" demoStore) in
  (exists (resp : AuthResponse.t) (s2 : Store),
     AuthService.loginWithEmail (crypto := demoCrypto) (demoEnv 9000 "y")
       "new@x.com" "Secure123" s1 = (Ok resp, s2) /\
     AuthResponse.user resp =
       AuthUser.mk "user-x" (Some "new@x.com") None PROVIDER false /\
     AuthResponse.tokens resp =
       generateTokenPair (Crypto := demoCrypto) "user-x" PROVIDER 9000).
Proof.
  apply (proj1 (register_then_login (config := demoConfig) (crypto := demoCrypto)
                  (demoEnv 5000 "x") (demoEnv 9000 "y") "new@x.com" "Secure123"
                  "Secure123" demoStore eq_refl ltac:(discriminate))).
  reflexivity.
Defined.

(** ** AuthService: ending sessions *)

(** X6.  [logout] revokes the token.  After [logout(t)] no session holds
    [t], the sessions holding other tokens are kept in their order,
    users and OTPs are as they were, and [refreshToken(t)] throws
    Unauthorized. *)
Theorem logout_revokes {crypto : Crypto} (token : string) (s : Store) :
  let s' := snd (AuthService.logout token s) in
  tokenFree token s' /\
  sessions s' =
    List.filter (fun x => negb (String.eqb (Session.refreshToken x) token))
      (sessions s) /\
  users s' = users s /\ otps s' = otps s /\
  (tokenFree token s -> s' = s) /\
  forall e : Env.t,
    exists message : string,
      AuthService.refreshToken e token s' = (Err (UnauthorizedError message), s').
Proof.
  intros s'. subst s'. unfold AuthService.logout, modify. cbn [snd].
  assert (Hfree : tokenFree token
            (set_sessions (fun l => db.deleteWhere l (fun x =>
               String.eqb (Session.refreshToken x) token)) s)).
  { unfold tokenFree, db.deleteWhere. cbn [sessions set_sessions].
    apply List.Forall_forall. intros x Hx. apply filter_In in Hx as [_ Hx].
    apply negb_true_iff in Hx. now apply String.eqb_neq. }
  split; [exact Hfree|]. split; [reflexivity|]. split; [reflexivity|].
  split; [reflexivity|]. split.
  - intros Hs. destruct s as [us ps fs os ss]. unfold set_sessions, db.deleteWhere.
    cbn. f_equal. unfold tokenFree in Hs. cbn in Hs.
    apply forallb_filter_id. apply forallb_forall. intros x Hx.
    rewrite List.Forall_forall in Hs. apply negb_true_iff, String.eqb_neq. auto.
  - intros e. destruct (refreshToken_tokenFree e token _ Hfree) as (m & _ & Hm).
    eauto.
Qed.

(** X7.  [logoutAll] ends every session of the user and no other.  When
    each session holds a refresh token of its own, every refresh token
    that a session of the user held then fails with Unauthorized. *)
Theorem logoutAll_revokes {crypto : Crypto} (userId : string) (s : Store) :
  let s' := snd (AuthService.logoutAll userId s) in
  Forall (fun x => Session.userId x <> userId) (sessions s') /\
  (forall x, In x (sessions s') <->
             In x (sessions s) /\ Session.userId x <> userId) /\
  (List.NoDup (map Session.refreshToken (sessions s)) ->
   forall x, In x (sessions s) -> Session.userId x = userId ->
   forall e : Env.t,
     exists message : string,
       AuthService.refreshToken e (Session.refreshToken x) s'
       = (Err (UnauthorizedError message), s')).
Proof.
  intros s'. subst s'. unfold AuthService.logoutAll, modify. cbn [snd].
  set (s' := set_sessions _ s).
  assert (Hin : forall x, In x (sessions s') <->
                          In x (sessions s) /\ Session.userId x <> userId).
  { intros x. unfold s', db.deleteWhere. cbn [sessions set_sessions].
    rewrite filter_In, negb_true_iff, String.eqb_neq. tauto. }
  split; [|split; [exact Hin|]].
  - apply List.Forall_forall. intros x Hx. now apply Hin in Hx.
  - intros Hnd x Hx Hux e.
    assert (Hfree : tokenFree (Session.refreshToken x) s').
    { unfold tokenFree. apply List.Forall_forall. intros y Hy Heq.
      apply Hin in Hy as [Hy Huy]. apply Huy. rewrite <- Hux. f_equal.
      exact (NoDup_map_eq Session.refreshToken (sessions s) y x Hnd Hy Hx Heq). }
    destruct (refreshToken_tokenFree e _ _ Hfree) as (m & _ & Hm). eauto.
Qed.

Lemma logoutAll_revokes_witness :
  exists message : string,
    AuthService.refreshToken (crypto := demoCrypto) (demoEnv 5000 "x")
      (demoSign "refresh" "u1" 1000)
      (snd (AuthService.logoutAll "u1" demoStore))
    = (Err (UnauthorizedError message), snd (AuthService.logoutAll "u1" demoStore)).
Proof.
  apply (proj2 (proj2 (logoutAll_revokes (crypto := demoCrypto) "u1" demoStore))
           ltac:(repeat constructor; simpl; tauto) aliceSession).
  - left. reflexivity.
  - reflexivity.
Defined.

(** ** AuthService: the cleanup jobs *)

Lemma filter_swap {T : Type} (p q : T -> bool) (l : list T) :
  List.filter p (List.filter q l) = List.filter q (List.filter p l).
Proof.
  rewrite !filter_both. apply filter_ext. intros x. apply andb_comm.
Qed.

(** X8.  [cleanupExpiredOtps] deletes exactly the OTPs that
    [isOtpExpired] reports as expired at the clock of the sweep, verified
    or not, and returns how many they were.  It never changes which OTP a
    submission is compared with, as long as that OTP has not expired. *)
Theorem cleanupExpiredOtps_sweep (e : Env.t) (s : Store) :
  let result := AuthService.cleanupExpiredOtps e s in
  let s' := snd result in
  fst result =
    Ok (length (List.filter (fun o => isOtpExpired (Env.now e) (Otp.expiresAt o))
                  (otps s))) /\
  (forall o, In o (otps s') <->
             In o (otps s) /\ isOtpExpired (Env.now e) (Otp.expiresAt o) = false) /\
  users s' = users s /\ sessions s' = sessions s /\
  forall (identifier : Identifier.t) (otp : Otp.t),
    selectedOtp identifier s = Some otp ->
    isOtpExpired (Env.now e) (Otp.expiresAt otp) = false ->
    selectedOtp identifier s' = Some otp.
Proof.
  intros result s'. subst s' result.
  unfold AuthService.cleanupExpiredOtps. unfold_M. cbn [fst snd otps set_otps].
  unfold db.deleteWhere.
  change (fun record : Otp.t => negb (Otp.expiresAt record <? Env.now e))
    with (fun o : Otp.t => negb (isOtpExpired (Env.now e) (Otp.expiresAt o))).
  split; [|split; [|split; [reflexivity|split; [reflexivity|]]]].
  - f_equal. pose proof (filter_length (fun o => isOtpExpired (Env.now e) (Otp.expiresAt o))
                           (otps s)) as Hlen.
    lia.
  - intros o. rewrite filter_In, negb_true_iff. tauto.
  - intros identifier otp Hsel Hexp. unfold selectedOtp in *.
    change (AuthService.resolveUser identifier (set_otps ?f s))
      with (AuthService.resolveUser identifier s).
    destruct (AuthService.resolveUser identifier s) as [user|]; [|discriminate].
    unfold AuthService.latestOtpOf, db.findWhere in *. cbn [otps set_otps].
    rewrite filter_swap. apply newest_of_filter; [exact Hsel|].
    now rewrite Hexp.
Qed.

(** X9.  [cleanupExpiredSessions] deletes exactly the sessions whose
    expiry lies before the clock of the sweep and returns how many they
    were; a session that [refreshToken] would not treat as expired at
    that clock is kept, and the order of the sessions is kept. *)
Theorem cleanupExpiredSessions_sweep (e : Env.t) (s : Store) :
  let result := AuthService.cleanupExpiredSessions e s in
  let s' := snd result in
  fst result =
    Ok (length (List.filter (fun x => Session.expiresAt x <? Env.now e) (sessions s))) /\
  sessions s' =
    List.filter (fun x => negb (Session.expiresAt x <? Env.now e)) (sessions s) /\
  (forall x, In x (sessions s') <->
             In x (sessions s) /\ Env.now e <= Session.expiresAt x) /\
  (length (sessions s') <= length (sessions s))%nat /\
  users s' = users s /\ otps s' = otps s.
Proof.
  intros result s'. subst s' result.
  unfold AuthService.cleanupExpiredSessions. unfold_M.
  cbn [fst snd sessions set_sessions]. unfold db.deleteWhere.
  pose proof (filter_length (fun x => Session.expiresAt x <? Env.now e) (sessions s))
    as Hlen.
  split; [f_equal; lia|]. split; [reflexivity|].
  split; [|split; [lia | split; reflexivity]].
  intros x. rewrite filter_In, negb_true_iff, Z.ltb_ge. tauto.
Qed.

(** ** AuthService: what every call keeps *)

Lemma NoDup_map_filter {T : Type} (f : T -> string) (p : T -> bool) (l : list T) :
  List.NoDup (map f l) -> List.NoDup (map f (List.filter p l)).
Proof.
  induction l as [|x l IH]; intros Hnd; [constructor|].
  inversion Hnd as [|? ? Hnotin Hnd']; subst. simpl.
  destruct (p x); [|auto]. simpl. constructor; [|auto].
  intros Hin. apply Hnotin. apply in_map_iff in Hin as (y & Hy & Hyin).
  apply filter_In in Hyin as [Hyin _]. rewrite <- Hy. now apply in_map.
Qed.

Lemma NoDup_map_create {T : Type} (f : T -> string) (l : list T) (x : T) :
  List.NoDup (map f l) -> ~ In (f x) (map f l) ->
  List.NoDup (map f (db.create l x)).
Proof.
  intros Hnd Hfresh. unfold db.create. rewrite map_app. simpl.
  apply List.NoDup_app; [exact Hnd | repeat constructor; tauto |].
  intros y Hy [<-|[]]. contradiction.
Qed.

Lemma NoDup_map_delete {T : Type} `{HasId T} (l : list T) (i : string) :
  List.NoDup (map rid l) -> List.NoDup (map rid (db.delete l i)).
Proof.
  intros Hnd. rewrite (delete_unique l i Hnd). now apply NoDup_map_filter.
Qed.

(** X10.  Unique ids are kept.  When no two users, OTPs or sessions share
    an id and the ids handed out by [generateId] are not in use, the
    store after any call of [AuthService], returned or thrown, again has
    no two users, OTPs or sessions with one id. *)
Theorem wellKeyed_exec {config : Config} {crypto : Crypto} (e : Env.t)
    (c : Call) (s : Store) :
  wellKeyed s -> freshIds e s -> wellKeyed (exec e c s).
Proof.
  intros (Hu & Ho & Hs) (Hfu & Hfo & Hfs). unfold wellKeyed.
  assert (Hupd : forall (T : Type) (H : HasId T) (l : list T) i (f : T -> T),
    (forall r, rid (f r) = rid r) -> List.NoDup (map rid l) ->
    List.NoDup (map rid (db.update l i f))).
  { intros T H l i f Hf Hnd. now rewrite update_map_fixed. }
  destruct c; run_call; repeat split; try assumption.
  all: try (apply (NoDup_map_create User.id); assumption).
  all: try (apply (NoDup_map_create Otp.id); assumption).
  all: try (apply (NoDup_map_create Session.id); assumption).
  all: try (apply (NoDup_map_filter Otp.id); assumption).
  all: try (apply (NoDup_map_filter Session.id); assumption).
  all: try (apply (NoDup_map_delete (H := Session_HasId)); assumption).
  all: try (apply (Hupd _ User_HasId); [reflexivity | assumption]).
  all: try (apply (Hupd _ Otp_HasId); [reflexivity | assumption]).
  all: try (apply (Hupd _ Session_HasId); [reflexivity | assumption]).
Qed.

Lemma wellKeyed_exec_witness :
  wellKeyed (exec (config := demoConfig) (crypto := demoCrypto) (demoEnv 5000 "x")
               (RegisterWithEmail "new@x.com" "Secure123") demoStore).
Proof.
  apply (wellKeyed_exec (config := demoConfig) (crypto := demoCrypto)).
  - repeat split; repeat constructor; simpl; intuition discriminate.
  - repeat split; simpl; intuition discriminate.
Defined.

Lemma flat_map_update {T B : Type} `{HasId T} (g : T -> list B) (l : list T)
    (i : string) (f : T -> T) :
  (forall r, g (f r) = g r) -> flat_map g (db.update l i f) = flat_map g l.
Proof.
  intros Hf. induction l as [|r l IH]; [reflexivity|].
  rewrite update_cons. destruct (String.eqb (rid r) i); simpl; congruence.
Qed.

Lemma email_not_taken (l : list User.t) (email : string) :
  db.findOne l (fun u => opt_eqb (User.email u) email) = None ->
  ~ In email (emailsOf l).
Proof.
  unfold db.findOne, emailsOf. intros Hnone Hin.
  apply in_flat_map in Hin as (u & Hu & Hin).
  apply (find_none _ _ Hnone) in Hu.
  destruct (User.email u) as [x|]; [|contradiction].
  destruct Hin as [->|[]]. simpl in Hu. rewrite String.eqb_refl in Hu. discriminate.
Qed.

Lemma phone_not_taken (l : list User.t) (phone : string) :
  db.findOne l (fun u => opt_eqb (User.phoneNumber u) phone) = None ->
  ~ In phone (phonesOf l).
Proof.
  unfold db.findOne, phonesOf. intros Hnone Hin.
  apply in_flat_map in Hin as (u & Hu & Hin).
  apply (find_none _ _ Hnone) in Hu.
  destruct (User.phoneNumber u) as [x|]; [|contradiction].
  destruct Hin as [->|[]]. simpl in Hu. rewrite String.eqb_refl in Hu. discriminate.
Qed.

Lemma NoDup_snoc (l : list string) (x : string) :
  List.NoDup l -> ~ In x l -> List.NoDup (l ++ [x]).
Proof.
  intros Hnd Hx. apply List.NoDup_app; [exact Hnd | repeat constructor; tauto |].
  intros y Hy [<-|[]]. contradiction.
Qed.

(** X11.  One account per email address and per phone number.  In a
    store where no two users share an email address or a phone number,
    no call of [AuthService] makes two users share one: registration
    checks the email, [sendPhoneOtp] checks the phone number, and no call
    rewrites either field. *)
Theorem uniqueContacts_exec {config : Config} {crypto : Crypto} (e : Env.t)
    (c : Call) (s : Store) :
  uniqueContacts s -> uniqueContacts (exec e c s).
Proof.
  intros (He & Hp). unfold uniqueContacts.
  destruct c; run_call; split; try assumption.
  all: unfold emailsOf, phonesOf, db.create in *.
  all: try (rewrite flat_map_update; [assumption | reflexivity]).
  all: rewrite flat_map_app; cbn [flat_map User.email User.phoneNumber app];
       rewrite ?app_nil_r; try assumption.
  - apply NoDup_snoc; [assumption|]. now apply email_not_taken.
  - apply NoDup_snoc; [assumption|]. now apply phone_not_taken.
Qed.

Lemma uniqueContacts_exec_witness :
  uniqueContacts (exec (config := demoConfig) (crypto := demoCrypto)
                    (demoEnv 5000 "x") (SendPhoneOtp "9123456780") demoStore).
Proof.
  apply (uniqueContacts_exec (config := demoConfig) (crypto := demoCrypto)).
  split; repeat constructor; simpl; intuition discriminate.
Defined.

(** X12.  Accounts are never removed or rewritten.  Whatever call of
    [AuthService] runs, the users that were in the store stay, in their
    order, with their id, email address, phone number, password hash and
    role; at most one user is added, at the end; and a user that was
    verified stays verified. *)
Theorem credentials_kept {config : Config} {crypto : Crypto} (e : Env.t)
    (c : Call) (s : Store) :
  exists added : list User.t,
    map credentials (users (exec e c s)) =
      (map credentials (users s) ++ map credentials added)%list /\
    (length added <= 1)%nat /\
    Forall2 (fun u u' => User.isVerified u = true -> User.isVerified u' = true)
      (users s) (firstn (length (users s)) (users (exec e c s))).
Proof.
  assert (Hsame : forall l : list User.t,
    Forall2 (fun u u' => User.isVerified u = true -> User.isVerified u' = true) l l).
  { induction l; constructor; auto. }
  assert (Hupd : forall (l : list User.t) i (f : User.t -> User.t),
    (forall u, credentials (f u) = credentials u) ->
    (forall u, User.isVerified u = true -> User.isVerified (f u) = true) ->
    map credentials (db.update l i f) = (map credentials l ++ map credentials [])%list /\
    (length (@nil User.t) <= 1)%nat /\
    Forall2 (fun u u' => User.isVerified u = true -> User.isVerified u' = true)
      l (firstn (length l) (db.update l i f))).
  { intros l i f Hf Hv. simpl. rewrite app_nil_r.
    split; [now apply update_map_fixed|]. split; [lia|].
    assert (Hlen : length (db.update l i f) = length l).
    { rewrite <- (length_map credentials), update_map_fixed by exact Hf.
      apply length_map. }
    rewrite <- Hlen, firstn_all.
    clear Hlen. induction l as [|u l IH]; [constructor|].
    rewrite update_cons. destruct (String.eqb (rid u) i); constructor; auto. }
  assert (Hnone : map credentials (users s) =
                    (map credentials (users s) ++ map credentials [])%list /\
                  (length (@nil User.t) <= 1)%nat /\
                  Forall2 (fun u u' => User.isVerified u = true ->
                                       User.isVerified u' = true)
                    (users s) (firstn (length (users s)) (users s))).
  { simpl. rewrite app_nil_r, firstn_all. auto. }
  assert (Hnew : forall u : User.t,
    map credentials (db.create (users s) u) =
      (map credentials (users s) ++ map credentials [u])%list /\
    (length [u] <= 1)%nat /\
    Forall2 (fun u u' => User.isVerified u = true -> User.isVerified u' = true)
      (users s) (firstn (length (users s)) (db.create (users s) u))).
  { intros u. unfold db.create. rewrite map_app.
    split; [reflexivity|]. split; [simpl; lia|].
    rewrite firstn_app, firstn_all, Nat.sub_diag. simpl. rewrite app_nil_r. auto. }
  destruct c; run_call.
  all: try (exists []; exact Hnone).
  all: try (eexists; apply Hnew).
  all: try (exists []; apply Hupd; [reflexivity | intros u Hu; simpl; auto]).
Qed.

(** ** The rate limiters *)

Lemma rateLimiter_counts {config : Config} (req : Request.t) (now : Z)
    (store : gmap string RateLimitRecord.t) :
  inherited (getClientIp req) = false ->
  let key := getClientIp req in
  let record := countRequest store key now rateLimit_windowMs in
  exists headers verdict,
    rateLimiter req now store = (<[key := record]> store, headers, verdict) /\
    RateLimitHeaders.limit headers = rateLimit_max /\
    RateLimitHeaders.remaining headers =
      Z.max 0 (rateLimit_max - RateLimitRecord.count record) /\
    if rateLimit_max <? RateLimitRecord.count record then
      (exists message, verdict = Throw (RateLimitError message)) /\
      RateLimitHeaders.retryAfter headers =
        Some (ceil_div (RateLimitRecord.resetTime record - now) 1000)
    else verdict = Next /\ RateLimitHeaders.retryAfter headers = None.
Proof.
  intros Hown key record. unfold rateLimiter. rewrite Hown. fold key. fold record.
  destruct (rateLimit_max <? RateLimitRecord.count record); eauto 12.
Qed.

(** A client whose key names a property of [Object.prototype] is never
    counted and never refused. *)
Lemma generalRequests_inherited {config : Config} (ip : string)
    (reqs : list (Request.t * Z)) :
  inherited ip = true ->
  Forall (fun rq => getClientIp (fst rq) = ip) reqs ->
  forall store : gmap string RateLimitRecord.t,
    snd (generalRequests reqs store) =
    map (fun _ => (RateLimitHeaders.mk rateLimit_max NaN NaN None, Next)) reqs.
Proof.
  intros Hin. induction 1 as [|[req now] reqs Hip _ IH]; intros store;
    [reflexivity|].
  simpl in Hip. cbn [generalRequests map]. unfold rateLimiter at 1.
  rewrite Hip, Hin. specialize (IH (base.delete ip store)).
  destruct (generalRequests reqs _) as [store' results]. simpl in *.
  now rewrite IH.
Qed.

(** Requests of one client through the general limiter inside a running
    window: each is counted, passed or not. *)
Lemma generalRequests_run {config : Config} (ip : string) (R : Z)
    (reqs : list (Request.t * Z)) :
  inherited ip = false ->
  forall (store : gmap string RateLimitRecord.t) (c : Z),
    store !! ip = Some (RateLimitRecord.mk c R) ->
    Forall (fun rq => getClientIp (fst rq) = ip /\ snd rq <= R) reqs ->
    fst (generalRequests reqs store) !! ip
      = Some (RateLimitRecord.mk (c + Z.of_nat (length reqs)) R) /\
    length (snd (generalRequests reqs store)) = length reqs /\
    forall (k : nat) (h : RateLimitHeaders.t) (v : Verdict),
      nth_error (snd (generalRequests reqs store)) k = Some (h, v) ->
      RateLimitHeaders.remaining h =
        Z.max 0 (rateLimit_max - (c + Z.of_nat k + 1)) /\
      (v = Next <-> c + Z.of_nat k + 1 <= rateLimit_max).
Proof.
  intros Hown.
  induction reqs as [|[req now] reqs IH]; intros store c Hrec Hall.
  - simpl. rewrite Z.add_0_r. split; [exact Hrec|]. split; [reflexivity|].
    intros [|k] h v Hk; discriminate Hk.
  - pose proof (Forall_inv Hall) as [Hip Hnow].
    pose proof (Forall_inv_tail Hall) as Hall'. simpl in Hip, Hnow.
    cbn [generalRequests].
    destruct (rateLimiter_counts req now store ltac:(now rewrite Hip))
      as (headers & verdict & Hrun & _ & Hrem & Hv).
    rewrite Hrun. rewrite Hip in *.
    rewrite (countRequest_running _ _ now _ c R Hrec Hnow) in *.
    cbn [RateLimitRecord.count RateLimitRecord.resetTime] in Hv, Hrem.
    specialize (IH (<[ip := RateLimitRecord.mk (c + 1) R]> store) (c + 1)).
    destruct IH as (Hrec' & Hlen & Hres); [apply lookup_insert_eq | exact Hall' |].
    destruct (generalRequests reqs _) as [store'' results]; simpl in *.
    rewrite Hrec'. split; [f_equal; f_equal; lia|]. split; [now rewrite Hlen|].
    intros [|k] h v Hk; simpl in Hk.
    + injection Hk as <- <-. split; [rewrite Hrem; f_equal; f_equal; lia|].
      destruct (rateLimit_max <? c + 1) eqn:E.
      * apply Z.ltb_lt in E. destruct Hv as [[m ->] _]. split; [discriminate | lia].
      * apply Z.ltb_ge in E. destruct Hv as [-> _]. split; [lia | reflexivity].
    + destruct (Hres k h v Hk) as [Hr Hiff]. split.
      * rewrite Hr. f_equal. f_equal. lia.
      * rewrite Hiff. lia.
Qed.

(** X13.  The general limiter passes a client's first [max] requests of
    a window and no more, unless the client's key names a property of
    [Object.prototype].  Of the requests of one client of which the first
    opens a window and the others arrive no later than its end, request
    number [k] (from 1) is passed on exactly when [k] is at most
    [config.rateLimit.max], and its X-RateLimit-Remaining header is
    [max - k], or 0 from then on.  A client that sends "constructor",
    "__proto__" or another such name as its forwarded-for address is
    passed on every time, with [NaN] for the remaining requests. *)
Theorem rateLimiter_budget {config : Config}
    (store : gmap string RateLimitRecord.t) (first : Request.t) (now1 : Z)
    (others : list (Request.t * Z)) :
  match store !! getClientIp first with
  | Some record => RateLimitRecord.resetTime record < now1
  | None => True
  end ->
  Forall (fun rq =>
            getClientIp (fst rq) = getClientIp first /\
            snd rq <= now1 + rateLimit_windowMs) others ->
  let results := snd (generalRequests ((first, now1) :: others) store) in
  length results = S (length others) /\
  forall (k : nat) (h : RateLimitHeaders.t) (v : Verdict),
    nth_error results k = Some (h, v) ->
    if inherited (getClientIp first) then
      v = Next /\ RateLimitHeaders.remaining h = NaN
    else
      RateLimitHeaders.remaining h = Z.max 0 (rateLimit_max - Z.of_nat (S k)) /\
      (v = Next <-> Z.of_nat (S k) <= rateLimit_max).
Proof.
  intros Hfresh Hall results. subst results.
  destruct (inherited (getClientIp first)) eqn:Hown.
  { rewrite (generalRequests_inherited (getClientIp first)); [|exact Hown|].
    - split; [now rewrite length_map|].
      intros k h v Hk. rewrite nth_error_map in Hk.
      destruct (nth_error _ k); [|discriminate Hk].
      injection Hk as <- <-. split; reflexivity.
    - constructor; [reflexivity|].
      eapply List.Forall_impl; [|exact Hall]. intros rq [Hip _]. exact Hip. }
  cbn [generalRequests].
  destruct (rateLimiter_counts first now1 store Hown)
    as (h1 & v1 & Hrun & _ & Hrem & Hv).
  rewrite (countRequest_fresh _ _ _ _ Hfresh) in Hrun, Hrem, Hv.
  cbn [RateLimitRecord.count RateLimitRecord.resetTime] in Hrem, Hv.
  rewrite Hrun.
  destruct (generalRequests_run (getClientIp first) (now1 + rateLimit_windowMs)
              others Hown
              (<[getClientIp first := RateLimitRecord.mk 1 (now1 + rateLimit_windowMs)]> store)
              1 (lookup_insert_eq _ _ _) Hall) as (_ & Hlen & Hres).
  destruct (generalRequests others _) as [store' results]; simpl in *.
  split; [now rewrite Hlen|].
  intros [|k] h v Hk; simpl in Hk.
  - injection Hk as <- <-. split; [rewrite Hrem; f_equal; f_equal; lia|].
    destruct (rateLimit_max <? 1) eqn:E.
    + apply Z.ltb_lt in E. destruct Hv as [[m ->] _]. split; [discriminate | lia].
    + apply Z.ltb_ge in E. destruct Hv as [-> _]. split; [lia | reflexivity].
  - destruct (Hres k h v Hk) as [Hr Hiff]. split.
    + rewrite Hr. f_equal. f_equal. lia.
    + rewrite Hiff. lia.
Qed.

Lemma rateLimiter_budget_witness :
  (let results :=
     snd (generalRequests (config := demoConfig)
            [(demoRequest, 1000); (demoRequest, 2000); (demoRequest, 901000)] ∅) in
   length results = 3%nat /\
   forall (k : nat) (h : RateLimitHeaders.t) (v : Verdict),
     nth_error results k = Some (h, v) ->
     RateLimitHeaders.remaining h = Z.max 0 (100 - Z.of_nat (S k)) /\
     (v = Next <-> Z.of_nat (S k) <= 100)) /\
  (let results :=
     snd (generalRequests (config := demoConfig)
            ((Request.mk (Some "constructor") None, 0) ::
             map (fun k => (Request.mk (Some "constructor") None, Z.of_nat k))
               (seq 1 199)) ∅) in
   length results = 200%nat /\
   forall (k : nat) (h : RateLimitHeaders.t) (v : Verdict),
     nth_error results k = Some (h, v) ->
     v = Next /\ RateLimitHeaders.remaining h = NaN).
Proof.
  split.
  - apply (rateLimiter_budget (config := demoConfig) ∅ demoRequest 1000
             [(demoRequest, 2000); (demoRequest, 901000)]).
    + rewrite lookup_empty. exact I.
    + repeat constructor; simpl; lia.
  - apply (rateLimiter_budget (config := demoConfig) ∅
             (Request.mk (Some "constructor") None) 0
             (map (fun k => (Request.mk (Some "constructor") None, Z.of_nat k))
                (seq 1 199))).
    + rewrite lookup_empty. exact I.
    + apply List.Forall_forall. intros rq Hrq.
      apply in_map_iff in Hrq as (k & <- & Hk). apply in_seq in Hk.
      split; [reflexivity | simpl; lia].
Defined.

(** X14.  A window that has elapsed is forgotten.  A request to an auth
    endpoint that arrives after the reset time on record is passed on,
    whatever the count on record was: the limiter starts a new window of
    15 minutes with this request as its first, and announces 9 requests
    remaining. *)
Theorem authRateLimiter_new_window (req : Request.t) (now : Z)
    (store : gmap string RateLimitRecord.t) (record : RateLimitRecord.t) :
  store !! ("auth:" +:+ getClientIp req) = Some record ->
  RateLimitRecord.resetTime record < now ->
  authRateLimiter req now store =
    (<["auth:" +:+ getClientIp req := RateLimitRecord.mk 1 (now + 900000)]> store,
     RateLimitHeaders.mk 10 9 (ceil_div (now + 900000) 1000) None,
     Next).
Proof.
  intros Hrec Hlt. unfold authRateLimiter.
  rewrite (countRequest_fresh store _ now (15 * 60 * 1000)); [reflexivity|].
  rewrite Hrec. exact Hlt.
Qed.

Lemma authRateLimiter_new_window_witness :
  authRateLimiter demoRequest 901001
    {["auth:203.0.113.7" := RateLimitRecord.mk 57 901000]}
  = (<["auth:203.0.113.7" := RateLimitRecord.mk 1 1801001]>
       {["auth:203.0.113.7" := RateLimitRecord.mk 57 901000]},
     RateLimitHeaders.mk 10 9 1802 None, Next).
Proof.
  apply (authRateLimiter_new_window demoRequest 901001
           {["auth:203.0.113.7" := RateLimitRecord.mk 57 901000]}
           (RateLimitRecord.mk 57 901000)).
  - reflexivity.
  - simpl. lia.
Defined.

Lemma countRequest_cleanup (store : gmap string RateLimitRecord.t) (key : string)
    (sweep now windowMs : Z) :
  sweep <= now ->
  countRequest (cleanup sweep store) key now windowMs =
  countRequest store key now windowMs.
Proof.
  intros Hle. unfold countRequest, cleanup.
  destruct (store !! key) as [record|] eqn:Hrec.
  - destruct (RateLimitRecord.resetTime record <? sweep) eqn:E.
    + assert (Hgone : filter (fun kv => negb (RateLimitRecord.resetTime kv.2 <? sweep))
                        store !! key = None).
      { apply map_lookup_filter_None. right. intros x Hx.
        rewrite Hrec in Hx. injection Hx as <-. simpl. rewrite E. simpl. tauto. }
      rewrite Hgone. apply Z.ltb_lt in E.
      destruct (RateLimitRecord.resetTime record <? now) eqn:E'; [reflexivity|].
      apply Z.ltb_ge in E'. lia.
    + assert (Hkept : filter (fun kv => negb (RateLimitRecord.resetTime kv.2 <? sweep))
                        store !! key = Some record).
      { apply map_lookup_filter_Some. split; [exact Hrec|]. simpl. now rewrite E. }
      now rewrite Hkept.
  - assert (Hgone : filter (fun kv => negb (RateLimitRecord.resetTime kv.2 <? sweep))
                      store !! key = None).
    { apply map_lookup_filter_None. left. exact Hrec. }
    now rewrite Hgone.
Qed.

(** X15.  The sweep cannot be observed.  A limiter gives a request the
    same headers and the same verdict whether or not the periodic sweep
    has run at an earlier or equal clock reading, and leaves the same
    record for the client. *)
Theorem cleanup_unobservable {config : Config} (req : Request.t)
    (sweep now : Z) (store : gmap string RateLimitRecord.t) :
  sweep <= now ->
  snd (authRateLimiter req now (cleanup sweep store)) = snd (authRateLimiter req now store) /\
  snd (fst (authRateLimiter req now (cleanup sweep store))) =
    snd (fst (authRateLimiter req now store)) /\
  fst (fst (authRateLimiter req now (cleanup sweep store))) !! ("auth:" +:+ getClientIp req) =
    fst (fst (authRateLimiter req now store)) !! ("auth:" +:+ getClientIp req) /\
  snd (rateLimiter req now (cleanup sweep store)) = snd (rateLimiter req now store) /\
  snd (fst (rateLimiter req now (cleanup sweep store))) =
    snd (fst (rateLimiter req now store)) /\
  fst (fst (rateLimiter req now (cleanup sweep store))) !! getClientIp req =
    fst (fst (rateLimiter req now store)) !! getClientIp req.
Proof.
  intros Hle. unfold authRateLimiter, rateLimiter.
  rewrite !(countRequest_cleanup store _ sweep now _ Hle).
  repeat split;
    repeat match goal with
           | |- context [if ?b then _ else _] => destruct b
           end; simpl; rewrite ?lookup_insert_eq, ?lookup_delete_eq; reflexivity.
Qed.

Lemma cleanup_unobservable_witness :
  snd (authRateLimiter demoRequest 2000
         (cleanup 1500 {["auth:203.0.113.7" := RateLimitRecord.mk 10 1200]}))
  = snd (authRateLimiter demoRequest 2000
           {["auth:203.0.113.7" := RateLimitRecord.mk 10 1200]}).
Proof.
  apply (cleanup_unobservable (config := demoConfig) demoRequest 1500 2000
           {["auth:203.0.113.7" := RateLimitRecord.mk 10 1200]}).
  lia.
Defined.

Lemma authRateLimiter_headers (req : Request.t) (now : Z)
    (store : gmap string RateLimitRecord.t) :
  let record := countRequest store ("auth:" +:+ getClientIp req) now 900000 in
  RateLimitHeaders.limit (snd (fst (authRateLimiter req now store))) = 10 /\
  RateLimitHeaders.remaining (snd (fst (authRateLimiter req now store))) =
    Z.max 0 (10 - RateLimitRecord.count record) /\
  RateLimitHeaders.reset (snd (fst (authRateLimiter req now store))) =
    ceil_div (RateLimitRecord.resetTime record) 1000.
Proof.
  intros record. unfold authRateLimiter.
  change (15 * 60 * 1000) with 900000. fold record.
  destruct (10 <? RateLimitRecord.count record); repeat split.
Qed.

(** X16.  The two limiters share their keys.  The general limiter keys a
    client by what [getClientIp] returns and the auth limiter by
    ["auth:"] followed by it, in one store: requests through the general
    limiter whose forwarded-for header names the auth key of a client are
    counted against the auth budget of that client.  After ten of them in
    one window, the client's own next request to an auth endpoint is
    refused with 429. *)
Theorem forged_header_spends_auth_budget {config : Config}
    (store : gmap string RateLimitRecord.t) (victim forged : Request.t)
    (now1 : Z) (others : list (Request.t * Z)) (now : Z) :
  getClientIp forged = "auth:" +:+ getClientIp victim ->
  match store !! getClientIp forged with
  | Some record => RateLimitRecord.resetTime record < now1
  | None => True
  end ->
  length others = 9%nat ->
  Forall (fun rq =>
            getClientIp (fst rq) = getClientIp forged /\
            snd rq <= now1 + rateLimit_windowMs) others ->
  now <= now1 + rateLimit_windowMs ->
  let store' := fst (generalRequests ((forged, now1) :: others) store) in
  exists (headers : RateLimitHeaders.t) (message : string),
    snd (authRateLimiter victim now store') = Throw (RateLimitError message) /\
    snd (fst (authRateLimiter victim now store')) = headers /\
    RateLimitHeaders.remaining headers = 0 /\
    RateLimitHeaders.retryAfter headers =
      Some (ceil_div (now1 + rateLimit_windowMs - now) 1000).
Proof.
  intros Hkey Hfresh Hlen Hall Hnow store'. subst store'. cbn [generalRequests].
  assert (Hown : inherited (getClientIp forged) = false)
    by (rewrite Hkey; apply auth_key_own).
  destruct (rateLimiter_counts forged now1 store Hown) as (h1 & v1 & Hrun & _).
  rewrite (countRequest_fresh _ _ _ _ Hfresh) in Hrun. rewrite Hrun.
  destruct (generalRequests_run (getClientIp forged) (now1 + rateLimit_windowMs)
              others Hown
              (<[getClientIp forged := RateLimitRecord.mk 1 (now1 + rateLimit_windowMs)]> store)
              1 (lookup_insert_eq _ _ _) Hall) as (Hrec & _).
  destruct (generalRequests others _) as [store' results]; simpl in Hrec. cbn [fst].
  rewrite Hlen, Hkey in Hrec. change (1 + Z.of_nat 9) with 10 in Hrec.
  destruct (authRateLimiter_counts victim now store') as (h & v & Hauth & Hv).
  rewrite (countRequest_running _ _ now _ 10 _ Hrec Hnow) in Hauth, Hv.
  cbn [RateLimitRecord.count RateLimitRecord.resetTime] in Hv.
  change (10 <? 10 + 1) with true in Hv. destruct Hv as [[message ->] Hretry].
  destruct (authRateLimiter_headers victim now store') as (_ & Hrem & _).
  rewrite (countRequest_running _ _ now _ 10 _ Hrec Hnow) in Hrem.
  rewrite Hauth in Hrem. cbn [fst snd RateLimitRecord.count] in Hrem.
  exists h, message. rewrite Hauth. cbn [fst snd].
  split; [reflexivity|]. split; [reflexivity|]. split; [exact Hrem | exact Hretry].
Qed.

Lemma forged_header_spends_auth_budget_witness :
  let store' :=
    fst (generalRequests (config := demoConfig)
           ((spoofedRequest, 1000) ::
            map (fun k => (spoofedRequest, 1000 + Z.of_nat k)) (seq 1 9)) ∅) in
  exists (headers : RateLimitHeaders.t) (message : string),
    snd (authRateLimiter demoRequest 5000 store') = Throw (RateLimitError message) /\
    snd (fst (authRateLimiter demoRequest 5000 store')) = headers /\
    RateLimitHeaders.remaining headers = 0 /\
    RateLimitHeaders.retryAfter headers = Some (ceil_div (1000 + 900000 - 5000) 1000).
Proof.
  apply (forged_header_spends_auth_budget (config := demoConfig) ∅ demoRequest
           spoofedRequest 1000
           (map (fun k => (spoofedRequest, 1000 + Z.of_nat k)) (seq 1 9)) 5000).
  - reflexivity.
  - rewrite lookup_empty. exact I.
  - reflexivity.
  - repeat constructor; simpl; lia.
  - simpl. lia.
Defined.

(** ** The validation and the error middleware *)

Lemma fold_collect (issues : list ZodIssue.t) :
  forall (acc : gmap string (list string)) (p : string),
    fold_left collectIssue issues acc !! p =
    let messages :=
      map ZodIssue.message
        (List.filter (fun i => String.eqb (join (tail (ZodIssue.path i))) p) issues) in
    match messages with
    | [] => acc !! p
    | _ => Some (default [] (acc !! p) ++ messages)%list
    end.
Proof.
  induction issues as [|i issues IH]; intros acc p; [reflexivity|].
  cbn [fold_left List.filter]. rewrite IH. cbn zeta. unfold collectIssue.
  destruct (String.eqb (join (tail (ZodIssue.path i))) p) eqn:E.
  - apply String.eqb_eq in E. subst p. rewrite lookup_insert_eq. cbn [map default].
    destruct (map ZodIssue.message (List.filter _ issues)) as [|m ms].
    + reflexivity.
    + cbn [default id]. rewrite <- List.app_assoc. reflexivity.
  - apply String.eqb_neq in E. rewrite lookup_insert_ne by exact E. reflexivity.
Qed.

(** X17.  [validate] reports every issue.  The field errors handed on
    with the ValidationError hold, under each path (the issue's path
    without its first segment, joined with dots), the messages of all the
    issues of that path in the order of the issues, and nothing under a
    path without issue: no message is dropped and none is made up. *)
Theorem validate_collects_all (issues : list ZodIssue.t) :
  validate (ZodFailure issues) = Some (Thrown.Validation (fieldErrors issues)) /\
  (forall p : string,
     fieldErrors issues !! p =
     match map ZodIssue.message
             (List.filter (fun i => String.eqb (join (tail (ZodIssue.path i))) p)
                issues) with
     | [] => None
     | messages => Some messages
     end) /\
  (forall i : ZodIssue.t,
     In i issues ->
     exists messages,
       fieldErrors issues !! join (tail (ZodIssue.path i)) = Some messages /\
       In (ZodIssue.message i) messages).
Proof.
  assert (Hlookup : forall p : string,
     fieldErrors issues !! p =
     match map ZodIssue.message
             (List.filter (fun i => String.eqb (join (tail (ZodIssue.path i))) p)
                issues) with
     | [] => None
     | messages => Some messages
     end).
  { intros p. unfold fieldErrors. rewrite fold_collect. cbn zeta.
    rewrite lookup_empty. destruct (map ZodIssue.message _); reflexivity. }
  split; [reflexivity|]. split; [exact Hlookup|].
  intros i Hi. rewrite Hlookup.
  assert (Hin : In (ZodIssue.message i)
                  (map ZodIssue.message
                     (List.filter (fun j => String.eqb (join (tail (ZodIssue.path j)))
                                              (join (tail (ZodIssue.path i)))) issues))).
  { apply in_map, filter_In. split; [exact Hi | apply String.eqb_refl]. }
  destruct (map ZodIssue.message _) as [|m ms]; [contradiction|]. eauto.
Qed.

(** X18.  Errors of the services reach the client as 500.  The error
    middleware tests [instanceof] against the [AppError] class that its
    own file declares, and the services throw the classes of
    [errors/AppError.ts]: whatever status the thrown error carries (the
    401 of a failed login, the 409 of a taken email, the 429 of the
    limiters, the 422 of [validate]), the response has status 500 and code
    INTERNAL_ERROR, with the message of the error outside production and
    a fixed one in production, where no stack trace is sent. *)
Theorem errorMiddleware_service_errors {runtime : Runtime} {crypto : Crypto}
    (e : AppError.t) (errors : gmap string (list string)) :
  errorMiddleware (Thrown.App e) =
    ErrorBody.mk 500 "INTERNAL_ERROR"
      (if isProd then "An unexpected error occurred" else AppError.message e)
      None isDev /\
  errorMiddleware (Thrown.Validation errors) =
    ErrorBody.mk 500 "INTERNAL_ERROR"
      (if isProd then "An unexpected error occurred" else "Validation failed")
      None isDev /\
  (isProd = true -> isDev = false) /\
  (forall env email password s err s',
     AuthService.loginWithEmail env email password s = (Err err, s') ->
     AppError.statusCode err = 401 /\
     ErrorBody.status (errorMiddleware (Thrown.App err)) = 500).
Proof.
  split; [reflexivity|]. split; [reflexivity|]. split.
  - unfold isProd, isDev. intros Hprod. apply String.eqb_eq in Hprod.
    rewrite Hprod. reflexivity.
  - intros env email password s err s'.
    unfold AuthService.loginWithEmail, AuthService.createSession,
      AuthService.hasProviderFor. unfold_M.
    repeat case_match; intros [= <- <-] || discriminate; split; reflexivity.
Qed.

(** An error of the class that the middleware declares itself is
    answered with its own status. *)
Example errorMiddleware_own_class :
  errorMiddleware (runtime := productionRuntime)
    (Thrown.MiddlewareApp (UnauthorizedError "Invalid email or password") None)
  = ErrorBody.mk 401 "UNAUTHORIZED" "Invalid email or password" None false /\
  errorMiddleware (runtime := productionRuntime)
    (Thrown.App (UnauthorizedError "Invalid email or password"))
  = ErrorBody.mk 500 "INTERNAL_ERROR" "An unexpected error occurred" None false.
Proof. split; reflexivity. Qed.

(** ** Sorting by a key *)

Lemma sort_insert_perm {T : Type} (cmp : T -> T -> Z) (x : T) (l : list T) :
  Permutation (x :: l) (sort_insert cmp x l).
Proof.
  induction l as [|y l IH]; simpl; [reflexivity|].
  destruct (cmp x y <=? 0); [reflexivity|].
  rewrite perm_swap. now apply perm_skip.
Qed.

Lemma sort_perm {T : Type} (cmp : T -> T -> Z) (l : list T) :
  Permutation l (sort cmp l).
Proof.
  induction l as [|x l IH]; simpl; [reflexivity|].
  rewrite <- sort_insert_perm. now apply perm_skip.
Qed.

Lemma sort_insert_sorted {T : Type} (key : T -> Z) (x : T) (l : list T) :
  Sorted.StronglySorted (fun a b => key a <= key b) l ->
  Sorted.StronglySorted (fun a b => key a <= key b)
    (sort_insert (fun a b => key a - key b) x l).
Proof.
  induction 1 as [|y l Hl IH Hy]; simpl; [repeat constructor|].
  destruct (key x - key y <=? 0) eqn:E.
  - apply Z.leb_le in E.
    constructor; [constructor; assumption|].
    constructor; [lia|]. eapply List.Forall_impl; [|exact Hy].
    intros z Hz. simpl in Hz. lia.
  - apply Z.leb_gt in E. constructor; [exact IH|].
    apply List.Forall_forall. intros z Hz. apply sort_insert_In in Hz as [->|Hz].
    + lia.
    + rewrite List.Forall_forall in Hy. auto.
Qed.

Lemma sort_sorted {T : Type} (key : T -> Z) (l : list T) :
  Sorted.StronglySorted (fun a b => key a <= key b)
    (sort (fun a b => key a - key b) l).
Proof.
  induction l as [|x l IH]; simpl; [constructor|]. now apply sort_insert_sorted.
Qed.



(** ** PortfolioService: listing *)


(** ** PortfolioService: deleting an item *)








(** A list sorted without ties is the only sorted arrangement of its
    elements. *)
Lemma sorted_perm_unique {T : Type} (key : T -> Z) (a b : list T) :
  Sorted.StronglySorted (fun x y => key x < key y) a ->
  Sorted.StronglySorted (fun x y => key x <= key y) b ->
  Permutation a b -> a = b.
Proof.
  intros Ha. revert b. induction Ha as [|x a Ha IH Hx]; intros b Hb Hperm.
  - now apply Permutation_nil in Hperm.
  - destruct Hb as [|y b Hb Hy].
    + symmetry in Hperm. now apply Permutation_nil in Hperm.
    + assert (x = y) as <-.
      { assert (Hxin : In x (y :: b)) by (eapply Permutation_in; [exact Hperm | now left]).
        assert (Hyin : In y (x :: a)).
        { eapply Permutation_in; [symmetry; exact Hperm | now left]. }
        destruct Hxin as [->|Hxin]; [reflexivity|].
        destruct Hyin as [->|Hyin]; [reflexivity|].
        rewrite List.Forall_forall in Hx, Hy.
        specialize (Hx _ Hyin). specialize (Hy _ Hxin). simpl in *. lia. }
      f_equal. apply IH; [exact Hb|]. eapply Permutation_cons_inv. exact Hperm.
Qed.






(** The portfolio of [gappyStore], orders 2, 2, 5, 9, after the item of
    order 5 is deleted: the tie is broken in stored order and the gap
    closed. *)
Example delete_compacts_gappy :
  let s' := snd (PortfolioMethods.delete "u1" "a" gappyStore) in
  map (fun i => (PortfolioItem.id i, PortfolioItem.displayOrder i)) (portfolios s') =
  [("b", 0); ("z", 0); ("c", 1); ("d", 2)].
Proof. reflexivity. Qed.

(** ** PortfolioService: reordering *)

(** Writing display orders moves no record and changes no owner. *)
Lemma findById_update_owner (l : list PortfolioItem.t) (i j : string) (d : Z) :
  option_map PortfolioItem.providerId
    (db.findById (db.update l i (withDisplayOrder d)) j) =
  option_map PortfolioItem.providerId (db.findById l j).
Proof.
  induction l as [|r l IH]; [reflexivity|].
  rewrite (update_cons (H := PortfolioItem_HasId)). unfold db.findById in *.
  destruct (String.eqb (rid r) i); cbn [List.find].
  - change (rid (withDisplayOrder d r)) with (rid r).
    destruct (String.eqb (rid r) j); reflexivity.
  - destruct (String.eqb (rid r) j); [reflexivity | exact IH].
Qed.

Lemma findById_writeOrders_owner (items : list (string * Z))
    (l : list PortfolioItem.t) (j : string) :
  option_map PortfolioItem.providerId (db.findById (writeOrders items l) j) =
  option_map PortfolioItem.providerId (db.findById l j).
Proof.
  revert l. induction items as [|[i d] rest IH]; intros l; [reflexivity|].
  unfold writeOrders in *. cbn [fold_left fst snd].
  now rewrite IH, findById_update_owner.
Qed.

Lemma writeOrders_app (done rest : list (string * Z)) (l : list PortfolioItem.t) :
  writeOrders (done ++ rest) l = writeOrders rest (writeOrders done l).
Proof. apply fold_left_app. Qed.

(** The loop of [reorder] over a request whose items all belong to the
    provider. *)
Lemma reorderEach_ok (provider : Provider.t) (items : list (string * Z)) (s : Store) :
  Forall (fun item =>
            option_map PortfolioItem.providerId
              (db.findById (portfolios s) (fst item)) =
            Some (Provider.id provider)) items ->
  PortfolioMethods.reorderEach provider items s =
  (Ok tt, set_portfolios (writeOrders items) s).
Proof.
  revert s. induction items as [|[itemId displayOrder] rest IH]; intros s Hall.
  - unfold PortfolioMethods.reorderEach, ret, set_portfolios, writeOrders. simpl.
    now destruct s.
  - pose proof (Forall_inv Hall) as Hfind.
    pose proof (Forall_inv_tail Hall) as Hrest. cbn [fst] in Hfind.
    cbn [PortfolioMethods.reorderEach]. unfold bind at 1. unfold gets at 1.
    destruct (db.findById (portfolios s) itemId) as [existing|]; [|discriminate].
    injection Hfind as Hown.
    rewrite Hown, String.eqb_refl. cbn [negb].
    unfold bind at 1. unfold modify at 1.
    rewrite IH.
    + unfold set_portfolios, writeOrders. store_simpl. reflexivity.
    + store_simpl. eapply List.Forall_impl; [|exact Hrest].
      intros [i d] He. cbn [fst] in *. now rewrite findById_update_owner.
Qed.

(** The loop of [reorder] stops at the first item that is missing or
    belongs to someone else; what it wrote before stays written. *)
Lemma reorderEach_stops (provider : Provider.t) (done rest : list (string * Z))
    (itemId : string) (displayOrder : Z) (s : Store) :
  Forall (fun item =>
            option_map PortfolioItem.providerId
              (db.findById (portfolios s) (fst item)) =
            Some (Provider.id provider)) done ->
  option_map PortfolioItem.providerId (db.findById (portfolios s) itemId) <>
    Some (Provider.id provider) ->
  PortfolioMethods.reorderEach provider (done ++ (itemId, displayOrder) :: rest) s =
  (Err (match db.findById (portfolios s) itemId with
        | None => NotFoundError ("Portfolio item " +:+ itemId)
        | Some _ => ForbiddenError "You can only reorder your own portfolio items"
        end),
   set_portfolios (writeOrders done) s).
Proof.
  revert s. induction done as [|[i d] done IH]; intros s Hall Hbad.
  - cbn [app PortfolioMethods.reorderEach]. unfold bind at 1. unfold gets at 1.
    replace (set_portfolios (writeOrders []) s) with s by now destruct s.
    destruct (db.findById (portfolios s) itemId) as [existing|]; [|reflexivity].
    destruct (String.eqb (PortfolioItem.providerId existing) (Provider.id provider))
      eqn:E; [|reflexivity].
    apply String.eqb_eq in E. exfalso. apply Hbad. simpl. now rewrite E.
  - pose proof (Forall_inv Hall) as Hfind.
    pose proof (Forall_inv_tail Hall) as Hrest. cbn [fst] in Hfind.
    rewrite <- app_comm_cons.
    cbn [PortfolioMethods.reorderEach]. unfold bind at 1. unfold gets at 1.
    destruct (db.findById (portfolios s) i) as [existing|] eqn:Ei; [|discriminate].
    injection Hfind as Hown.
    rewrite Hown, String.eqb_refl. cbn [negb].
    unfold bind at 1. unfold modify at 1.
    rewrite IH.
    + store_simpl.
      assert (Hsame : forall A (x y : option A),
                option_map (fun _ => tt) x = option_map (fun _ => tt) y ->
                forall a b : AppError.t,
                  match x with None => a | Some _ => b end =
                  match y with None => a | Some _ => b end).
      { intros A [x|] [y|]; simpl; congruence. }
      f_equal. f_equal. apply Hsame.
      pose proof (findById_update_owner (portfolios s) i itemId d) as Ho.
      destruct (db.findById (db.update _ _ _) itemId),
        (db.findById (portfolios s) itemId); simpl in *; congruence.
    + store_simpl. eapply List.Forall_impl; [|exact Hrest].
      intros [i' d'] He. cbn [fst] in *. now rewrite findById_update_owner.
    + store_simpl. now rewrite findById_update_owner.
Qed.

Lemma findById_update_same (l : list PortfolioItem.t) (i : string) (d : Z) :
  db.findById (db.update l i (withDisplayOrder d)) i =
  option_map (withDisplayOrder d) (db.findById l i).
Proof.
  induction l as [|r l IH]; [reflexivity|].
  rewrite (update_cons (H := PortfolioItem_HasId)). unfold db.findById in *.
  destruct (String.eqb (rid r) i) eqn:E; cbn [List.find].
  - change (rid (withDisplayOrder d r)) with (rid r). now rewrite E.
  - rewrite E. exact IH.
Qed.

(** X21.  [reorder] is not atomic.  When the request lists an item that
    is missing or belongs to another provider, [reorder] throws NotFound
    "Portfolio item <id>", respectively Forbidden, but the display orders
    asked for by the items before it have been written and stay written:
    the item listed just before the offending one has its new display
    order in the store that the failed call leaves. *)
Theorem reorder_not_atomic (userId : string) (provider : Provider.t)
    (done rest : list (string * Z)) (lastId itemId : string)
    (lastOrder displayOrder : Z) (s : Store) :
  db.findOne (providers s) (fun p => String.eqb (Provider.userId p) userId) =
    Some provider ->
  Forall (fun item =>
            option_map PortfolioItem.providerId
              (db.findById (portfolios s) (fst item)) =
            Some (Provider.id provider)) (done ++ [(lastId, lastOrder)])%list ->
  option_map PortfolioItem.providerId (db.findById (portfolios s) itemId) <>
    Some (Provider.id provider) ->
  let items :=
    ((done ++ [(lastId, lastOrder)]) ++ (itemId, displayOrder) :: rest)%list in
  let s' := snd (PortfolioMethods.reorder userId items s) in
  PortfolioMethods.reorder userId items s =
    (Err (match db.findById (portfolios s) itemId with
          | None => NotFoundError ("Portfolio item " +:+ itemId)
          | Some _ => ForbiddenError "You can only reorder your own portfolio items"
          end), s') /\
  portfolios s' = writeOrders (done ++ [(lastId, lastOrder)])%list (portfolios s) /\
  option_map PortfolioItem.displayOrder (db.findById (portfolios s') lastId) =
    Some lastOrder.
Proof.
  intros Hprov Hdone Hbad items s'.
  assert (Hrun : PortfolioMethods.reorder userId items s =
            (Err (match db.findById (portfolios s) itemId with
                  | None => NotFoundError ("Portfolio item " +:+ itemId)
                  | Some _ =>
                      ForbiddenError "You can only reorder your own portfolio items"
                  end),
             set_portfolios (writeOrders (done ++ [(lastId, lastOrder)])%list) s)).
  { unfold PortfolioMethods.reorder, PortfolioService.getProviderByUserId.
    unfold bind at 1. unfold bind at 1. unfold gets at 1. rewrite Hprov.
    unfold ret at 1. unfold bind at 1. unfold items.
    now rewrite (reorderEach_stops provider _ rest itemId displayOrder s Hdone Hbad). }
  unfold s'. rewrite Hrun. cbn [snd]. store_simpl.
  split; [reflexivity|]. split; [reflexivity|].
  rewrite writeOrders_app. unfold writeOrders at 1. cbn [fold_left fst snd].
  rewrite findById_update_same.
  apply List.Forall_app in Hdone as [_ Hlast]. apply Forall_inv in Hlast.
  cbn [fst] in Hlast.
  pose proof (findById_writeOrders_owner done (portfolios s) lastId) as Ho.
  rewrite Hlast in Ho.
  destruct (db.findById (writeOrders done (portfolios s)) lastId); [|discriminate].
  reflexivity.
Qed.

Lemma reorder_not_atomic_witness :
  let items := [("a", 0); ("z", 1); ("b", 2)] in
  let s' := snd (PortfolioMethods.reorder "u1" items gappyStore) in
  PortfolioMethods.reorder "u1" items gappyStore =
    (Err (ForbiddenError "You can only reorder your own portfolio items"), s') /\
  portfolios s' = writeOrders [("a", 0)] (portfolios gappyStore) /\
  option_map PortfolioItem.displayOrder (db.findById (portfolios s') "a") = Some 0.
Proof.
  apply (reorder_not_atomic "u1" carol [] [("b", 2)] "a" "z" 0 1 gappyStore).
  - reflexivity.
  - repeat constructor.
  - simpl. discriminate.
Defined.

Lemma reorderedAs_id (items : list (string * Z)) (r : PortfolioItem.t) :
  PortfolioItem.id (reorderedAs items r) = PortfolioItem.id r /\
  PortfolioItem.providerId (reorderedAs items r) = PortfolioItem.providerId r.
Proof.
  revert r. induction items as [|[i d] rest IH]; intros r; [now split|].
  unfold reorderedAs in *. cbn [fold_left fst snd].
  destruct (String.eqb (PortfolioItem.id r) i); [|apply IH].
  destruct (IH (withDisplayOrder d r)) as [-> ->]. now split.
Qed.

Lemma reorderedAs_notin (items : list (string * Z)) (r : PortfolioItem.t) :
  ~ In (PortfolioItem.id r) (map fst items) -> reorderedAs items r = r.
Proof.
  revert r. induction items as [|[i d] rest IH]; intros r Hnotin; [reflexivity|].
  unfold reorderedAs in *. cbn [fold_left fst snd map] in *.
  destruct (String.eqb (PortfolioItem.id r) i) eqn:E.
  - apply String.eqb_eq in E. exfalso. apply Hnotin. left. now symmetry.
  - apply IH. intros Hin. apply Hnotin. now right.
Qed.

Lemma reorderedAs_in (items : list (string * Z)) (r : PortfolioItem.t) (d : Z) :
  List.NoDup (map fst items) -> In (PortfolioItem.id r, d) items ->
  PortfolioItem.displayOrder (reorderedAs items r) = d.
Proof.
  revert r. induction items as [|[i' d'] rest IH]; intros r Hnd Hin; [destruct Hin|].
  inversion Hnd as [|? ? Hnotin Hnd']; subst.
  unfold reorderedAs in *. cbn [fold_left fst snd] in *.
  destruct Hin as [Heq|Hin].
  - injection Heq as -> ->. rewrite String.eqb_refl.
    change (fold_left _ rest (withDisplayOrder d r))
      with (reorderedAs rest (withDisplayOrder d r)).
    rewrite reorderedAs_notin; [reflexivity | exact Hnotin].
  - destruct (String.eqb (PortfolioItem.id r) i') eqn:E; [|now apply IH].
    apply String.eqb_eq in E. exfalso. apply Hnotin. rewrite <- E.
    apply in_map_iff. now exists (PortfolioItem.id r, d).
Qed.

Lemma writeOrders_unique (items : list (string * Z)) (l : list PortfolioItem.t) :
  List.NoDup (map PortfolioItem.id l) ->
  writeOrders items l = map (reorderedAs items) l.
Proof.
  revert l. induction items as [|[i d] rest IH]; intros l Hnd.
  - unfold writeOrders, reorderedAs. simpl. now rewrite map_id.
  - unfold writeOrders in *. cbn [fold_left fst snd].
    rewrite (update_unique (H := PortfolioItem_HasId) _ _ _ Hnd).
    rewrite IH.
    + rewrite map_map. apply map_ext. intros r. unfold reorderedAs.
      cbn [fold_left fst snd]. reflexivity.
    + rewrite map_map. erewrite map_ext; [exact Hnd|].
      intros r. change (rid r) with (PortfolioItem.id r).
      destruct (String.eqb _ _); reflexivity.
Qed.

(** X22.  A request that [reorder] accepts is carried out.  With unique
    item ids in the store and in the request, and every listed item the
    provider's own, [reorder] returns the provider's listing of the store
    it leaves; every listed item is in it with the display order asked
    for; the listing has the items it had; items that the request does
    not list are not touched. *)
Theorem reorder_applies (userId : string) (provider : Provider.t)
    (items : list (string * Z)) (s : Store) :
  List.NoDup (map PortfolioItem.id (portfolios s)) ->
  List.NoDup (map fst items) ->
  db.findOne (providers s) (fun p => String.eqb (Provider.userId p) userId) =
    Some provider ->
  Forall (fun item =>
            option_map PortfolioItem.providerId
              (db.findById (portfolios s) (fst item)) =
            Some (Provider.id provider)) items ->
  exists (result : list PortfolioItem.t) (s' : Store),
    PortfolioMethods.reorder userId items s = (Ok result, s') /\
    PortfolioMethods.getByProviderId (Provider.id provider) s' = (Ok result, s') /\
    (forall (i : string) (d : Z), In (i, d) items ->
       exists r, In r result /\ PortfolioItem.id r = i /\
                 PortfolioItem.displayOrder r = d) /\
    Permutation (map PortfolioItem.id result)
      (map PortfolioItem.id
         (db.findWhere (portfolios s) (fun item =>
            String.eqb (PortfolioItem.providerId item) (Provider.id provider)))) /\
    (forall r, In r (portfolios s) -> ~ In (PortfolioItem.id r) (map fst items) ->
       In r (portfolios s')) /\
    users s' = users s /\ providers s' = providers s /\
    otps s' = otps s /\ sessions s' = sessions s.
Proof.
  intros Hnd Hreq Hprov Hall.
  set (own := fun item : PortfolioItem.t =>
                String.eqb (PortfolioItem.providerId item) (Provider.id provider)).
  set (l' := writeOrders items (portfolios s)).
  assert (Hl' : l' = map (reorderedAs items) (portfolios s))
    by now apply writeOrders_unique.
  exists (sort PortfolioMethods.byDisplayOrder (List.filter own l')),
    (set_portfolios (writeOrders items) s).
  split.
  { unfold PortfolioMethods.reorder, PortfolioService.getProviderByUserId.
    unfold bind at 1. unfold bind at 1. unfold gets at 1. rewrite Hprov.
    unfold ret at 1. unfold bind at 1. rewrite (reorderEach_ok provider items s Hall).
    unfold PortfolioMethods.getMyPortfolio, PortfolioService.getProviderByUserId.
    unfold bind, gets, ret. store_simpl. rewrite Hprov. reflexivity. }
  split; [reflexivity|]. split; [|split; [|split; [|repeat split]]].
  - intros i d Hin.
    rewrite List.Forall_forall in Hall. specialize (Hall _ Hin). cbn [fst] in Hall.
    destruct (db.findById (portfolios s) i) as [e|] eqn:Ee; [|discriminate].
    injection Hall as Hown. apply find_some in Ee as [Hein Heid].
    apply String.eqb_eq in Heid. change (rid e) with (PortfolioItem.id e) in Heid.
    subst i. exists (reorderedAs items e).
    split; [|split; [apply reorderedAs_id | now apply reorderedAs_in]].
    apply sort_In. apply filter_In. split.
    + rewrite Hl'. now apply in_map.
    + unfold own. rewrite (proj2 (reorderedAs_id items e)), Hown.
      apply String.eqb_refl.
  - rewrite <- sort_perm. rewrite Hl'.
    rewrite filter_map_same by (intros a; unfold own;
      now rewrite (proj2 (reorderedAs_id items a))).
    rewrite map_map. unfold db.findWhere. fold own.
    erewrite map_ext; [reflexivity|]. intros a. apply reorderedAs_id.
  - intros r Hr Hnotin. store_simpl. fold l'. rewrite Hl'.
    rewrite <- (reorderedAs_notin items r Hnotin). now apply in_map.
Qed.

Lemma reorder_applies_witness :
  exists (result : list PortfolioItem.t) (s' : Store),
    PortfolioMethods.reorder "u1" [("d", 0); ("a", 1)] gappyStore = (Ok result, s') /\
    PortfolioMethods.getByProviderId "p1" s' = (Ok result, s') /\
    (forall (i : string) (d : Z), In (i, d) [("d", 0); ("a", 1)] ->
       exists r, In r result /\ PortfolioItem.id r = i /\
                 PortfolioItem.displayOrder r = d) /\
    Permutation (map PortfolioItem.id result)
      (map PortfolioItem.id
         (db.findWhere (portfolios gappyStore) (fun item =>
            String.eqb (PortfolioItem.providerId item) "p1"))) /\
    (forall r, In r (portfolios gappyStore) ->
       ~ In (PortfolioItem.id r) (map fst [("d", 0); ("a", 1)]) ->
       In r (portfolios s')) /\
    users s' = users gappyStore /\ providers s' = providers gappyStore /\
    otps s' = otps gappyStore /\ sessions s' = sessions gappyStore.
Proof.
  apply (reorder_applies "u1" carol [("d", 0); ("a", 1)] gappyStore).
  - repeat constructor; simpl; intuition discriminate.
  - repeat constructor; simpl; intuition discriminate.
  - reflexivity.
  - repeat constructor.
Defined.

(** ** generateUniqueSlug *)

Lemma uniqueSlugLoop_finds (n fuel : nat) (now : Z) (baseSlug slug : string)
    (c : nat) (records : list Provider.t) :
  (1 <= c)%nat -> (c + n = 100)%nat -> (n < fuel)%nat ->
  uniqueSlugLoop fuel now baseSlug slug (Z.of_nat c) records =
  Some (default (suffixed baseSlug now)
          (List.find (fun slug => negb (isSome (db.findOne records (fun p =>
                        String.eqb (Provider.slug p) slug))))
             (slug :: map (fun k => suffixed baseSlug (Z.of_nat k)) (seq c n)))).
Proof.
  revert fuel slug c. induction n as [|n IH]; intros fuel slug c Hc Hsum Hfuel.
  - destruct fuel as [|fuel]; [lia|]. cbn [uniqueSlugLoop seq map List.find].
    destruct (db.findOne records _) as [p|]; cbn [isSome negb]; [|reflexivity].
    assert ((Z.of_nat c + 1 >? 100) = true) as -> by (apply Z.gtb_lt; lia).
    reflexivity.
  - destruct fuel as [|fuel]; [lia|]. cbn [uniqueSlugLoop seq map List.find].
    destruct (db.findOne records _) as [p|]; cbn [isSome negb]; [|reflexivity].
    assert ((Z.of_nat c + 1 >? 100) = false) as ->.
    { destruct (Z.gtb_spec (Z.of_nat c + 1) 100); [lia | reflexivity]. }
    replace (Z.of_nat c + 1) with (Z.of_nat (S c)) by lia.
    rewrite (IH fuel (suffixed baseSlug (Z.of_nat c)) (S c)); [reflexivity|lia..].
Qed.

Lemma generateUniqueSlug_run (fuel : nat) (generateSlug : string -> string)
    (now : Z) (businessName : string) (s : Store) :
  (100 <= fuel)%nat ->
  generateUniqueSlug fuel generateSlug now businessName s =
  (Ok (Some (default (suffixed (generateSlug businessName) now)
               (List.find (fun slug => negb (isSome (db.findOne (providers s)
                             (fun p => String.eqb (Provider.slug p) slug))))
                  (slugCandidates (generateSlug businessName))))), s).
Proof.
  intros Hfuel. unfold generateUniqueSlug, gets.
  pose proof (uniqueSlugLoop_finds 99 fuel now (generateSlug businessName)
                (generateSlug businessName) 1 (providers s)) as Hloop.
  change (Z.of_nat 1) with 1 in Hloop. rewrite Hloop; [reflexivity|lia..].
Qed.

Lemma first_free_candidate (free : string -> bool) (candidates : list string)
    (fallback : string) :
  (exists candidate, In candidate candidates /\ free candidate = true) ->
  In (default fallback (List.find free candidates)) candidates /\
  free (default fallback (List.find free candidates)) = true.
Proof.
  intros (candidate & Hin & Hfree).
  destruct (List.find free candidates) as [slug|] eqn:E.
  - apply find_some in E. exact E.
  - apply (find_none _ _ E) in Hin. congruence.
Qed.

(** X23.  What [generateUniqueSlug] returns.  The loop ends within 100
    rounds.  It returns the first slug that no provider has among the base
    slug and the base slug with the suffixes -1 to -99, in this order;
    when all of them are taken it returns the base slug with the current
    time as suffix, without looking it up: this slug, alone, may be one
    that a provider has already.  The suffix -100 is never tried. *)
Theorem generateUniqueSlug_result (fuel : nat) (generateSlug : string -> string)
    (now : Z) (businessName : string) (s : Store) :
  (100 <= fuel)%nat ->
  let baseSlug := generateSlug businessName in
  let free := fun slug : string =>
    negb (isSome (db.findOne (providers s) (fun p =>
            String.eqb (Provider.slug p) slug))) in
  exists slug : string,
    generateUniqueSlug fuel generateSlug now businessName s = (Ok (Some slug), s) /\
    slug = default (suffixed baseSlug now)
             (List.find free (slugCandidates baseSlug)) /\
    ((exists candidate, In candidate (slugCandidates baseSlug) /\
                        free candidate = true) ->
     In slug (slugCandidates baseSlug) /\ free slug = true) /\
    (Forall (fun candidate => free candidate = false) (slugCandidates baseSlug) ->
     slug = suffixed baseSlug now).
Proof.
  intros Hfuel baseSlug free.
  exists (default (suffixed baseSlug now) (List.find free (slugCandidates baseSlug))).
  split; [|split; [reflexivity|split]].
  - now apply generateUniqueSlug_run.
  - apply first_free_candidate.
  - intros Hall.
    destruct (List.find free (slugCandidates baseSlug)) as [slug|] eqn:E;
      [|reflexivity].
    apply find_some in E as [Hin Hfree].
    rewrite List.Forall_forall in Hall. apply Hall in Hin. congruence.
Qed.

Lemma generateUniqueSlug_result_witness :
  exists slug : string,
    generateUniqueSlug 100 (fun name => "kumar-carpentry") 7000 "Kumar Carpentry"
      marketStore = (Ok (Some slug), marketStore) /\
    slug = "kumar-carpentry-1".
Proof.
  destruct (generateUniqueSlug_result 100 (fun name => "kumar-carpentry") 7000
              "Kumar Carpentry" marketStore (le_n 100))
    as (slug & Hrun & Hslug & _).
  exists slug. split; [exact Hrun|]. rewrite Hslug. reflexivity.
Defined.

(** ** ProviderService *)

Ltac providers_simpl :=
  cbn [users providers portfolios otps sessions set_providers set_portfolios] in *.

(** X24.  One profile per user.  For a user without a profile,
    [ProviderService.create] appends a profile that is active, not
    verified, has no views and carries the slug that [generateUniqueSlug]
    chose; for the same user every later [create] throws Conflict and
    writes nothing.  No user then has two profiles if none had before, and
    no two profiles share a slug if none did and a candidate slug was
    free.  Users and portfolios are not touched. *)
Theorem provider_create_once (fuel : nat) (generateSlug : string -> string)
    (now : Z) (newId userId : string) (data : CreateProviderInput.t) (s : Store) :
  (100 <= fuel)%nat ->
  db.findOne (providers s) (fun p => String.eqb (Provider.userId p) userId) = None ->
  let candidates := slugCandidates (generateSlug (CreateProviderInput.businessName data)) in
  let free := fun slug : string =>
    negb (isSome (db.findOne (providers s) (fun p =>
            String.eqb (Provider.slug p) slug))) in
  exists (p : Provider.t) (s' : Store),
    ProviderService.create fuel generateSlug now newId userId data s =
      (Ok (Some p), s') /\
    providers s' = (providers s ++ [p])%list /\
    Provider.id p = newId /\ Provider.userId p = userId /\
    Provider.isActive p = true /\ Provider.isVerified p = false /\
    Provider.profileViews p = 0 /\
    Provider.slug p =
      default (suffixed (generateSlug (CreateProviderInput.businessName data)) now)
        (List.find free candidates) /\
    (forall (fuel' : nat) (now' : Z) (newId' : string) (data' : CreateProviderInput.t),
       ProviderService.create fuel' generateSlug now' newId' userId data' s' =
       (Err (ConflictError "Provider profile already exists"), s')) /\
    (List.NoDup (map Provider.userId (providers s)) ->
     List.NoDup (map Provider.userId (providers s'))) /\
    (List.NoDup (map Provider.slug (providers s)) ->
     (exists candidate, In candidate candidates /\ free candidate = true) ->
     List.NoDup (map Provider.slug (providers s'))) /\
    users s' = users s /\ portfolios s' = portfolios s /\
    otps s' = otps s /\ sessions s' = sessions s.
Proof.
  intros Hfuel Hnone candidates free.
  pose proof (generateUniqueSlug_run fuel generateSlug now
                (CreateProviderInput.businessName data) s Hfuel) as Hslug.
  fold candidates in Hslug. fold free in Hslug.
  set (slug := default
         (suffixed (generateSlug (CreateProviderInput.businessName data)) now)
         (List.find free candidates)) in *.
  assert (Hdef : slug = default
            (suffixed (generateSlug (CreateProviderInput.businessName data)) now)
            (List.find free candidates)) by reflexivity.
  pose proof (first_free_candidate free candidates
                (suffixed (generateSlug (CreateProviderInput.businessName data)) now))
    as Hfree.
  fold slug in Hfree.
  eexists. eexists. split.
  { unfold ProviderService.create. unfold bind at 1. unfold gets at 1.
    rewrite Hnone. cbn [isSome]. unfold bind at 1. rewrite Hslug.
    unfold bind, modify, ret. reflexivity. }
  providers_simpl. unfold db.create.
  split; [reflexivity|]. do 5 (split; [reflexivity|]).
  split; [exact Hdef|]. split; [|split; [|split; [|repeat split]]].
  - intros fuel' now' newId' data'.
    unfold ProviderService.create. unfold bind at 1. unfold gets at 1.
    providers_simpl. unfold db.findOne in *. rewrite find_app_last, Hnone.
    cbn [Provider.userId]. rewrite String.eqb_refl. reflexivity.
  - intros Hnd. rewrite map_app. apply NoDup_snoc; [exact Hnd|].
    cbn [map Provider.userId]. intros Hin.
    apply in_map_iff in Hin as (q & Hq & Hqin).
    apply (find_none _ _ Hnone) in Hqin. rewrite Hq, String.eqb_refl in Hqin.
    discriminate.
  - intros Hnd Hex. rewrite map_app. apply NoDup_snoc; [exact Hnd|].
    cbn [map Provider.slug]. intros Hin.
    apply in_map_iff in Hin as (q & Hq & Hqin).
    destruct (Hfree Hex) as [_ Hslugfree]. unfold free in Hslugfree.
    destruct (db.findOne (providers s)
                (fun p => String.eqb (Provider.slug p) slug)) as [x|] eqn:E;
      [discriminate|].
    apply (find_none _ _ E) in Hqin. rewrite Hq, String.eqb_refl in Hqin.
    discriminate.
Qed.

Lemma provider_create_once_witness :
  exists (p : Provider.t) (s' : Store),
    ProviderService.create 100 (fun name => "kumar-carpentry") 7000 "p3" "u3"
      (CreateProviderInput.mk "Kumar Carpentry" CARPENTER "Pune" "9876543210"
         None (Some "")) marketStore = (Ok (Some p), s') /\
    providers s' = [carol; dave; p] /\
    Provider.slug p = "kumar-carpentry-1" /\
    Provider.description p = None.
Proof.
  destruct (provider_create_once 100 (fun name => "kumar-carpentry") 7000 "p3" "u3"
              (CreateProviderInput.mk "Kumar Carpentry" CARPENTER "Pune"
                 "9876543210" None (Some "")) marketStore (le_n 100) eq_refl)
    as (p & s' & Hrun & Hprov & _ & _ & _ & _ & _ & Hslug & _).
  exists p, s'. split; [exact Hrun|]. split; [exact Hprov|]. split; [exact Hslug|].
  vm_compute in Hrun. injection Hrun as <- _. reflexivity.
Defined.

Lemma find_map_same {T : Type} (p : T -> bool) (g : T -> T) (l : list T) :
  (forall r, p (g r) = p r) ->
  List.find p (map g l) = option_map g (List.find p l).
Proof.
  intros Hg. induction l as [|r l IH]; [reflexivity|]. simpl.
  rewrite Hg. destruct (p r); [reflexivity | exact IH].
Qed.

Lemma findById_In {T : Type} `{HasId T} (l : list T) (r : T) :
  List.NoDup (map rid l) -> In r l -> db.findById l (rid r) = Some r.
Proof.
  intros Hnd Hin. unfold db.findById.
  destruct (List.find _ l) as [q|] eqn:E.
  - apply find_some in E as [Hq Hid]. apply String.eqb_eq in Hid.
    f_equal. now apply (NoDup_map_eq rid l).
  - apply (find_none _ _ E) in Hin. rewrite String.eqb_refl in Hin. discriminate.
Qed.

Lemma withProfileViews_same (p : Provider.t) :
  withProfileViews (Provider.profileViews p) p = p.
Proof. destruct p; reflexivity. Qed.

(** One view of a profile. *)
Lemma getBySlug_step (slug : string) (viewerId : option string) (p : Provider.t)
    (s : Store) :
  List.NoDup (map Provider.id (providers s)) ->
  db.findOne (providers s) (fun q =>
    String.eqb (Provider.slug q) slug && Provider.isActive q) = Some p ->
  let inc := if strict_eqb (Some (Provider.userId p)) viewerId then 0 else 1 in
  let items := sort PortfolioMethods.byDisplayOrder
                 (db.findWhere (portfolios s) (fun item =>
                    String.eqb (PortfolioItem.providerId item) (Provider.id p))) in
  let bump := fun q : Provider.t =>
    if String.eqb (Provider.id q) (Provider.id p) then
      withProfileViews (Provider.profileViews p + inc) q
    else q in
  ProviderService.getBySlug slug viewerId s =
    (Ok (ProviderWithPortfolio.mk p items), set_providers (map bump) s) /\
  db.findOne (map bump (providers s)) (fun q =>
    String.eqb (Provider.slug q) slug && Provider.isActive q) =
    Some (withProfileViews (Provider.profileViews p + inc) p).
Proof.
  intros Hnd Hfind inc items bump.
  assert (Hin : In p (providers s)) by (apply find_some in Hfind; tauto).
  split.
  - unfold ProviderService.getBySlug. unfold bind at 1. unfold gets at 1.
    rewrite Hfind. unfold bind at 1. unfold gets at 1. fold items.
    unfold bind, modify, ret. unfold bump, inc.
    destruct (strict_eqb (Some (Provider.userId p)) viewerId); cbn [negb].
    + f_equal. unfold set_providers.
      replace (map _ (providers s)) with (providers s); [now destruct s|].
      rewrite <- (map_id (providers s)) at 1. apply map_ext_in. intros q Hq.
      destruct (String.eqb (Provider.id q) (Provider.id p)) eqn:E; [|reflexivity].
      apply String.eqb_eq in E.
      assert (q = p) as -> by (apply (NoDup_map_eq Provider.id (providers s)); assumption).
      rewrite Z.add_0_r. symmetry. apply withProfileViews_same.
    + f_equal. unfold set_providers. f_equal.
      apply (update_unique (H := Provider_HasId)). exact Hnd.
  - unfold db.findOne in *. rewrite find_map_same.
    + rewrite Hfind. cbn [option_map]. unfold bump. now rewrite String.eqb_refl.
    + intros q. unfold bump.
      destruct (String.eqb (Provider.id q) (Provider.id p)); reflexivity.
Qed.

(** X25.  The view counter counts the views of others.  With unique
    provider ids, [n] views of an active profile through its slug by
    someone who is not the owner, or by nobody in particular, raise
    [profileViews] by [n]; views by the owner raise it by nothing.  Each
    response carries the count as it was before that view.  Other
    providers and the portfolios are not touched. *)
Theorem getBySlug_counts_views (n : nat) (slug : string)
    (viewerId : option string) (p : Provider.t) (s : Store) :
  List.NoDup (map Provider.id (providers s)) ->
  db.findOne (providers s) (fun q =>
    String.eqb (Provider.slug q) slug && Provider.isActive q) = Some p ->
  let inc := if strict_eqb (Some (Provider.userId p)) viewerId then 0 else 1 in
  let items := sort PortfolioMethods.byDisplayOrder
                 (db.findWhere (portfolios s) (fun item =>
                    String.eqb (PortfolioItem.providerId item) (Provider.id p))) in
  exists s' : Store,
    views n slug viewerId s =
      (Ok (map (fun k => ProviderWithPortfolio.mk
                           (withProfileViews
                              (Provider.profileViews p + Z.of_nat k * inc) p)
                           items) (seq 0 n)), s') /\
    providers s' =
      map (fun q => if String.eqb (Provider.id q) (Provider.id p) then
                      withProfileViews (Provider.profileViews p + Z.of_nat n * inc) q
                    else q) (providers s) /\
    users s' = users s /\ portfolios s' = portfolios s /\
    otps s' = otps s /\ sessions s' = sessions s.
Proof.
  revert p s. induction n as [|n IH]; intros p s Hnd Hfind inc items.
  - exists s. split; [reflexivity|]. split; [|repeat split].
    rewrite <- (map_id (providers s)) at 1. apply map_ext_in. intros q Hq.
    destruct (String.eqb (Provider.id q) (Provider.id p)) eqn:E; [|reflexivity].
    apply String.eqb_eq in E. apply find_some in Hfind as [Hin _].
    assert (q = p) as -> by (apply (NoDup_map_eq Provider.id (providers s)); assumption).
    rewrite Z.add_0_r. symmetry. apply withProfileViews_same.
  - destruct (getBySlug_step slug viewerId p s Hnd Hfind) as [Hstep Hnext].
    fold inc in Hstep, Hnext. fold items in Hstep.
    set (bump := fun q : Provider.t =>
           if String.eqb (Provider.id q) (Provider.id p) then
             withProfileViews (Provider.profileViews p + inc) q
           else q) in *.
    set (p1 := withProfileViews (Provider.profileViews p + inc) p) in *.
    assert (Hnd1 : List.NoDup (map Provider.id (providers (set_providers (map bump) s)))).
    { providers_simpl. rewrite map_map. erewrite map_ext; [exact Hnd|].
      intros q. unfold bump. destruct (String.eqb _ _); reflexivity. }
    destruct (IH p1 (set_providers (map bump) s) Hnd1 Hnext)
      as (s' & Hrun & Hprov & Hu & Hpf & Ho & Hs).
    exists s'. providers_simpl. split; [|split; [|repeat split; assumption]].
    + cbn [views]. unfold bind at 1. rewrite Hstep. unfold bind at 1.
      rewrite Hrun. unfold ret. f_equal. f_equal.
      cbn [seq map]. f_equal.
      * rewrite Z.mul_0_l, Z.add_0_r. now rewrite withProfileViews_same.
      * rewrite <- seq_shift, map_map. apply map_ext. intros k.
        unfold p1. cbn [Provider.userId Provider.profileViews Provider.id
                        withProfileViews].
        fold inc. fold items. f_equal. unfold withProfileViews.
        cbn [Provider.id Provider.userId Provider.businessName Provider.slug
             Provider.serviceType Provider.city Provider.whatsappNumber
             Provider.experienceYears Provider.description Provider.isVerified
             Provider.isActive Provider.profileViews Provider.createdAt
             Provider.updatedAt].
        f_equal. lia.
    + rewrite Hprov, map_map. apply map_ext. intros q. unfold bump, p1.
      cbn [Provider.userId Provider.profileViews Provider.id withProfileViews].
      fold inc.
      destruct (String.eqb (Provider.id q) (Provider.id p)) eqn:E.
      * cbn [Provider.id withProfileViews]. rewrite E.
        unfold withProfileViews.
        cbn [Provider.id Provider.userId Provider.businessName Provider.slug
             Provider.serviceType Provider.city Provider.whatsappNumber
             Provider.experienceYears Provider.description Provider.isVerified
             Provider.isActive Provider.profileViews Provider.createdAt
             Provider.updatedAt].
        f_equal. lia.
      * now rewrite E.
Qed.

Lemma getBySlug_counts_views_witness :
  exists s' : Store,
    views 3 "dave-decor" None marketStore =
      (Ok (map (fun k => ProviderWithPortfolio.mk
                           (withProfileViews (41 + Z.of_nat k * 1) dave)
                           [PortfolioItem.mk "z" "p2" "https://img/z.png" None 0 1 1
                              "Z" None]) (seq 0 3)), s') /\
    providers s' = [carol; withProfileViews 44 dave].
Proof.
  destruct (getBySlug_counts_views 3 "dave-decor" None dave marketStore)
    as (s' & Hrun & Hprov & _).
  - repeat constructor; simpl; intuition discriminate.
  - reflexivity.
  - exists s'. split; [exact Hrun | exact Hprov].
Defined.

Lemma toggleActive_run (now : Z) (userId : string) (p : Provider.t) (s : Store) :
  List.NoDup (map Provider.id (providers s)) ->
  db.findOne (providers s) (fun q => String.eqb (Provider.userId q) userId) = Some p ->
  ProviderService.toggleActive now userId s =
  (Ok (Some (withActive (negb (Provider.isActive p)) now p)),
   set_providers (map (fun q => if String.eqb (Provider.id q) (Provider.id p)
                                then withActive (negb (Provider.isActive p)) now q
                                else q)) s).
Proof.
  intros Hnd Hfind.
  assert (Hin : In p (providers s)) by (apply find_some in Hfind; tauto).
  unfold ProviderService.toggleActive. unfold bind at 1. unfold gets at 1.
  rewrite Hfind. unfold bind, modify, gets. providers_simpl.
  rewrite (update_unique (H := Provider_HasId) _ _ _ Hnd).
  f_equal.
  - f_equal. unfold db.findById. rewrite find_map_same.
    + change (List.find _ (providers s)) with (db.findById (providers s) (rid p)).
      rewrite (findById_In (H := Provider_HasId) _ _ Hnd Hin).
      cbn [option_map]. change (rid p) with (Provider.id p).
      now rewrite String.eqb_refl.
    + intros q. destruct (String.eqb (rid q) (Provider.id p)) eqn:E; exact E.
  - unfold set_providers. f_equal.
    apply (update_unique (H := Provider_HasId) _ _ _ Hnd).
Qed.

(** X26.  A deactivated profile is hidden from the public and kept for
    its owner.  With unique provider ids and slugs, [toggleActive] on an
    active profile returns it with [isActive] false; afterwards
    [getBySlug] throws NotFound "Provider not found" for every viewer, the
    owner included, and counts no view, while [getByUserId] still returns
    the profile.  A second [toggleActive] makes it active again: the
    providers are then as at the start except for [updatedAt] of this
    one. *)
Theorem toggleActive_hides (now : Z) (userId : string) (p : Provider.t) (s : Store) :
  List.NoDup (map Provider.id (providers s)) ->
  List.NoDup (map Provider.slug (providers s)) ->
  db.findOne (providers s) (fun q => String.eqb (Provider.userId q) userId) = Some p ->
  Provider.isActive p = true ->
  exists s1 : Store,
    ProviderService.toggleActive now userId s =
      (Ok (Some (withActive false now p)), s1) /\
    (forall viewerId : option string,
       ProviderService.getBySlug (Provider.slug p) viewerId s1 =
       (Err (NotFoundError "Provider"), s1)) /\
    (exists items : list PortfolioItem.t,
       ProviderService.getByUserId userId s1 =
       (Ok (ProviderWithPortfolio.mk (withActive false now p) items), s1)) /\
    (forall now' : Z, exists s2 : Store,
       ProviderService.toggleActive now' userId s1 =
         (Ok (Some (withActive true now' p)), s2) /\
       providers s2 =
         map (fun q => if String.eqb (Provider.id q) (Provider.id p)
                       then withActive true now' q else q) (providers s) /\
       portfolios s2 = portfolios s /\ users s2 = users s).
Proof.
  intros Hnd Hslugs Hfind Hactive.
  assert (Hin : In p (providers s)) by (apply find_some in Hfind; tauto).
  set (off := fun q : Provider.t =>
         if String.eqb (Provider.id q) (Provider.id p)
         then withActive false now q else q).
  assert (Hoffid : forall q, Provider.id (off q) = Provider.id q).
  { intros q. unfold off.
    destruct (String.eqb (Provider.id q) (Provider.id p)); reflexivity. }
  assert (Hoffuser : forall q, Provider.userId (off q) = Provider.userId q).
  { intros q. unfold off.
    destruct (String.eqb (Provider.id q) (Provider.id p)); reflexivity. }
  assert (Hoffp : off p = withActive false now p).
  { unfold off. now rewrite String.eqb_refl. }
  assert (Hnd1 : List.NoDup (map Provider.id (map off (providers s)))).
  { rewrite map_map. erewrite map_ext; [exact Hnd | exact Hoffid]. }
  assert (Hfind1 : db.findOne (map off (providers s))
                     (fun q => String.eqb (Provider.userId q) userId) =
                   Some (withActive false now p)).
  { unfold db.findOne in *. rewrite find_map_same.
    - now rewrite Hfind, <- Hoffp.
    - intros q. now rewrite Hoffuser. }
  assert (Hrun : ProviderService.toggleActive now userId s =
                 (Ok (Some (withActive false now p)), set_providers (map off) s)).
  { rewrite (toggleActive_run now userId p s Hnd Hfind), Hactive. reflexivity. }
  exists (set_providers (map off) s).
  split; [exact Hrun|]. split; [|split].
  - intros viewerId. unfold ProviderService.getBySlug.
    unfold bind at 1. unfold gets at 1. providers_simpl.
    unfold db.findOne. rewrite find_none_Forall; [reflexivity|].
    apply List.Forall_forall. intros q Hq.
    apply in_map_iff in Hq as (q0 & <- & Hq0). unfold off.
    destruct (String.eqb (Provider.id q0) (Provider.id p)) eqn:E.
    + cbn [withActive Provider.isActive]. apply andb_false_r.
    + apply andb_false_intro1. apply String.eqb_neq. intros Heq.
      apply String.eqb_neq in E. apply E. f_equal.
      now apply (NoDup_map_eq Provider.slug (providers s)).
  - eexists. unfold ProviderService.getByUserId.
    unfold bind at 1. unfold gets at 1. providers_simpl. rewrite Hfind1.
    unfold bind, gets, ret. reflexivity.
  - intros now'. eexists. split.
    + apply (toggleActive_run now' userId (withActive false now p)
               (set_providers (map off) s)); [exact Hnd1 | exact Hfind1].
    + providers_simpl. split; [|split; reflexivity].
      rewrite map_map. apply map_ext. intros q.
      cbn [withActive Provider.isActive Provider.id negb].
      rewrite Hoffid. unfold off.
      destruct (String.eqb (Provider.id q) (Provider.id p)); reflexivity.
Qed.

Lemma toggleActive_hides_witness :
  exists s1 : Store,
    ProviderService.toggleActive 9000 "u2" marketStore =
      (Ok (Some (withActive false 9000 dave)), s1) /\
    (forall viewerId : option string,
       ProviderService.getBySlug "dave-decor" viewerId s1 =
       (Err (NotFoundError "Provider"), s1)).
Proof.
  destruct (toggleActive_hides 9000 "u2" dave marketStore)
    as (s1 & Hrun & Hhidden & _).
  - repeat constructor; simpl; intuition discriminate.
  - repeat constructor; simpl; intuition discriminate.
  - reflexivity.
  - reflexivity.
  - exists s1. split; [exact Hrun | exact Hhidden].
Defined.

(** X27.  Deleting a profile takes its portfolio with it and nothing
    else.  With unique provider ids and at most one profile per user,
    [ProviderService.delete] removes the user's profile and every item of
    its portfolio; the other profiles and their items stay; the user
    account and the sessions stay.  Afterwards [getByUserId] throws
    NotFound and so does [PortfolioService.create]. *)
Theorem provider_delete_cascade (userId : string) (p : Provider.t) (s : Store) :
  List.NoDup (map Provider.id (providers s)) ->
  List.NoDup (map Provider.userId (providers s)) ->
  db.findOne (providers s) (fun q => String.eqb (Provider.userId q) userId) = Some p ->
  exists s' : Store,
    ProviderService.delete userId s = (Ok tt, s') /\
    providers s' =
      List.filter (fun q => negb (String.eqb (Provider.id q) (Provider.id p)))
        (providers s) /\
    portfolios s' =
      List.filter (fun item =>
        negb (String.eqb (PortfolioItem.providerId item) (Provider.id p)))
        (portfolios s) /\
    users s' = users s /\ otps s' = otps s /\ sessions s' = sessions s /\
    ProviderService.getByUserId userId s' =
      (Err (NotFoundError "Provider profile"), s') /\
    forall (e : Env.t) (data : CreatePortfolioItemInput.t),
      PortfolioService.create e userId data s' =
      (Err (NotFoundError "Provider profile. Please create one first."), s').
Proof.
  intros Hnd Husers Hfind.
  assert (Hin : In p (providers s)) by (apply find_some in Hfind; tauto).
  assert (Hp : Provider.userId p = userId).
  { apply find_some in Hfind as [_ E]. now apply String.eqb_eq in E. }
  assert (Hgone : db.findOne
            (List.filter (fun q => negb (String.eqb (Provider.id q) (Provider.id p)))
               (providers s))
            (fun q => String.eqb (Provider.userId q) userId) = None).
  { apply find_none_Forall. apply List.Forall_forall. intros q Hq.
    apply filter_In in Hq as [Hq Hne]. apply String.eqb_neq. intros Heq.
    assert (q = p) as ->.
    { apply (NoDup_map_eq Provider.userId (providers s)); congruence. }
    rewrite String.eqb_refl in Hne. discriminate. }
  assert (Hdel : db.delete (providers s) (Provider.id p) =
                 List.filter (fun q => negb (String.eqb (Provider.id q) (Provider.id p)))
                   (providers s))
    by apply (delete_unique (H := Provider_HasId) _ _ Hnd).
  exists (set_providers (fun l => db.delete l (Provider.id p))
            (set_portfolios (fun l =>
               db.deleteWhere l (fun item =>
                 String.eqb (PortfolioItem.providerId item) (Provider.id p))) s)).
  split.
  { unfold ProviderService.delete. unfold bind at 1. unfold gets at 1.
    rewrite Hfind. unfold bind, modify. reflexivity. }
  providers_simpl. rewrite Hdel.
  split; [reflexivity|]. split; [reflexivity|].
  split; [reflexivity|]. split; [reflexivity|]. split; [reflexivity|].
  split.
  - unfold ProviderService.getByUserId. unfold bind at 1. unfold gets at 1.
    providers_simpl. now rewrite Hdel, Hgone.
  - intros e data. unfold PortfolioService.create, PortfolioService.getProviderByUserId.
    unfold bind at 1. unfold bind at 1. unfold gets at 1.
    providers_simpl. now rewrite Hdel, Hgone.
Qed.

Lemma provider_delete_cascade_witness :
  exists s' : Store,
    ProviderService.delete "u1" marketStore = (Ok tt, s') /\
    providers s' = [dave] /\
    map PortfolioItem.id (portfolios s') = ["z"] /\
    users s' = [alice; bob] /\ sessions s' = [aliceSession].
Proof.
  destruct (provider_delete_cascade "u1" carol marketStore)
    as (s' & Hrun & Hprov & Hport & Hu & _ & Hs & _).
  - repeat constructor; simpl; intuition discriminate.
  - repeat constructor; simpl; intuition discriminate.
  - reflexivity.
  - exists s'. split; [exact Hrun|]. split; [exact Hprov|].
    split; [now rewrite Hport|]. split; [exact Hu | exact Hs].
Defined.

(** ** Masking *)

(** X28.  [maskPhone] keeps the length, the first two and the last two
    characters, and puts a star at every position between them; a number
    of four characters or fewer is returned unmasked.  Masking a masked
    number changes nothing. *)
Theorem maskPhone_shape (phone : chars) :
  length (maskPhone phone) = length phone /\
  maskPhone (maskPhone phone) = maskPhone phone /\
  firstn 2 (maskPhone phone) = firstn 2 phone /\
  skipn (length phone - 2) (maskPhone phone) = skipn (length phone - 2) phone /\
  (forall i : nat, (2 <= i < length phone - 2)%nat ->
     nth_error (maskPhone phone) i = Some "*"%char) /\
  ((length phone <= 4)%nat -> maskPhone phone = phone).
Proof.
  assert (Hlen : length (maskPhone phone) = length phone).
  { unfold maskPhone. destruct (Nat.leb_spec (length phone) 4); [reflexivity|].
    rewrite !List.length_app, repeat_length, length_firstn, length_skipn. lia. }
  assert (Hfirst : firstn 2 (maskPhone phone) = firstn 2 phone).
  { unfold maskPhone. destruct (Nat.leb_spec (length phone) 4); [reflexivity|].
    rewrite firstn_app, length_firstn.
    replace (2 - Nat.min 2 (length phone))%nat with 0%nat by lia.
    rewrite firstn_O, app_nil_r. apply firstn_firstn. }
  assert (Hlast : skipn (length phone - 2) (maskPhone phone) =
                  skipn (length phone - 2) phone).
  { unfold maskPhone. destruct (Nat.leb_spec (length phone) 4); [reflexivity|].
    rewrite List.app_assoc, skipn_app.
    rewrite List.length_app, repeat_length, length_firstn.
    replace (length phone - 2 - (Nat.min 2 (length phone) + (length phone - 4)))%nat
      with 0%nat by lia.
    rewrite skipn_all2; [reflexivity|].
    rewrite List.length_app, repeat_length, length_firstn. lia. }
  split; [exact Hlen|]. split; [|split; [exact Hfirst|split; [exact Hlast|split]]].
  - unfold maskPhone at 1. rewrite Hlen, Hfirst, Hlast.
    unfold maskPhone. destruct (Nat.leb_spec (length phone) 4); reflexivity.
  - intros i Hi. unfold maskPhone.
    destruct (Nat.leb_spec (length phone) 4); [lia|].
    rewrite nth_error_app2 by (rewrite length_firstn; lia).
    rewrite length_firstn.
    rewrite nth_error_app1 by (rewrite repeat_length; lia).
    apply nth_error_repeat. lia.
  - intros Hshort. unfold maskPhone.
    destruct (Nat.leb_spec (length phone) 4); [reflexivity | lia].
Qed.

Lemma split_no_sep (sep : ascii) (s : chars) :
  ~ In sep s -> split sep s = [s].
Proof.
  induction s as [|c s IH]; intros Hnotin; [reflexivity|]. simpl in *.
  destruct (Ascii.eqb c sep) eqn:E.
  - apply Ascii.eqb_eq in E. tauto.
  - rewrite IH by tauto. reflexivity.
Qed.

Lemma split_first (sep : ascii) (s t : chars) :
  ~ In sep s -> split sep (s ++ sep :: t)%list = s :: split sep t.
Proof.
  induction s as [|c s IH]; intros Hnotin.
  - simpl. now rewrite Ascii.eqb_refl.
  - simpl in *. destruct (Ascii.eqb c sep) eqn:E.
    + apply Ascii.eqb_eq in E. tauto.
    + rewrite IH by tauto. reflexivity.
Qed.

(** X29.  [maskEmail] on an address with one at sign.  A local part of
    three characters or more keeps its first and its last character and
    has a star for each one between, so the length of the address is
    kept; a local part of one or two characters is replaced by its first
    character and three stars, which makes the result longer than the
    address and shows a local part of one character in full. *)
Theorem maskEmail_shape (first : ascii) (middle domain : chars) :
  ~ In "@"%char (first :: middle) -> ~ In "@"%char domain ->
  let email := ((first :: middle) ++ "@"%char :: domain)%list in
  ((2 <= length middle)%nat ->
     maskEmail email =
       ([first] ++ repeat "*"%char (length middle - 1) ++
        [List.last middle first] ++ "@"%char :: domain)%list /\
     length (maskEmail email) = length email) /\
  ((length middle <= 1)%nat ->
     maskEmail email =
       ([first] ++ list_ascii_of_string "***@" ++ domain)%list /\
     (length email < length (maskEmail email))%nat).
Proof.
  intros Hlocal Hdomain email.
  assert (Hsplit : split "@"%char email = [first :: middle; domain]).
  { unfold email. rewrite split_first by exact Hlocal.
    now rewrite split_no_sep by exact Hdomain. }
  split.
  - intros Hlong.
    assert (Hmask : maskEmail email =
              ([first] ++ repeat "*"%char (length middle - 1) ++
               [List.last middle first] ++ "@"%char :: domain)%list).
    { unfold maskEmail. rewrite Hsplit.
      cbn [nth_error default id length interpolate charAt option_map].
      destruct (Nat.leb_spec (S (length middle)) 2); [lia|].
      replace (S (length middle) - 2)%nat with (length middle - 1)%nat by lia.
      replace (S (length middle) - 1)%nat with (S (length middle - 1)) by lia.
      assert (Hnth : nth_error middle (length middle - 1) = Some (List.last middle first)).
      { clear -Hlong. destruct middle as [|c middle] using rev_ind; [simpl in *; lia|].
        rewrite List.length_app, List.last_last. simpl.
        replace (length middle + 1 - 1)%nat with (length middle) by lia.
        rewrite nth_error_app2 by lia. now rewrite Nat.sub_diag. }
      unfold charAt. cbn [nth_error]. rewrite Hnth. reflexivity. }
    split; [exact Hmask|]. rewrite Hmask. unfold email.
    simpl. rewrite !List.length_app, repeat_length. simpl. lia.
  - intros Hshort.
    assert (Hmask : maskEmail email =
              ([first] ++ list_ascii_of_string "***@" ++ domain)%list).
    { unfold maskEmail. rewrite Hsplit.
      cbn [nth_error default id length interpolate charAt option_map].
      destruct (Nat.leb_spec (S (length middle)) 2); [reflexivity | lia]. }
    split; [exact Hmask|]. rewrite Hmask. unfold email. simpl.
    rewrite !List.length_app. simpl. lia.
Qed.

Lemma maskEmail_shape_witness :
  maskEmail (list_ascii_of_string "user@example.com") =
    list_ascii_of_string "u**r@example.com" /\
  maskEmail (list_ascii_of_string "me@example.com") =
    list_ascii_of_string "m***@example.com".
Proof.
  split.
  - apply (maskEmail_shape "u"%char (list_ascii_of_string "ser")
             (list_ascii_of_string "example.com")).
    + simpl. intuition discriminate.
    + simpl. intuition discriminate.
    + simpl. lia.
  - apply (maskEmail_shape "m"%char (list_ascii_of_string "e")
             (list_ascii_of_string "example.com")).
    + simpl. intuition discriminate.
    + simpl. intuition discriminate.
    + simpl. lia.
Defined.

(** ** PortfolioService: display orders *)

Lemma numbered_sorted {T : Type} (key : T -> Z) (l : list T) (i : nat) :
  map key l = map Z.of_nat (seq i (length l)) ->
  Sorted.StronglySorted (fun a b => key a < key b) l.
Proof.
  revert i. induction l as [|x l IH]; intros i Hkeys; [constructor|].
  cbn [map length seq] in Hkeys. injection Hkeys as Hx Hl.
  constructor; [now apply (IH (S i))|].
  apply List.Forall_forall. intros y Hy.
  assert (Hin : In (key y) (map Z.of_nat (seq (S i) (length l)))).
  { rewrite <- Hl. now apply in_map. }
  apply in_map_iff in Hin as (k & Hk & Hkin). apply in_seq in Hkin. simpl. lia.
Qed.

(** X30.  New items go last as long as the display orders are 0, 1, 2,
    ...  When the provider's listing has exactly these display orders and
    fewer than ten items, [create] returns an item whose display order is
    the number of items, and the listing afterwards is the old one with
    the new item at its end, again with the display orders 0, 1, 2, ... *)
Theorem create_goes_last (e : Env.t) (userId : string)
    (data : CreatePortfolioItemInput.t) (provider : Provider.t) (s : Store)
    (before : list PortfolioItem.t) :
  db.findOne (providers s) (fun p => String.eqb (Provider.userId p) userId) =
    Some provider ->
  PortfolioMethods.getByProviderId (Provider.id provider) s = (Ok before, s) ->
  map PortfolioItem.displayOrder before = map Z.of_nat (seq 0 (length before)) ->
  (length before < 10)%nat ->
  exists (item : PortfolioItem.t) (s' : Store),
    PortfolioService.create e userId data s = (Ok item, s') /\
    PortfolioItem.displayOrder item = Z.of_nat (length before) /\
    PortfolioMethods.getByProviderId (Provider.id provider) s' =
      (Ok (before ++ [item])%list, s') /\
    map PortfolioItem.displayOrder (before ++ [item])%list =
      map Z.of_nat (seq 0 (S (length before))).
Proof.
  intros Hprov Hlist Horders Hroom.
  set (own := fun item : PortfolioItem.t =>
                String.eqb (PortfolioItem.providerId item) (Provider.id provider)).
  assert (Hbefore : before = sort PortfolioMethods.byDisplayOrder
                               (List.filter own (portfolios s))).
  { unfold PortfolioMethods.getByProviderId, bind, gets, ret, db.findWhere in Hlist.
    now injection Hlist as <-. }
  assert (Hcount : length (List.filter own (portfolios s)) = length before).
  { rewrite Hbefore. apply Permutation_length, sort_perm. }
  set (item := PortfolioItem.mk (Env.portfolioId e) (Provider.id provider)
        (CreatePortfolioItemInput.imgUrl data)
        (Some (or_default (CreatePortfolioItemInput.description data) ""))
        (Z.of_nat (length before)) (Env.now e) (Env.now e)
        (CreatePortfolioItemInput.title data)
        (or_null (CreatePortfolioItemInput.category data))).
  assert (Hall : map PortfolioItem.displayOrder (before ++ [item])%list =
                 map Z.of_nat (seq 0 (S (length before)))).
  { rewrite map_app, Horders, seq_S, map_app. reflexivity. }
  exists item, (set_portfolios (fun l => db.create l item) s).
  split; [|split; [reflexivity|split; [|exact Hall]]].
  - unfold PortfolioService.create, PortfolioService.getProviderByUserId.
    unfold bind at 1. unfold bind at 1. unfold gets at 1. rewrite Hprov.
    unfold ret at 1. unfold bind at 1. unfold gets at 1.
    unfold db.count. fold own. rewrite Hcount.
    assert ((PortfolioService.MAX_PORTFOLIO_ITEMS <=? Z.of_nat (length before)) = false)
      as ->.
    { apply Z.leb_gt. unfold PortfolioService.MAX_PORTFOLIO_ITEMS. lia. }
    unfold bind, modify, ret. reflexivity.
  - unfold PortfolioMethods.getByProviderId, bind, gets, ret, db.findWhere, db.create.
    providers_simpl. fold own. f_equal. f_equal.
    rewrite List.filter_app. cbn [List.filter].
    assert (own item = true) as -> by apply String.eqb_refl.
    symmetry. apply (sorted_perm_unique PortfolioItem.displayOrder).
    + apply (numbered_sorted PortfolioItem.displayOrder _ 0).
      rewrite Hall, List.length_app. simpl.
      now replace (length before + 1)%nat with (S (length before)) by lia.
    + apply (sort_sorted PortfolioItem.displayOrder).
    + rewrite <- sort_perm. apply Permutation_app_tail.
      rewrite Hbefore. symmetry. apply sort_perm.
Qed.

Lemma create_goes_last_witness :
  exists (item : PortfolioItem.t) (s' : Store),
    PortfolioService.create (demoEnv 5000 "x") "u1" demoInput (portfolioStore 3) =
      (Ok item, s') /\
    PortfolioItem.displayOrder item = 3 /\
    PortfolioMethods.getByProviderId "p1" s' =
      (Ok (map carolItem (seq 0 3) ++ [item])%list, s').
Proof.
  destruct (create_goes_last (demoEnv 5000 "x") "u1" demoInput carol
              (portfolioStore 3) (map carolItem (seq 0 3)))
    as (item & s' & Hrun & Horder & Hlist & _).
  - reflexivity.
  - reflexivity.
  - reflexivity.
  - simpl. lia.
  - exists item, s'. split; [exact Hrun|]. split; [exact Horder | exact Hlist].
Defined.

(** After a [reorder] that leaves a gap, the new item shares its display
    order with an old one. *)
Example create_after_reorder_ties :
  let s1 := snd (PortfolioMethods.reorder "u1" [("a", 2)] marketStore) in
  let s2 := snd (PortfolioService.create (demoEnv 5000 "x") "u1" demoInput s1) in
  option_map (map (fun i => (PortfolioItem.id i, PortfolioItem.displayOrder i)))
    (match fst (PortfolioMethods.getByProviderId "p1" s2) with
     | Ok items => Some items
     | Err _ => None
     end) =
  Some [("b", 0); ("a", 2); ("item-x", 2)].
Proof. reflexivity. Qed.
